(** * QuickFeed: assignment parsing, synchronisation and the service facade

    A shallow embedding of the Go back end of QuickFeed (autograder):
    - [GoTime]: the part of Go's [time] package that [ParseAssignments]
      relies on, specialised to the layout ["02-01-2006 15:04"];
    - [Parser]: [ParseAssignments] (the directory walk over a tests
      repository checkout);
    - [Scm]: the GitLab client's [CreateDirectory];
    - [Facade]: the error mapping of the RPC facade ([AutograderService]);
    - [Web]: [getAssignments], [updateAssignments], [loadCriteria],
      [removeOldCriteriaAndReviews] and [createReview] over a model of the
      storage layer;
    - [ScmMore], [FacadeMore], [WebMore]: the other methods of the GitLab
      client, of the facade and of the benchmark service;
    - [GrpcManager]: the web client's [updateUser] and [grpcSend].

    Go's unsigned integers are [N] with the wrap-around of each conversion
    written out; Go's [int] and Unix seconds are [Z]; Go strings are byte
    strings ([string]). *)

From Stdlib Require Import List String Ascii NArith ZArith Bool Lia.
From Stdlib Require DecimalString.
Import ListNotations.

Local Open Scope string_scope.

#[local] Set Warnings "-register-all".

(* ===================================================================== *)
(** ** Go's [time.Parse] for the deadline layout                          *)
(* ===================================================================== *)

Module GoTime.

Local Open Scope Z_scope.

(** A wall-clock time in UTC, as [time.Date] assembles it. *)
Record Time := mkTime {
  year : Z; month : Z; day : Z; hour : Z; minute : Z; second : Z
}.

Definition isDigit (c : ascii) : bool :=
  let n := N_of_ascii c in ((48 <=? n) && (n <=? 57))%N.

Definition digitVal (c : ascii) : Z := Z.of_N (N_of_ascii c) - 48.

(** [getnum(s, fixed)]: one or two leading digits; exactly two when
    [fixed]. *)
Definition getnum (s : string) (fixed : bool) : option (Z * string) :=
  match s with
  | String c0 rest =>
      if isDigit c0 then
        match rest with
        | String c1 rest' =>
            if isDigit c1 then Some (digitVal c0 * 10 + digitVal c1, rest')
            else if fixed then None else Some (digitVal c0, rest)
        | EmptyString => if fixed then None else Some (digitVal c0, rest)
        end
      else None
  | EmptyString => None
  end.

(** The [stdLongYear] case: at least four bytes, all four of them digits
    ([atoi] of the four-byte prefix). *)
Definition getyear (s : string) : option (Z * string) :=
  match s with
  | String a (String b (String c (String d rest))) =>
      if isDigit a && isDigit b && isDigit c && isDigit d
      then Some (((digitVal a * 10 + digitVal b) * 10 + digitVal c) * 10
                 + digitVal d, rest)
      else None
  | _ => None
  end.

Fixpoint cutspace (s : string) : string :=
  match s with
  | String " " rest => cutspace rest
  | _ => s
  end.

(** [skip(value, prefix)] for a one-byte literal prefix other than a
    space: the value must start with that byte. *)
Definition skipChar (c : ascii) (s : string) : option string :=
  match s with
  | String c' rest => if Ascii.eqb c' c then Some rest else None
  | EmptyString => None
  end.

(** [skip(value, " ")]: a non-empty value must start with a space, and
    then the whole run of spaces is cut. *)
Definition skipSpace (s : string) : option string :=
  match s with
  | EmptyString => Some EmptyString
  | String c _ => if Ascii.eqb c " " then Some (cutspace s) else None
  end.

Definition isLeap (y : Z) : bool :=
  (Z.rem y 4 =? 0) && (negb (Z.rem y 100 =? 0) || (Z.rem y 400 =? 0)).

Definition daysIn (m y : Z) : Z :=
  if (m =? 2) && isLeap y then 29
  else match m with
       | 1 => 31 | 2 => 28 | 3 => 31 | 4 => 30 | 5 => 31 | 6 => 30
       | 7 => 31 | 8 => 31 | 9 => 30 | 10 => 31 | 11 => 30 | 12 => 31
       | _ => 0
       end.

(** [time.Parse("02-01-2006 15:04", value)], unfolded along the chunks of
    the layout: [stdZeroDay], ["-"], [stdZeroMonth], ["-"],
    [stdLongYear], [" "], [stdHour], [":"], [stdZeroMinute], end of
    layout.  [None] stands for any [*ParseError]. *)
Definition Parse (value : string) : option Time :=
  match getnum value true with
  | None => None
  | Some (d, v1) =>
  match skipChar "-" v1 with
  | None => None
  | Some v2 =>
  match getnum v2 true with
  | None => None
  | Some (mo, v3) =>
  if (mo <=? 0) || (12 <? mo) then None else
  match skipChar "-" v3 with
  | None => None
  | Some v4 =>
  match getyear v4 with
  | None => None
  | Some (y, v5) =>
  match skipSpace v5 with
  | None => None
  | Some v6 =>
  match getnum v6 false with
  | None => None
  | Some (h, v7) =>
  if (h <? 0) || (24 <=? h) then None else
  match skipChar ":" v7 with
  | None => None
  | Some v8 =>
  match getnum v8 true with
  | None => None
  | Some (mi, v9) =>
  if (mi <? 0) || (60 <=? mi) then None else
  match v9 with
  | String _ _ => None (* extra text *)
  | EmptyString =>
      if (d <? 1) || (daysIn mo y <? d) then None
      else Some (mkTime y mo d h mi 0)
  end end end end end end end end end end.

(** Days from 1970-01-01 to a date of the proleptic Gregorian calendar. *)
Definition daysFromCivil (y m d : Z) : Z :=
  let y' := if m <=? 2 then y - 1 else y in
  let era := y' / 400 in
  let yoe := y' - era * 400 in
  let mp := if 2 <? m then m - 3 else m + 9 in
  let doy := (153 * mp + 2) / 5 + d - 1 in
  let doe := yoe * 365 + yoe / 4 - yoe / 100 + doy in
  era * 146097 + doe - 719468.

(** [t.Unix()]: seconds since 1970-01-01T00:00:00Z. *)
Definition Unix (t : Time) : Z :=
  daysFromCivil (year t) (month t) (day t) * 86400
  + hour t * 3600 + minute t * 60 + second t.

(** A month's three-letter English name, as [Format] prints ["Jan"]. *)
Definition shortMonth (m : Z) : string :=
  match m with
  | 1 => "Jan" | 2 => "Feb" | 3 => "Mar" | 4 => "Apr" | 5 => "May"
  | 6 => "Jun" | 7 => "Jul" | 8 => "Aug" | 9 => "Sep" | 10 => "Oct"
  | 11 => "Nov" | 12 => "Dec" | _ => "%!Month"
  end.

Definition digitChar (n : Z) : ascii := ascii_of_N (Z.to_N (48 + n mod 10)).

(** Two digits, zero padded ([appendInt(b, x, 2)] for [0 <= x < 100]). *)
Definition twoDigits (n : Z) : string :=
  String (digitChar (n / 10)) (String (digitChar n) EmptyString).

(** [t.Format("02 Jan 15:04")]. *)
Definition Format_02_Jan_15_04 (t : Time) : string :=
  (twoDigits (day t) ++ " " ++ shortMonth (month t) ++ " "
    ++ twoDigits (hour t) ++ ":" ++ twoDigits (minute t))%string.

End GoTime.

(* ===================================================================== *)
(** ** The assignment parser ([ParseAssignments])                         *)
(* ===================================================================== *)

Module Parser.

(** [tspb.Timestamp]: seconds since the Unix epoch and nanoseconds. *)
Record Timestamp := mkTimestamp { Seconds : Z; Nanos : Z }.

Definition minValidSeconds : Z := -62135596800.
Definition maxValidSeconds : Z := 253402300800.

(** [tspb.TimestampProto(t)]: the conversion followed by the validation of
    the range 0001-01-01 .. 9999-12-31.  A parsed deadline has no
    nanoseconds. *)
Definition TimestampProto (t : GoTime.Time) : option Timestamp :=
  let ts := mkTimestamp (GoTime.Unix t) 0 in
  if (Seconds ts <? minValidSeconds)%Z then None
  else if (maxValidSeconds <=? Seconds ts)%Z then None
  else Some ts.

(** [const target = "assignment.yml"] *)
Definition target : string := "assignment.yml".

(** [type assignmentData struct]; [uint] is 64 bits wide. *)
Record assignmentData := mkAssignmentData {
  AssignmentID : N;
  Name : string;
  Language : string;
  Deadline : string;
  AutoApprove : bool;
  IsGroupLab : bool
}.

(** [pb.Assignment], with the fields the parser sets. *)
Record Assignment := mkAssignment {
  pb_ID : N;            (* uint64 *)
  pb_Course_ID : N;     (* uint64 *)
  pb_Deadline : Timestamp;
  pb_Language : string;
  pb_Name : string;
  pb_Order : N;         (* uint32 *)
  pb_AutoApprove : bool;
  pb_IsGroupLab : bool
}.

Definition uint64 (n : N) : N := (n mod 2 ^ 64)%N.
Definition uint32 (n : N) : N := (n mod 2 ^ 32)%N.

(** The errors [os.Stat] and [os.Lstat] fail with, and the errors the
    function literal returns. *)
Inductive error :=
| ErrNotExist        (* ENOENT: no such file or directory *)
| ErrNotDir          (* ENOTDIR: a component of the path is not a directory *)
| ErrPermission      (* EACCES: a component of the path cannot be searched *)
| ErrReadFile        (* ioutil.ReadFile *)
| ErrYaml            (* yaml.Unmarshal *)
| ErrTimeParse       (* time.Parse *)
| ErrTimestamp.      (* tspb.TimestampProto *)

(** [os.IsNotExist(err)] for a non-nil [err]: ENOENT only. *)
Definition os_IsNotExist (e : error) : bool :=
  match e with ErrNotExist => true | _ => false end.

(** A call returns, or the goroutine panics. *)
Inductive outcome (A : Type) :=
| Returns (a : A)
| Panics.

Arguments Returns {A}.
Arguments Panics {A}.

(** What lies below a path: regular files (with the bytes
    [ioutil.ReadFile] returns, or [None] when the read fails), directories
    with their entries in the order [filepath.Walk] visits them (lexical),
    and directories whose listing fails, with the entries they hold all
    the same.  Every node carries its base name; every entry of a listed
    directory can be [Lstat]ed. *)
Inductive node :=
| File (name : string) (content : option string)
| Dir (name : string) (entries : list node)
| DirUnreadable (name : string) (entries : list node).

(** [contains root n]: the node [n] is [root] or lies below it, at any
    depth, whether its directory can be listed or not. *)
Inductive contains : node -> node -> Prop :=
| contains_self n : contains n n
| contains_entry name entries e n :
    In e entries -> contains e n -> contains (Dir name entries) n
| contains_unlisted name entries e n :
    In e entries -> contains e n -> contains (DirUnreadable name entries) n.

(** [reaches root n]: the node [n] is [root] or lies below it with every
    directory on the way listed, so that [filepath.Walk] gets to it. *)
Inductive reaches : node -> node -> Prop :=
| reaches_self n : reaches n n
| reaches_entry name entries e n :
    In e entries -> reaches e n -> reaches (Dir name entries) n.

(** The file system as [os.Stat] and [os.Lstat] answer for a path: the
    node there, or the error.  The trees have no symbolic links, so the
    two calls agree. *)
Definition FileSystem := string -> error + node.

(** [strings.ToLower] on the bytes of an ASCII string. *)
Definition isASCII (s : string) : bool :=
  forallb (fun c => (N_of_ascii c <? 128)%N) (list_ascii_of_string s).

Definition isUpperByte (c : ascii) : bool :=
  let n := N_of_ascii c in ((65 <=? n) && (n <=? 90))%N.

Definition lowerByte (c : ascii) : ascii :=
  if isUpperByte c then ascii_of_N (N_of_ascii c + 32) else c.

Fixpoint mapBytes (f : ascii -> ascii) (s : string) : string :=
  match s with
  | EmptyString => EmptyString
  | String c r => String (f c) (mapBytes f r)
  end.

Section Parse.

(** [yaml.Unmarshal(source, &newAssignment)] of gopkg.in/yaml.v2, started
    from the zero value; [None] when it returns an error. *)
Variable yaml_Unmarshal : string -> option assignmentData.

(** [strings.Map(unicode.ToLower, s)], the path [strings.ToLower] takes for
    a string with a byte outside ASCII. *)
Variable unicode_ToLower : string -> string.

Definition ToLower (s : string) : string :=
  if isASCII s then mapBytes lowerByte s else unicode_ToLower s.

(** The function literal handed to [filepath.Walk]: [name] is
    [filepath.Base(path)], [isDir] is [info.IsDir()], [readFile] the
    outcome of [ioutil.ReadFile(path)], and [assignments] the slice
    captured by the closure. *)
Definition walkFn (courseID : N) (name : string) (isDir : bool)
    (readFile : option string) (assignments : list Assignment)
  : error + list Assignment :=
  if negb isDir then
    if (name =? target)%string then
      match readFile with
      | None => inl ErrReadFile
      | Some source =>
      match yaml_Unmarshal source with
      | None => inl ErrYaml
      | Some newAssignment =>
      match GoTime.Parse (Deadline newAssignment) with
      | None => inl ErrTimeParse
      | Some d =>
      match TimestampProto d with
      | None => inl ErrTimestamp
      | Some deadline =>
          let assignment := {|
            pb_ID := uint64 (AssignmentID newAssignment);
            pb_Course_ID := courseID;
            pb_Deadline := deadline;
            pb_Language := ToLower (Language newAssignment);
            pb_Name := Name newAssignment;
            pb_Order := uint32 (AssignmentID newAssignment);
            pb_AutoApprove := AutoApprove newAssignment;
            pb_IsGroupLab := IsGroupLab newAssignment |} in
          inr (assignments ++ [assignment])%list
      end end end end
    else inr assignments
  else inr assignments.

(** [filepath.Walk]: the function is called on the node itself, then on the
    entries of a directory in order; the first error stops the walk.  A
    directory whose listing fails is handed to the function (which ignores
    the listing error and returns nil) and is not entered. *)
Fixpoint walk (courseID : N) (n : node) (assignments : list Assignment)
  : error + list Assignment :=
  match n with
  | File name content => walkFn courseID name false content assignments
  | DirUnreadable name _ => walkFn courseID name true None assignments
  | Dir name entries =>
      match walkFn courseID name true None assignments with
      | inl e => inl e
      | inr acc0 =>
          (fix walkEntries (es : list node) (acc : list Assignment)
             : error + list Assignment :=
             match es with
             | [] => inr acc
             | e :: es' =>
                 match walk courseID e acc with
                 | inl err => inl err
                 | inr acc' => walkEntries es' acc'
                 end
             end) entries acc0
      end
  end.

(** [filepath.Walk(root, walkFn)] with the function literal: [os.Lstat]
    of the root comes first.  When it fails, [Walk] calls the function
    with a nil [info] and the error; the literal ignores the error and
    evaluates [info.IsDir()], which panics on the nil interface. *)
Definition Walk (fs : FileSystem) (root : string) (courseID : N)
  : outcome (error + list Assignment) :=
  match fs root with
  | inl _ => Panics
  | inr n => Returns (walk courseID n [])
  end.

(** [ParseAssignments(dir, courseID)] with its two results.  Only an error
    of [os.Stat] that [os.IsNotExist] accepts is returned before the
    walk. *)
Definition ParseAssignments (fs : FileSystem) (dir : string) (courseID : N)
  : outcome (list Assignment * option error) :=
  let err := match fs dir with
             | inl e => Some e
             | inr _ => None
             end in
  if match err with Some e => os_IsNotExist e | None => false end
  then Returns ([], err)
  else
    match Walk fs dir courseID with
    | Panics => Panics
    | Returns (inl err) => Returns ([], Some err)
    | Returns (inr assignments) => Returns (assignments, None)
    end.

(** *** Reading the result off the tree *)

(** The outcome of the function literal on one descriptor file, from the
    outcome of reading it. *)
Definition parseDescriptor (courseID : N) (readFile : option string)
  : error + Assignment :=
  match walkFn courseID target false readFile [] with
  | inl e => inl e
  | inr l => match l with
             | a :: _ => inr a
             | [] => inl ErrReadFile
             end
  end.

(** The descriptor files [filepath.Walk] comes across below a node, in the
    order of the walk, each with the outcome of reading it; what lies
    below a directory that cannot be listed is not among them. *)
Fixpoint descriptors (n : node) : list (option string) :=
  match n with
  | File name content => if (name =? target)%string then [content] else []
  | Dir _ entries => flat_map descriptors entries
  | DirUnreadable _ _ => []
  end.

(** The assignments collected from a list of descriptor files. *)
Fixpoint collect (courseID : N) (l : list (option string))
    (acc : list Assignment) : error + list Assignment :=
  match l with
  | [] => inr acc
  | c :: l' =>
      match parseDescriptor courseID c with
      | inl e => inl e
      | inr a => collect courseID l' (acc ++ [a])%list
      end
  end.

(** A descriptor file is valid when it can be read, decodes, and its
    deadline parses and fits a protobuf timestamp. *)
Definition validDescriptor (readFile : option string) : Prop :=
  exists source d t ts,
    readFile = Some source /\ yaml_Unmarshal source = Some d
    /\ GoTime.Parse (Deadline d) = Some t /\ TimestampProto t = Some ts.

End Parse.

End Parser.

(* ===================================================================== *)
(** ** The GitLab SCM client ([GitlabSCM.CreateDirectory])                *)
(* ===================================================================== *)

Module Scm.

(** [gitlab.VisibilityLevelValue] *)
Inductive VisibilityLevelValue :=
| PrivateVisibility
| InternalVisibility
| PublicVisibility.

(** [gitlab.CreateGroupOptions]: every field is a pointer, [None] is nil. *)
Record CreateGroupOptions := mkCreateGroupOptions {
  cg_Name : option string;
  cg_Path : option string;
  cg_VisibilityLevel : option VisibilityLevelValue
}.

(** [gitlab.Group], with the fields the client reads. *)
Record Group := mkGroup {
  g_ID : Z;              (* int *)
  g_Path : string;
  g_AvatarURL : string
}.

Record CreateDirectoryOptions := mkCreateDirectoryOptions {
  cd_Name : string;
  cd_Path : string
}.

Record Directory := mkDirectory {
  d_ID : N;              (* uint64 *)
  d_Path : string;
  d_Avatar : string
}.

(** [uint64(x)] of an [int]. *)
Definition uint64_of_int (x : Z) : N := Z.to_N (x mod 2 ^ 64).

Definition getVisibilityLevel (private : bool) : option VisibilityLevelValue :=
  if private then Some PrivateVisibility else Some PublicVisibility.

Section Client.

(** The state of the GitLab server and the provider's errors. *)
Variables (remote provider_error : Type).

(** [s.client.Groups.CreateGroup(opt, gitlab.WithContext(ctx))] *)
Variable Groups_CreateGroup :
  CreateGroupOptions -> remote -> (provider_error + Group) * remote.

(** The request [CreateDirectory] builds. *)
Definition createGroupRequest (opt : CreateDirectoryOptions)
  : CreateGroupOptions :=
  {| cg_Name := Some (cd_Name opt);
     cg_Path := Some (cd_Path opt);
     cg_VisibilityLevel := getVisibilityLevel false |}.

Definition CreateDirectory (opt : CreateDirectoryOptions) (r : remote)
  : (provider_error + Directory) * remote :=
  match Groups_CreateGroup (createGroupRequest opt) r with
  | (inl err, r') => (inl err, r')
  | (inr group, r') =>
      (inr {| d_ID := uint64_of_int (g_ID group);
              d_Path := g_Path group;
              d_Avatar := g_AvatarURL group |}, r')
  end.

(** A client that also records the requests it receives. *)
Definition recording (o : CreateGroupOptions)
    (r : remote * list CreateGroupOptions)
  : (provider_error + Group) * (remote * list CreateGroupOptions) :=
  let (res, r') := Groups_CreateGroup o (fst r) in
  (res, (r', (snd r ++ [o])%list)).

End Client.

(** A GitLab server reduced to its groups: a group is created with the
    requested path and visibility unless the path is taken. *)
Record ServerGroup := mkServerGroup {
  sg_ID : Z;
  sg_Path : string;
  sg_Visibility : option VisibilityLevelValue
}.

Definition Server := list ServerGroup.

Inductive ServerError := PathTaken | MissingPath.

Definition server_CreateGroup (o : CreateGroupOptions) (s : Server)
  : (ServerError + Group) * Server :=
  match cg_Path o with
  | None => (inl MissingPath, s)
  | Some p =>
      if existsb (fun g => (sg_Path g =? p)%string) s then (inl PathTaken, s)
      else
        let id := Z.of_nat (S (List.length s)) in
        (inr (mkGroup id p ""),
         (s ++ [mkServerGroup id p (cg_VisibilityLevel o)])%list)
  end.

End Scm.

(* ===================================================================== *)
(** ** The service facade ([AutograderService])                           *)
(* ===================================================================== *)

Module Facade.

(** [codes.Code], the codes the facade uses. *)
Inductive Code :=
| NotFound | PermissionDenied | InvalidArgument | AlreadyExists | Internal
| Unimplemented.

(** A Go [error]: either a gRPC status error ([status.Errorf]) or any other
    error, of which only the text matters. *)
Inductive error :=
| StatusError (c : Code) (msg : string)
| PlainError (text : string).

(** The [ok] result of [status.FromError(err)] for a non-nil [err]. *)
Definition status_FromError_ok (e : error) : bool :=
  match e with StatusError _ _ => true | PlainError _ => false end.

(** [err.Error()] for a plain error, the message of a status error. *)
Definition errorText (e : error) : string :=
  match e with StatusError _ m => m | PlainError t => t end.

Definition genericInternal : error :=
  StatusError Internal "server error; check server logs for details".

(** A facade method returns a reply and an error and may log errors on the
    server ([s.logger.Error]). *)
Record Outcome (A : Type) := mkOutcome {
  reply : option A;
  err : option error;
  logged : list error
}.
Arguments mkOutcome {A}.
Arguments reply {A}.
Arguments err {A}.
Arguments logged {A}.

Section Methods.

Variables (User Group Void Assignments Courses Course : Type).

(** [group.RemoveRemoteIDs()] *)
Variable RemoveRemoteIDs : Group -> Group.

(** [&pb.Void{}] *)
Variable void : Void.

(** [CreateGroup]; the arguments are the outcomes of [s.getCurrentUser(ctx)]
    and of [s.createGroup(in, usr)]. *)
Definition CreateGroup (getCurrentUser : error + User)
    (createGroup : User -> error + Group) : Outcome Group :=
  match getCurrentUser with
  | inl e =>
      mkOutcome None (Some (StatusError NotFound "failed to get current user"))
        [e]
  | inr usr =>
      match createGroup usr with
      | inl e =>
          let e' := if negb (status_FromError_ok e) then genericInternal
                    else e in
          mkOutcome None (Some e') [e]
      | inr group => mkOutcome (Some (RemoveRemoteIDs group)) None []
      end
  end.

(** [UpdateGroup], after [getUserAndSCM2] has succeeded; [isTeacher] is
    [s.isTeacher(usr.ID, in.GetCourseID())], [updateGroup] the outcome of
    [s.updateGroup(ctx, in, usr, scm)]. *)
Definition UpdateGroup (isTeacher : bool) (updateGroup : option error)
  : Outcome Void :=
  if negb isTeacher then
    mkOutcome None
      (Some (StatusError PermissionDenied "only teachers can update groups"))
      []
  else
    match updateGroup with
    | Some e =>
        let e' := if negb (status_FromError_ok e) then genericInternal
                  else e in
        mkOutcome (Some void) (Some e') [e]
    | None => mkOutcome (Some void) None []
    end.

(** [GetCourse]; the argument is the outcome of [s.getCourse(in.GetID())]. *)
Definition GetCourse (getCourse : error + Course) : Outcome Course :=
  match getCourse with
  | inl e => mkOutcome None (Some (StatusError NotFound "course not found")) [e]
  | inr course => mkOutcome (Some course) None []
  end.

(** [CreateEnrollment]: [return &pb.Void{}, CreateEnrollment(in, s.db)]. *)
Definition CreateEnrollment (createEnrollment : option error) : Outcome Void :=
  mkOutcome (Some void) createEnrollment [].

(** [GetAssignments]: [return ListAssignments(in, s.db)]. *)
Definition GetAssignments (listAssignments : option Assignments * option error)
  : Outcome Assignments :=
  mkOutcome (fst listAssignments) (snd listAssignments) [].

(** [GetCoursesWithEnrollment]:
    [return ListCoursesWithEnrollment(in, s.db)]. *)
Definition GetCoursesWithEnrollment
    (listCourses : option Courses * option error) : Outcome Courses :=
  mkOutcome (fst listCourses) (snd listCourses) [].

End Methods.

(** What the facade promises for a failure [e] of the component it
    delegates to: a failure that is not already a status error reaches the
    caller as the generic internal error. *)
Definition mapsToGenericInternal (e : error) (returned : option error) : Prop :=
  status_FromError_ok e = false -> returned = Some genericInternal.

End Facade.

(* ===================================================================== *)
(** ** Assignments, grading criteria and reviews ([web/assignments.go])   *)
(* ===================================================================== *)

Module Web.

Local Open Scope N_scope.

(** *** The protobuf messages, with the fields the code touches *)

Record GradingCriterion := mkCriterion {
  gc_ID : N;
  gc_BenchmarkID : N;
  gc_Description : string
}.

Record GradingBenchmark := mkBenchmark {
  gb_ID : N;
  gb_AssignmentID : N;
  gb_Heading : string;
  gb_Criteria : list GradingCriterion
}.

Record Review := mkReview {
  rv_ID : N;
  rv_SubmissionID : N;
  rv_Feedback : string;
  rv_Edited : string
}.

Record Submission := mkSubmission {
  sb_ID : N;
  sb_AssignmentID : N;
  sb_Reviews : list Review
}.

Record Assignment := mkAssignment {
  as_ID : N;
  as_CourseID : N;
  as_Name : string;
  as_Deadline : string;
  as_Reviewers : N;                       (* uint32 *)
  as_GradingBenchmarks : list GradingBenchmark
}.

Record Course := mkCourse {
  co_ID : N;
  co_OrganizationPath : string
}.

Record LoadCriteriaRequest := mkLoadCriteriaRequest {
  lc_CourseID : N;
  lc_AssignmentID : N
}.

(** [scm.FileOptions] *)
Record FileOptions := mkFileOptions {
  fo_Path : string;
  fo_Owner : string;
  fo_Repository : string
}.

Inductive error :=
| ErrRecordNotFound                      (* the storage finds no row *)
| ErrStorage                             (* any other storage failure *)
| ErrProvider (text : string)            (* an SCM provider error *)
| ErrJSON                                (* json.Unmarshal *)
| ErrFetch (text : string)               (* assignments.FetchAssignments *)
| ErrAllReviewsCreated (submission : N) (assignment : string) (reviewers : N).

(** The SCM client as the service sees it while the remote state is fixed. *)
Record SCM := mkSCM {
  GetFileContent : FileOptions -> error + string
}.

(** [var criteriaFile = "criteria.json"] *)
Definition criteriaFile : string := "criteria.json".

(** *** The storage layer *)

(** Modelled from the spec: the tables of [database.GormDB], whose code is
    not part of the sources.  Nested message fields ([GradingBenchmarks],
    [Criteria], [Reviews]) are not columns: rows keep them empty and reads
    fill them from the referencing table. *)
Record DB := mkDB {
  courses : list Course;
  assignments : list Assignment;
  benchmarks : list GradingBenchmark;
  criteria : list GradingCriterion;
  submissions : list Submission;
  reviews : list Review
}.

Definition set_assignments (d : DB) (x : list Assignment) : DB :=
  mkDB (courses d) x (benchmarks d) (criteria d) (submissions d) (reviews d).
Definition set_benchmarks (d : DB) (x : list GradingBenchmark) : DB :=
  mkDB (courses d) (assignments d) x (criteria d) (submissions d) (reviews d).
Definition set_criteria (d : DB) (x : list GradingCriterion) : DB :=
  mkDB (courses d) (assignments d) (benchmarks d) x (submissions d) (reviews d).
Definition set_reviews (d : DB) (x : list Review) : DB :=
  mkDB (courses d) (assignments d) (benchmarks d) (criteria d) (submissions d) x.

Definition benchmarkRow (b : GradingBenchmark) : GradingBenchmark :=
  mkBenchmark (gb_ID b) (gb_AssignmentID b) (gb_Heading b) [].

(** Modelled from the spec: a generated primary key, larger than every key
    of the table. *)
Definition freshID (ids : list N) : N := 1 + fold_right N.max 0 ids.

(** Modelled from the spec: reads by an example message match on its
    non-zero key fields and fill the nested fields. *)
Definition preloadBenchmark (d : DB) (b : GradingBenchmark) : GradingBenchmark :=
  mkBenchmark (gb_ID b) (gb_AssignmentID b) (gb_Heading b)
    (filter (fun c => gc_BenchmarkID c =? gb_ID b) (criteria d)).

Definition preloadAssignment (d : DB) (a : Assignment) : Assignment :=
  mkAssignment (as_ID a) (as_CourseID a) (as_Name a) (as_Deadline a)
    (as_Reviewers a)
    (map (preloadBenchmark d)
       (filter (fun b => gb_AssignmentID b =? as_ID a) (benchmarks d))).

Definition preloadSubmission (d : DB) (s : Submission) : Submission :=
  mkSubmission (sb_ID s) (sb_AssignmentID s)
    (filter (fun r => rv_SubmissionID r =? sb_ID s) (reviews d)).

Definition matchesAssignment (q r : Assignment) : bool :=
  ((as_ID q =? 0) || (as_ID q =? as_ID r))
  && ((as_CourseID q =? 0) || (as_CourseID q =? as_CourseID r)).

Definition matchesSubmission (q r : Submission) : bool :=
  ((sb_ID q =? 0) || (sb_ID q =? sb_ID r))
  && ((sb_AssignmentID q =? 0) || (sb_AssignmentID q =? sb_AssignmentID r)).

Definition lookupCourse (d : DB) (id : N) : option Course :=
  find (fun c => co_ID c =? id) (courses d).

Definition lookupAssignment (d : DB) (q : Assignment) : option Assignment :=
  option_map (preloadAssignment d) (find (matchesAssignment q) (assignments d)).

Definition lookupSubmission (d : DB) (q : Submission) : option Submission :=
  option_map (preloadSubmission d) (find (matchesSubmission q) (submissions d)).

Definition selectSubmissions (d : DB) (q : Submission) : list Submission :=
  map (preloadSubmission d) (filter (matchesSubmission q) (submissions d)).

Definition selectAssignmentsByCourse (d : DB) (courseID : N)
    (withGrading : bool) : list Assignment :=
  let rows := filter (fun a => as_CourseID a =? courseID) (assignments d) in
  if withGrading then map (preloadAssignment d) rows else rows.

(** Modelled from the spec: the upsert of one parsed assignment, "existing
    assignments matching by (CourseID, AssignmentID) are updated in place",
    "assignments present remotely but absent locally are inserted". *)
Definition sameKey (a r : Assignment) : bool :=
  (as_CourseID a =? as_CourseID r) && (as_ID a =? as_ID r).

Fixpoint upsert (a : Assignment) (rows : list Assignment) : list Assignment :=
  match rows with
  | [] => [a]
  | r :: rows' => if sameKey a r then a :: rows' else r :: upsert a rows'
  end.

Definition upsertAll (l rows : list Assignment) : list Assignment :=
  fold_left (fun acc a => upsert a acc) l rows.

(** The identity of a row of the assignments table. *)
Definition keyOf (a : Assignment) : N * N := (as_CourseID a, as_ID a).

Definition hasKey (a : Assignment) (rows : list Assignment) : bool :=
  existsb (sameKey a) rows.

(** [notIn ids id]: the key [id] is none of [ids]. *)
Definition notIn (ids : list N) (id : N) : bool :=
  negb (existsb (N.eqb id) ids).

(** *** The service's world: storage, standard output and the clock *)

(** What [removeOldCriteriaAndReviews] prints. *)
Inductive LogLine :=
| FailedToDeleteCriteria (c : GradingCriterion) (e : error)
| FailedToDeleteBenchmark (b : GradingBenchmark) (e : error).

(** [faults n] tells whether the [n]-th storage call of the process fails
    for a reason of the storage's own (connection lost, database locked);
    [tick] counts the storage calls made so far. *)
Record World := mkWorld {
  db : DB;
  tick : nat;
  faults : nat -> bool;
  stdout : list LogLine;
  clock : GoTime.Time
}.

(** No storage call ever fails. *)
Definition neverFails (w : World) : Prop := forall n, faults w n = false.

(** None of the next [k] storage calls fails. *)
Definition noFault (w : World) (k : nat) : Prop :=
  forall i, (i < k)%nat -> faults w (tick w + i) = false.

(** Computations of the service: a result or an error, and the world after
    them (nothing is rolled back on an error). *)
Definition M (A : Type) : Type := World -> (error + A) * World.

(** The outcome of a computation that succeeds, prints nothing and leaves
    the fault oracle alone. *)
Definition quietly {A} (m : M A) (w : World) : Prop :=
  exists a w', m w = (inr a, w') /\ stdout w' = stdout w
               /\ faults w' = faults w.

Definition ret {A} (a : A) : M A := fun w => (inr a, w).

Definition fail {A} (e : error) : M A := fun w => (inl e, w).

Definition bind {A B} (m : M A) (k : A -> M B) : M B :=
  fun w => match m w with
           | (inl e, w') => (inl e, w')
           | (inr a, w') => k a w'
           end.

Notation "x <- m ;; k" := (bind m (fun x => k))
  (at level 61, m at next level, right associativity).
Notation "m ;;; k" := (bind m (fun _ => k))
  (at level 61, right associativity).

Definition lift {A} (r : error + A) : M A :=
  fun w => (r, w).

(** One call into the storage layer. *)
Definition storage {A} (f : DB -> error + A * DB) : M A :=
  fun w =>
    let w' := mkWorld (db w) (S (tick w)) (faults w) (stdout w) (clock w) in
    if faults w (tick w) then (inl ErrStorage, w')
    else match f (db w) with
         | inl e => (inl e, w')
         | inr (a, d) =>
             (inr a, mkWorld d (S (tick w)) (faults w) (stdout w) (clock w))
         end.

(** [fmt.Printf] *)
Definition Printf (l : LogLine) : M unit :=
  fun w => (inr tt,
            mkWorld (db w) (tick w) (faults w) (stdout w ++ [l]) (clock w)).

(** [time.Now()] *)
Definition time_Now : M GoTime.Time := fun w => (inr (clock w), w).

(** [if err := m; err != nil { fmt.Printf(...) }] *)
Definition orPrint (m : M unit) (line : error -> LogLine) : M unit :=
  fun w => match m w with
           | (inl e, w') => Printf (line e) w'
           | (inr _, w') => (inr tt, w')
           end.

(** [for _, x := range l { body }], leaving the loop on the first error. *)
Fixpoint forEach {A} (l : list A) (body : A -> M unit) : M unit :=
  match l with
  | [] => ret tt
  | x :: l' => body x ;;; forEach l' body
  end.

(** The same loop when the body changes the element it visits. *)
Fixpoint forEachUpdate {A} (l : list A) (body : A -> M A) : M (list A) :=
  match l with
  | [] => ret []
  | x :: l' =>
      x' <- body x ;;
      l'' <- forEachUpdate l' body ;;
      ret (x' :: l'')
  end.

(** Modelled from the spec: the methods of [database.GormDB] the code
    calls. *)
Module GormDB.

Definition GetCourse (courseID : N) (withInfo : bool) : M Course :=
  storage (fun d => match lookupCourse d courseID with
                    | Some c => inr (c, d)
                    | None => inl ErrRecordNotFound
                    end).

Definition GetAssignment (query : Assignment) : M Assignment :=
  storage (fun d => match lookupAssignment d query with
                    | Some a => inr (a, d)
                    | None => inl ErrRecordNotFound
                    end).

Definition GetAssignmentsByCourse (courseID : N) (withGrading : bool)
  : M (list Assignment) :=
  storage (fun d => inr (selectAssignmentsByCourse d courseID withGrading, d)).

Definition UpdateAssignments (l : list Assignment) : M unit :=
  storage (fun d => inr (tt, set_assignments d (upsertAll l (assignments d)))).

Definition CreateBenchmark (bm : GradingBenchmark) : M GradingBenchmark :=
  storage (fun d =>
    let bm' := mkBenchmark (freshID (map gb_ID (benchmarks d)))
                 (gb_AssignmentID bm) (gb_Heading bm) (gb_Criteria bm) in
    inr (bm', set_benchmarks d (benchmarks d ++ [benchmarkRow bm']))).

Definition CreateCriterion (c : GradingCriterion) : M GradingCriterion :=
  storage (fun d =>
    let c' := mkCriterion (freshID (map gc_ID (criteria d)))
                (gc_BenchmarkID c) (gc_Description c) in
    inr (c', set_criteria d (criteria d ++ [c']))).

Definition DeleteCriterion (c : GradingCriterion) : M unit :=
  storage (fun d =>
    inr (tt, set_criteria d
               (filter (fun r => negb (gc_ID r =? gc_ID c)) (criteria d)))).

Definition DeleteBenchmark (bm : GradingBenchmark) : M unit :=
  storage (fun d =>
    inr (tt, set_benchmarks d
               (filter (fun r => negb (gb_ID r =? gb_ID bm)) (benchmarks d)))).

Definition GetSubmission (query : Submission) : M Submission :=
  storage (fun d => match lookupSubmission d query with
                    | Some s => inr (s, d)
                    | None => inl ErrRecordNotFound
                    end).

Definition GetSubmissions (query : Submission) : M (list Submission) :=
  storage (fun d => inr (selectSubmissions d query, d)).

Definition DeleteReview (query : Review) : M unit :=
  storage (fun d =>
    inr (tt, set_reviews d
               (filter (fun r => negb (rv_SubmissionID r =? rv_SubmissionID query))
                  (reviews d)))).

Definition CreateReview (query : Review) : M Review :=
  storage (fun d =>
    let r := mkReview (freshID (map rv_ID (reviews d)))
               (rv_SubmissionID query) (rv_Feedback query) (rv_Edited query) in
    inr (r, set_reviews d (reviews d ++ [r]))).

End GormDB.

(** *** The service methods *)

Section Service.

(** [assignments.FixDeadline], [assignments.FetchAssignments],
    [json.Unmarshal] into [[]*pb.GradingBenchmark], [filepath.Join] and
    [pb.TestsRepo]: not part of the sources. *)
Variable FixDeadline : string -> string.
Variable FetchAssignments : SCM -> Course -> error + list Assignment.
Variable json_Unmarshal : string -> option (list GradingBenchmark).
Variable filepath_Join : string -> string -> string.
Variable TestsRepo : string.

Definition setDeadline (a : Assignment) (deadline : string) : Assignment :=
  mkAssignment (as_ID a) (as_CourseID a) (as_Name a) deadline
    (as_Reviewers a) (as_GradingBenchmarks a).

(** [getAssignments]; the result is the [Assignments] field of the reply. *)
Definition getAssignments (courseID : N) : M (list Assignment) :=
  allAssignments <- GormDB.GetAssignmentsByCourse courseID true ;;
  ret (map (fun assignment =>
              setDeadline assignment (FixDeadline (as_Deadline assignment)))
         allAssignments).

Definition updateAssignments (sc : SCM) (courseID : N) : M unit :=
  course <- GormDB.GetCourse courseID false ;;
  assignments <- lift (FetchAssignments sc course) ;;
  GormDB.UpdateAssignments assignments.

Definition getAssignmentWithCourse (query : Assignment) (withCourseInfo : bool)
  : M (Assignment * Course) :=
  assignment <- GormDB.GetAssignment query ;;
  course <- GormDB.GetCourse (as_CourseID assignment) false ;;
  ret (assignment, course).

Definition removeOldCriteriaAndReviews (assignment : Assignment) : M unit :=
  forEach (as_GradingBenchmarks assignment) (fun bm =>
    forEach (gb_Criteria bm) (fun c =>
      orPrint (GormDB.DeleteCriterion c) (FailedToDeleteCriteria c)) ;;;
    orPrint (GormDB.DeleteBenchmark bm) (FailedToDeleteBenchmark bm)) ;;;
  submissions <- GormDB.GetSubmissions
                   (mkSubmission 0 (as_ID assignment) []) ;;
  forEach submissions (fun submission =>
    GormDB.DeleteReview (mkReview 0 (sb_ID submission) "" "")).

(** The body of the loop over the parsed benchmarks. *)
Definition createBenchmarkWithCriteria (assignment : Assignment)
    (bm : GradingBenchmark) : M GradingBenchmark :=
  bm' <- GormDB.CreateBenchmark
           (mkBenchmark (gb_ID bm) (as_ID assignment) (gb_Heading bm)
              (gb_Criteria bm)) ;;
  cs <- forEachUpdate (gb_Criteria bm') (fun c =>
          GormDB.CreateCriterion
            (mkCriterion (gc_ID c) (gb_ID bm') (gc_Description c))) ;;
  ret (mkBenchmark (gb_ID bm') (gb_AssignmentID bm') (gb_Heading bm') cs).

Definition loadCriteria (sc : SCM) (request : LoadCriteriaRequest)
  : M (list GradingBenchmark) :=
  let query :=
    mkAssignment (lc_AssignmentID request) (lc_CourseID request) "" "" 0 [] in
  ac <- getAssignmentWithCourse query false ;;
  let assignment := fst ac in
  let course := snd ac in
  let opts := {| fo_Path := filepath_Join (as_Name assignment) criteriaFile;
                 fo_Owner := co_OrganizationPath course;
                 fo_Repository := TestsRepo |} in
  criteriaString <- lift (GetFileContent sc opts) ;;
  benchmarks <- lift (match json_Unmarshal criteriaString with
                      | Some l => inr l
                      | None => inl ErrJSON
                      end) ;;
  (if (0 <? List.length (as_GradingBenchmarks assignment))%nat
   then removeOldCriteriaAndReviews assignment
   else ret tt) ;;;
  forEachUpdate benchmarks (createBenchmarkWithCriteria assignment).

Definition createReview (query : Review) : M Review :=
  submission <- GormDB.GetSubmission (mkSubmission (rv_SubmissionID query) 0 []) ;;
  assignment <- GormDB.GetAssignment
                  (mkAssignment (sb_AssignmentID submission) 0 "" "" 0 []) ;;
  if (Z.of_N (as_Reviewers assignment)
        <=? Z.of_nat (List.length (sb_Reviews submission)))%Z
  then fail (ErrAllReviewsCreated (sb_ID submission) (as_Name assignment)
               (as_Reviewers assignment))
  else
    t <- time_Now ;;
    let query' := mkReview (rv_ID query) (rv_SubmissionID query)
                    (rv_Feedback query) (GoTime.Format_02_Jan_15_04 t) in
    GormDB.CreateReview query'.

(** The keys of the rubric [GetAssignment] has loaded with an assignment,
    and of the submissions [GetSubmissions] finds for it. *)
Definition oldBenchmarkIDs (a : Assignment) : list N :=
  map gb_ID (as_GradingBenchmarks a).

Definition oldCriterionIDs (a : Assignment) : list N :=
  flat_map (fun bm => map gc_ID (gb_Criteria bm)) (as_GradingBenchmarks a).

Definition submissionIDs (d : DB) (a : Assignment) : list N :=
  map sb_ID (selectSubmissions d (mkSubmission 0 (as_ID a) [])).

(** The storage once the rubric of [a] and the reviews of its submissions
    have been deleted from [d]. *)
Definition withoutRubric (d : DB) (a : Assignment) : DB :=
  mkDB (courses d) (assignments d)
    (filter (fun r => notIn (oldBenchmarkIDs a) (gb_ID r)) (benchmarks d))
    (filter (fun r => notIn (oldCriterionIDs a) (gc_ID r)) (criteria d))
    (submissions d)
    (filter (fun r => notIn (submissionIDs d a) (rv_SubmissionID r))
       (reviews d)).

(** The storage once the benchmarks [result] and their criteria have been
    inserted into [d]. *)
Definition withRubric (d : DB) (result : list GradingBenchmark) : DB :=
  mkDB (courses d) (assignments d)
    (benchmarks d ++ map benchmarkRow result)
    (criteria d ++ flat_map gb_Criteria result)
    (submissions d) (reviews d).

(** The parsed benchmark [p] and the persisted benchmark [r] made from it
    for the assignment [assignmentID]: same heading and criteria, with the
    foreign keys set. *)
Definition persistedFrom (assignmentID : N) (p r : GradingBenchmark) : Prop :=
  gb_Heading r = gb_Heading p
  /\ gb_AssignmentID r = assignmentID
  /\ Forall2 (fun pc rc =>
        gc_Description rc = gc_Description pc
        /\ gc_BenchmarkID rc = gb_ID r)
       (gb_Criteria p) (gb_Criteria r).

End Service.

End Web.

(* ===================================================================== *)
(** ** The GitLab SCM client: directories and repositories                *)
(* ===================================================================== *)

Module ScmMore.

Import Scm.

(** [gitlab.Project], with the fields the client reads. *)
Record Project := mkProject {
  p_ID : Z;              (* int *)
  p_Path : string;
  p_WebURL : string;
  p_SSHURLToRepo : string;
  p_HTTPURLToRepo : string
}.

(** [gitlab.CreateProjectOptions]: the two fields the client sets. *)
Record CreateProjectOptions := mkCreateProjectOptions {
  cp_Path : option string;
  cp_NamespaceID : option Z   (* *int *)
}.

Record Repository := mkRepository {
  r_ID : N;              (* uint64 *)
  r_Path : string;
  r_WebURL : string;
  r_SSHURL : string;
  r_HTTPURL : string;
  r_DirectoryID : N      (* uint64 *)
}.

Record CreateRepositoryOptions := mkCreateRepositoryOptions {
  cr_Path : string;
  cr_Directory : Directory
}.

(** [int(x)] of a [uint64]: the same 64 bits read as a signed number. *)
Definition int_of_uint64 (x : N) : Z :=
  let z := (Z.of_N x mod 2 ^ 64)%Z in
  if (z <? 2 ^ 63)%Z then z else (z - 2 ^ 64)%Z.

Definition directoryOfGroup (group : Group) : Directory :=
  {| d_ID := uint64_of_int (g_ID group);
     d_Path := g_Path group;
     d_Avatar := g_AvatarURL group |}.

Definition repositoryOfProject (directoryID : N) (repo : Project)
  : Repository :=
  {| r_ID := uint64_of_int (p_ID repo);
     r_Path := p_Path repo;
     r_WebURL := p_WebURL repo;
     r_SSHURL := p_SSHURLToRepo repo;
     r_HTTPURL := p_HTTPURLToRepo repo;
     r_DirectoryID := directoryID |}.

Section Client.

Variables (remote provider_error : Type).

(** [s.client.Groups.ListGroups], [s.client.Projects.CreateProject] and
    [s.client.Groups.ListGroupProjects] (whose first argument is the
    group id). *)
Variable Groups_ListGroups : remote -> (provider_error + list Group) * remote.
Variable Projects_CreateProject :
  CreateProjectOptions -> remote -> (provider_error + Project) * remote.
Variable Groups_ListGroupProjects :
  N -> remote -> (provider_error + list Project) * remote.

(** The loop [for _, group := range groups { directories = append(...) }]
    from the nil slice. *)
Fixpoint appendDirectories (groups : list Group) (directories : list Directory)
  : list Directory :=
  match groups with
  | [] => directories
  | group :: rest =>
      appendDirectories rest (directories ++ [directoryOfGroup group])%list
  end.

Definition ListDirectories (r : remote)
  : (provider_error + list Directory) * remote :=
  match Groups_ListGroups r with
  | (inl err, r') => (inl err, r')
  | (inr groups, r') => (inr (appendDirectories groups []), r')
  end.

(** The request [CreateRepository] builds. *)
Definition createProjectRequest (opt : CreateRepositoryOptions)
  : CreateProjectOptions :=
  let directoryID := int_of_uint64 (d_ID (cr_Directory opt)) in
  {| cp_Path := Some (cr_Path opt); cp_NamespaceID := Some directoryID |}.

Definition CreateRepository (opt : CreateRepositoryOptions) (r : remote)
  : (provider_error + Repository) * remote :=
  match Projects_CreateProject (createProjectRequest opt) r with
  | (inl err, r') => (inl err, r')
  | (inr repo, r') =>
      (inr (repositoryOfProject (d_ID (cr_Directory opt)) repo), r')
  end.

Fixpoint appendRepositories (directoryID : N) (repos : list Project)
    (repositories : list Repository) : list Repository :=
  match repos with
  | [] => repositories
  | repo :: rest =>
      appendRepositories directoryID rest
        (repositories ++ [repositoryOfProject directoryID repo])%list
  end.

Definition GetRepositories (directory : Directory) (r : remote)
  : (provider_error + list Repository) * remote :=
  match Groups_ListGroupProjects (d_ID directory) r with
  | (inl err, r') => (inl err, r')
  | (inr repos, r') =>
      (inr (appendRepositories (d_ID directory) repos []), r')
  end.

(** A project-creating client that also records the requests it
    receives. *)
Definition recordingProjects (o : CreateProjectOptions)
    (r : remote * list CreateProjectOptions)
  : (provider_error + Project) * (remote * list CreateProjectOptions) :=
  let (res, r') := Projects_CreateProject o (fst r) in
  (res, (r', (snd r ++ [o])%list)).

End Client.

End ScmMore.

(* ===================================================================== *)
(** ** The service facade: the remaining methods                          *)
(* ===================================================================== *)

Module FacadeMore.

Import Facade.

(** The outcome of [NewCourse]: [err == ErrAlreadyExists] holds for the
    sentinel error only. *)
Inductive NewCourseOutcome (Course : Type) :=
| CourseCreated (course : Course)
| CourseAlreadyExists
| CourseFailed (e : error).
Arguments CourseCreated {Course}.
Arguments CourseAlreadyExists {Course}.
Arguments CourseFailed {Course}.

Section Methods.

Variables (User Users Group Groups Course Submissions URLResponse Provider
           Enrollments Repository Void SCM : Type).

(** [usr.RemoveRemoteID()], [usrs.RemoveRemoteIDs()],
    [group.RemoveRemoteIDs()], [groups.RemoveRemoteIDs()],
    [enrolls.RemoveRemoteIDs()]. *)
Variable RemoveRemoteID : User -> User.
Variable RemoveRemoteIDs_users : Users -> Users.
Variable RemoveRemoteIDs_group : Group -> Group.
Variable RemoveRemoteIDs_groups : Groups -> Groups.
Variable RemoveRemoteIDs_enrollments : Enrollments -> Enrollments.

(** [&pb.Void{}] and [ErrAlreadyExists.Error()]. *)
Variable void : Void.
Variable ErrAlreadyExists_text : string.

(** [fmt.Sprintf(format)] without operands, which is what
    [status.Errorf(c, format)] puts into the status. *)
Variable fmt_Sprintf : string -> string.

(** The shape shared by the methods that call one function of the service
    and hide its failure: [s.logger.Error(err)], then a status error with
    a fixed code and message. *)
Definition hiding {A B} (delegate : error + A) (c : Code) (msg : string)
    (k : A -> Outcome B) : Outcome B :=
  match delegate with
  | inl e => mkOutcome None (Some (StatusError c msg)) [e]
  | inr a => k a
  end.

Definition denied {B} (msg : string) : Outcome B :=
  mkOutcome None (Some (StatusError PermissionDenied msg)) [].

Definition GetRepositoryURL (getCurrentUser : error + User)
    (getRepositoryURL : User -> error + URLResponse) : Outcome URLResponse :=
  hiding getCurrentUser NotFound "failed to get current user" (fun currentUser =>
  hiding (getRepositoryURL currentUser) NotFound
    "failed to fetch repository URL" (fun repoURL =>
  mkOutcome (Some repoURL) None [])).

Definition GetUser (hasAccess : bool) (getUser : error + User)
  : Outcome User :=
  if negb hasAccess then denied "only admin can access another user"
  else hiding getUser NotFound "failed to get user" (fun usr =>
       mkOutcome (Some (RemoveRemoteID usr)) None []).

Definition GetUsers (isAdmin : bool) (getUsers : error + Users)
  : Outcome Users :=
  if negb isAdmin then denied "only admin can access other users"
  else hiding getUsers NotFound "failed to get users" (fun usrs =>
       mkOutcome (Some (RemoveRemoteIDs_users usrs)) None []).

Definition UpdateUser (hasAccess : bool) (updateUser : error + User)
  : Outcome User :=
  if negb hasAccess then denied "only admin can access another user"
  else hiding updateUser NotFound "failed to update current user" (fun usr =>
       mkOutcome (Some (RemoveRemoteID usr)) None []).

(** [CreateCourse]: [getUserAndSCM] is the outcome of
    [s.getUserAndSCM(ctx, in.Provider, true)], whose error is returned as
    it is; [newCourse usr scm] is the outcome of [NewCourse] for the
    request with [usr.GetID()] as its creator. *)
Definition CreateCourse (getUserAndSCM : error + User * SCM)
    (newCourse : User -> SCM -> NewCourseOutcome Course) : Outcome Course :=
  match getUserAndSCM with
  | inl e => mkOutcome None (Some e) []
  | inr (usr, scm) =>
      match newCourse usr scm with
      | CourseCreated course => mkOutcome (Some course) None []
      | CourseAlreadyExists =>
          mkOutcome None
            (Some (StatusError AlreadyExists
                     (fmt_Sprintf ErrAlreadyExists_text)))
            [PlainError ErrAlreadyExists_text]
      | CourseFailed e =>
          mkOutcome None
            (Some (StatusError InvalidArgument "failed to create course")) [e]
      end
  end.

(** [GetGroup]: [isTeacher usr group] is
    [s.isTeacher(usr.ID, group.GetCourseID())], [hasAccessG group] is
    [s.hasAccessG(ctx, group.GetUsers())]. *)
Definition GetGroup (getGroup : error + Group) (getCurrentUser : error + User)
    (isTeacher : User -> Group -> bool) (hasAccessG : Group -> bool)
  : Outcome Group :=
  hiding getGroup NotFound "failed to get group" (fun group =>
  hiding getCurrentUser NotFound "failed to get current user" (fun usr =>
  if negb (isTeacher usr group || hasAccessG group)
  then denied "only members, teachers or admin can access a group"
  else mkOutcome (Some (RemoveRemoteIDs_group group)) None [])).

Definition GetGroups (isAdmin : bool) (getGroups : error + Groups)
  : Outcome Groups :=
  if negb isAdmin then denied "only admin can access other groups"
  else hiding getGroups NotFound "failed to get groups" (fun groups =>
       mkOutcome (Some (RemoveRemoteIDs_groups groups)) None []).

Definition GetGroupByUserAndCourse (hasAccess : bool)
    (getGroupByUserAndCourse : error + Group) : Outcome Group :=
  if negb hasAccess then denied "only admin can access another group"
  else hiding getGroupByUserAndCourse NotFound
         "failed to get group for given user and course" (fun group =>
       mkOutcome (Some (RemoveRemoteIDs_group group)) None []).

(** [DeleteGroup]: [id] is [in.GetID()], a [uint64]. *)
Definition DeleteGroup (id : N) (deleteGroup : option error) : Outcome Void :=
  if (id <? 1)%N
  then mkOutcome None (Some (StatusError InvalidArgument "invalid payload")) []
  else mkOutcome (Some void) deleteGroup [].

Definition GetSubmissions (hasGroupAccess : bool)
    (getSubmissions : error + Submissions) : Outcome Submissions :=
  if negb hasGroupAccess
  then denied "only members, teachers or admin can access submissions"
  else hiding getSubmissions NotFound "no submissions found" (fun submissions =>
       mkOutcome (Some submissions) None []).

(** [GetEnrollmentsByCourse] *)
Definition GetEnrollmentsByCourse (getEnrollments : error + Enrollments)
  : Outcome Enrollments :=
  match getEnrollments with
  | inl e => mkOutcome None (Some e) []
  | inr enrolls => mkOutcome (Some (RemoveRemoteIDs_enrollments enrolls)) None []
  end.

(** [GetProviders]: the argument is [auth.GetProviders().GetProviders()];
    the logger is given the message itself. *)
Definition GetProviders (providers : list Provider)
  : Outcome (list Provider) :=
  if (List.length providers <? 1)%nat
  then mkOutcome None
         (Some (StatusError NotFound "found no enabled SCM providers"))
         [PlainError "found no enabled SCM providers"]
  else mkOutcome (Some providers) None [].

Definition GetRepository : Outcome Repository :=
  mkOutcome None (Some (StatusError Unimplemented "not implemented")) [].

End Methods.

(** An outcome that tells the caller nothing about the failure [e]: no
    reply, a status error, and [e] in the server's log only. *)
Definition hides {A} (e : error) (out : Outcome A) : Prop :=
  reply out = None /\ logged out = [e]
  /\ exists c msg, err out = Some (StatusError c msg).

(** A reply or an error, never both and never neither. *)
Definition replyXorError {A} (out : Outcome A) : Prop :=
  (reply out = None <-> err out <> None).

End FacadeMore.

(* ===================================================================== *)
(** ** Benchmarks and criteria ([web/assignments.go], continued)          *)
(* ===================================================================== *)

Module WebMore.

Import Web.

Local Open Scope N_scope.

(** [createBenchmark]: the assignment is looked up by its id before the
    benchmark is created. *)
Definition createBenchmark (query : GradingBenchmark) : M GradingBenchmark :=
  GormDB.GetAssignment
    (mkAssignment (gb_AssignmentID query) 0 "" "" 0 []) ;;;
  GormDB.CreateBenchmark query.

(** The reviewer cap as a property of the storage: no submission has more
    reviews than its assignment allows. *)
Definition withinCap (d : DB) : Prop :=
  forall id s a,
    lookupSubmission d (mkSubmission id 0 []) = Some s ->
    lookupAssignment d (mkAssignment (sb_AssignmentID s) 0 "" "" 0 [])
      = Some a ->
    N.of_nat (List.length (sb_Reviews s)) <= as_Reviewers a.

(** The second storage differs from the first in benchmarks and criteria
    at most, and holds no review the first did not hold. *)
Definition spares (d d' : DB) : Prop :=
  courses d' = courses d
  /\ assignments d' = assignments d
  /\ submissions d' = submissions d
  /\ incl (reviews d') (reviews d).

(** The second storage is the first without some rows of the rubric
    loaded with [a] and without some reviews of the submissions of [a]:
    nothing was added, and every other benchmark, criterion and review is
    still there. *)
Definition confined (a : Assignment) (d d' : DB) : Prop :=
  courses d' = courses d
  /\ assignments d' = assignments d
  /\ submissions d' = submissions d
  /\ incl (benchmarks d') (benchmarks d)
  /\ incl (criteria d') (criteria d)
  /\ incl (reviews d') (reviews d)
  /\ (forall b, In b (benchmarks d) ->
        ~ In (gb_ID b) (oldBenchmarkIDs a) -> In b (benchmarks d'))
  /\ (forall c, In c (criteria d) ->
        ~ In (gc_ID c) (oldCriterionIDs a) -> In c (criteria d'))
  /\ (forall r, In r (reviews d) ->
        ~ In (rv_SubmissionID r) (submissionIDs d a) -> In r (reviews d')).

(** The row [c] of the criteria, if it was there, is still there. *)
Definition retains (c : GradingCriterion) (d d' : DB) : Prop :=
  In c (criteria d) -> In c (criteria d').

(** Every run of [m] takes the storage to one related to it by [R]. *)
Definition keeps {A} (R : DB -> DB -> Prop) (m : M A) : Prop :=
  forall w, R (db w) (db (snd (m w))).

End WebMore.

(* ===================================================================== *)
(** ** The web client's gRPC manager (TypeScript)                          *)
(* ===================================================================== *)

Module GrpcManager.

Local Open Scope N_scope.

(** [User] of the generated [ag_pb], with the accessors the manager
    calls; [new User()] holds the defaults of the protocol buffer. *)
Record User := mkUser {
  u_Id : N;
  u_Avatarurl : string;
  u_Email : string;
  u_Name : string;
  u_Studentid : string;
  u_Isadmin : bool
}.

Definition new_User : User := mkUser 0 "" "" "" "" false.

Definition setId (u : User) (x : N) : User :=
  mkUser x (u_Avatarurl u) (u_Email u) (u_Name u) (u_Studentid u) (u_Isadmin u).
Definition setAvatarurl (u : User) (x : string) : User :=
  mkUser (u_Id u) x (u_Email u) (u_Name u) (u_Studentid u) (u_Isadmin u).
Definition setEmail (u : User) (x : string) : User :=
  mkUser (u_Id u) (u_Avatarurl u) x (u_Name u) (u_Studentid u) (u_Isadmin u).
Definition setName (u : User) (x : string) : User :=
  mkUser (u_Id u) (u_Avatarurl u) (u_Email u) x (u_Studentid u) (u_Isadmin u).
Definition setStudentid (u : User) (x : string) : User :=
  mkUser (u_Id u) (u_Avatarurl u) (u_Email u) (u_Name u) x (u_Isadmin u).
Definition setIsadmin (u : User) (x : bool) : User :=
  mkUser (u_Id u) (u_Avatarurl u) (u_Email u) (u_Name u) (u_Studentid u) x.

(** An optional boolean parameter ([isadmin?: boolean]) in a condition:
    [undefined] and [false] are falsy. *)
Definition truthy (b : option bool) : bool :=
  match b with
  | Some true => true
  | _ => false
  end.

(** The request [updateUser(user, isadmin)] sends. *)
Definition updateUser (user : User) (isadmin : option bool) : User :=
  let requrest := new_User in
  let requrest := setId requrest (u_Id user) in
  let requrest := setAvatarurl requrest (u_Avatarurl user) in
  let requrest := setEmail requrest (u_Email user) in
  let requrest := setName requrest (u_Name user) in
  let requrest := setStudentid requrest (u_Studentid user) in
  if truthy isadmin
  then match isadmin with
       | Some b => setIsadmin requrest b
       | None => requrest
       end
  else setIsadmin requrest (u_Isadmin user).

(** [Status] of [ag_pb] and [grpcWeb.Error]. *)
Record Status := mkStatus { st_Code : N; st_Error : string }.

Record Error := mkError { err_code : N; err_message : string }.

(** [grpcWeb.StatusCode.OK] *)
Definition StatusCode_OK : N := 0.

(** [IGrpcResponse<T>]: [data] is optional. *)
Record IGrpcResponse (T : Type) := mkResponse {
  status : Status;
  data : option T
}.

Arguments mkResponse {T}.
Arguments status {T}.
Arguments data {T}.

(** The promise [grpcSend] returns, and the console. *)
Inductive Promise (T : Type) :=
| Pending
| Fulfilled (value : T).

Arguments Pending {T}.
Arguments Fulfilled {T}.

Record Browser (T : Type) := mkBrowser {
  promise : Promise (IGrpcResponse T);
  console : list string
}.

Arguments mkBrowser {T}.
Arguments promise {T}.
Arguments console {T}.

(** [resolve(value)]: settles a pending promise, does nothing to a settled
    one. *)
Definition resolve {T} (value : IGrpcResponse T) (b : Browser T) : Browser T :=
  match promise b with
  | Pending => mkBrowser (Fulfilled value) (console b)
  | Fulfilled _ => b
  end.

Definition console_log {T} (line : string) (b : Browser T) : Browser T :=
  mkBrowser (promise b) (console b ++ [line]).

(** A method of the generated client: its name, and what the unary call
    hands to its callback for a request and its metadata (the callback is
    invoked once, with an error or with a response). *)
Record Method (Req T : Type) := mkMethod {
  m_name : string;
  m_call : Req -> list (string * string) -> option Error * option T
}.

Arguments mkMethod {Req T}.
Arguments m_name {Req T}.
Arguments m_call {Req T}.

Section Send.

(** [Number.prototype.toString] on the numbers that are non-negative
    integers: decimal digits below 10^21, exponent form from there on. *)
Variable Number_toString : N -> string.

Definition logErr {T} (resp : IGrpcResponse T) (methodName : string)
    (b : Browser T) : Browser T :=
  if negb (st_Code (status resp) =? 0)
  then console_log ("GRPC " ++ methodName ++ " failed with code "
                    ++ Number_toString (st_Code (status resp)) ++ ": "
                    ++ st_Error (status resp))%string b
  else b.

(** The callback [grpcSend] hands to the client method. *)
Definition callback {T} (methodName : string) (err : option Error)
    (response : option T) (b : Browser T) : Browser T :=
  match err with
  | Some err =>
      if negb (err_code err =? StatusCode_OK)
      then
        let code := mkStatus (err_code err) (err_message err) in
        let temp := mkResponse code None in
        resolve temp (logErr temp methodName b)
      else b
  | None =>
      let code := mkStatus 0 "OK" in
      let temp := mkResponse code response in
      resolve temp b
  end.

Definition metadata (currentUser : option User) : list (string * string) :=
  let userId := match currentUser with
                | Some u => Number_toString (u_Id u)
                | None => ""%string
                end in
  [("custom-header-1", "value1"); ("user", userId)]%string.

(** [grpcSend(method, request)], once [setUserMan] has been called: the
    promise and the console after the call has been answered;
    [currentUser] is [this.userMan.getCurrentUser()]. *)
Definition grpcSend {Req T} (method : Method Req T) (request : Req)
    (currentUser : option User) (log : list string) : Browser T :=
  let answer := m_call method request (metadata currentUser) in
  callback (m_name method) (fst answer) (snd answer) (mkBrowser Pending log).

End Send.

End GrpcManager.

(* ===================================================================== *)
(** ** Fixtures for the examples                                          *)
(* ===================================================================== *)

Module Fixtures.

Import Parser.

(** The descriptor of the end-to-end example, [lab1/assignment.yml]. *)
Definition lab1_yml : string :=
  "assignmentid: 1
name: Lab 1
language: go
deadline: 01-09-2024 23:59
autoapprove: true
IsGroupLab: false
".

Definition lab1_data : assignmentData :=
  mkAssignmentData 1 "Lab 1" "go" "01-09-2024 23:59" true false.

(** A descriptor whose assignment id needs more than 32 bits. *)
Definition lab2_yml : string :=
  "assignmentid: 4294967297
name: Lab 2
language: Java
deadline: 15-10-2024 12:00
autoapprove: false
IsGroupLab: true
".

Definition lab2_data : assignmentData :=
  mkAssignmentData 4294967297 "Lab 2" "Java" "15-10-2024 12:00" false true.

(** A descriptor with an ISO deadline, which the layout does not accept. *)
Definition lab3_yml : string :=
  "assignmentid: 3
name: Lab 3
language: go
deadline: 2024-11-01 23:59
autoapprove: false
IsGroupLab: false
".

Definition lab3_data : assignmentData :=
  mkAssignmentData 3 "Lab 3" "go" "2024-11-01 23:59" false false.

(** The value of [yaml.Unmarshal] on the three descriptors. *)
Definition yaml (source : string) : option assignmentData :=
  if (source =? lab1_yml)%string then Some lab1_data
  else if (source =? lab2_yml)%string then Some lab2_data
  else if (source =? lab3_yml)%string then Some lab3_data
  else None.

(** No descriptor of the fixtures has a byte outside ASCII. *)
Definition unicodeLower (s : string) : string := s.

Definition tests_lab1 : node :=
  Dir "tests" [ File "README.md" (Some "tests");
                Dir "lab1" [ File "assignment.yml" (Some lab1_yml) ] ].

Definition tests_lab2 : node :=
  Dir "tests" [ Dir "lab2" [ File "assignment.yml" (Some lab2_yml) ] ].

Definition tests_lab13 : node :=
  Dir "tests" [ Dir "lab1" [ File "assignment.yml" (Some lab1_yml) ];
                Dir "lab3" [ File "assignment.yml" (Some lab3_yml) ] ].

(** [tests_lab1] with a directory that cannot be listed, which holds the
    descriptor with the ISO deadline. *)
Definition tests_lab1_private : node :=
  Dir "tests" [ Dir "lab1" [ File "assignment.yml" (Some lab1_yml) ];
                DirUnreadable "private"
                  [ File "assignment.yml" (Some lab3_yml) ] ].

(** A file system with one checkout at a given path. *)
Definition checkout (path : string) (root : node) : FileSystem :=
  fun p => if (p =? path)%string then inr root else inl ErrNotExist.

End Fixtures.

Module WebFixtures.

Import Web.

Local Open Scope N_scope.

(** A course with two assignments.  Assignment 1 has one benchmark with one
    criterion, one submission and one review of it; assignment 2 has a
    rubric, a submission and a review of its own. *)
Definition lab1 : Assignment := mkAssignment 1 1 "lab1" "2024-09-01T23:59:00" 1 [].
Definition lab2 : Assignment := mkAssignment 2 1 "lab2" "1. Oct 2024" 2 [].

Definition store : DB := {|
  courses := [mkCourse 1 "dat320"];
  assignments := [lab1; lab2];
  benchmarks := [mkBenchmark 1 1 "Old design" []; mkBenchmark 2 2 "Other" []];
  criteria := [mkCriterion 1 1 "Old criterion"; mkCriterion 2 2 "Other"];
  submissions := [mkSubmission 1 1 []; mkSubmission 2 2 []];
  reviews := [mkReview 1 1 "fine" "01 Sep 10:00";
              mkReview 2 2 "keep" "02 Sep 10:00"]
|}.

Definition noon : GoTime.Time := GoTime.mkTime 2024 9 3 12 30 0.

(** A world whose storage never fails, and one in which the third and the
    fourth storage call fail. *)
Definition healthy : World := mkWorld store 0 (fun _ => false) [] noon.

Definition flaky : World :=
  mkWorld store 0 (fun n => Nat.eqb n 2 || Nat.eqb n 3) [] noon.

(** The tests repository: [lab1/criteria.json] of organisation dat320. *)
Definition criteria_json : string := "criteria.json of lab1, second revision".

Definition provider : SCM :=
  mkSCM (fun o =>
    if ((fo_Path o =? "lab1/criteria.json") && (fo_Owner o =? "dat320")
        && (fo_Repository o =? "tests"))%string
    then inr criteria_json
    else inl (ErrProvider "404 Not Found")).

(** The value of [json.Unmarshal] on that file. *)
Definition json (s : string) : option (list GradingBenchmark) :=
  if (s =? criteria_json)%string
  then Some [ mkBenchmark 0 0 "Design"
                [mkCriterion 0 0 "Uses interfaces"; mkCriterion 0 0 "Has tests"];
              mkBenchmark 0 0 "Style" [mkCriterion 0 0 "Formatted"] ]
  else None.

Definition join (dir file : string) : string := (dir ++ "/" ++ file)%string.

(** The remote descriptors, as [FetchAssignments] returns them: a new
    deadline for lab1 and a third assignment. *)
Definition fetch (sc : SCM) (c : Course) : error + list Assignment :=
  inr [ mkAssignment 1 (co_ID c) "lab1" "2024-09-08T23:59:00" 1 [];
        mkAssignment 3 (co_ID c) "lab3" "2024-10-01T23:59:00" 1 [] ].

Definition fixDeadline (s : string) : string :=
  if (s =? "1. Oct 2024")%string then "2024-10-01T00:00:00" else s.

Definition request : LoadCriteriaRequest := mkLoadCriteriaRequest 1 1.

(** Assignment 1 and submission 2 as the storage loads them. *)
Definition lab1_loaded : Assignment := preloadAssignment store lab1.
Definition lab2_loaded : Assignment := preloadAssignment store lab2.
Definition submission2_loaded : Submission :=
  preloadSubmission store (mkSubmission 2 2 []).

(** The rubric [loadCriteria] returns on the healthy world. *)
Definition imported : list GradingBenchmark :=
  [ mkBenchmark 3 1 "Design"
      [mkCriterion 3 3 "Uses interfaces"; mkCriterion 4 3 "Has tests"];
    mkBenchmark 4 1 "Style" [mkCriterion 5 4 "Formatted"] ].

End WebFixtures.

Module MoreFixtures.

Import Parser Fixtures.

(** A descriptor whose deadline lies in the year 0000. *)
Definition lab0_yml : string :=
  "assignmentid: 9
name: Lab 0
language: go
deadline: 24-12-0000 18:00
autoapprove: false
IsGroupLab: false
".

Definition lab0_data : assignmentData :=
  mkAssignmentData 9 "Lab 0" "go" "24-12-0000 18:00" false false.

(** The value of [yaml.Unmarshal] on the descriptors of the fixtures. *)
Definition yaml4 (source : string) : option assignmentData :=
  if (source =? lab0_yml)%string then Some lab0_data else yaml source.

(** The checkout of [tests_lab1] with more around the descriptor: a file
    of another name, a directory that cannot be listed, an empty
    directory and a directory named like a descriptor. *)
Definition tests_lab1_busy : node :=
  Dir "tests" [ DirUnreadable ".git" [ File "HEAD" None ];
                Dir "assignment.yml" [];
                Dir "lab1" [ File "assignment.yml" (Some lab1_yml);
                             File "main_test.go" None ];
                Dir "scripts" [] ].

End MoreFixtures.

Module MoreWebFixtures.

Import Web WebFixtures.

Local Open Scope N_scope.

(** The fixture store before assignment 1 got a rubric. *)
Definition unmarked_store : DB := {|
  courses := courses store;
  assignments := assignments store;
  benchmarks := [mkBenchmark 2 2 "Other" []];
  criteria := [mkCriterion 2 2 "Other"];
  submissions := submissions store;
  reviews := reviews store
|}.

Definition unmarked : World :=
  mkWorld unmarked_store 0 (fun _ => false) [] noon.

(** A provider that serves a page that is no JSON for every path. *)
Definition garbled : SCM := mkSCM (fun _ => inr "<html>404</html>").

End MoreWebFixtures.

Module GrpcFixtures.

(** The decimal digits of a number.  [Number.prototype.toString] prints
    them for the integers below 10^21, among them the status codes of
    gRPC; the examples use it for those only. *)
Definition decimal (n : N) : string :=
  DecimalString.NilZero.string_of_uint (N.to_uint n).

End GrpcFixtures.

(* ===================================================================== *)
(** ** Properties of Go's time functions                                  *)
(* ===================================================================== *)

Example Parse_spec_deadline :
  GoTime.Parse "01-09-2024 23:59" = Some (GoTime.mkTime 2024 9 1 23 59 0).
Proof. reflexivity. Qed.

Example Parse_iso_rejected : GoTime.Parse "2024-09-01 23:59" = None.
Proof. reflexivity. Qed.

Example Parse_feb_30_rejected : GoTime.Parse "30-02-2024 12:00" = None.
Proof. reflexivity. Qed.

Example Parse_feb_29_leap :
  GoTime.Parse "29-02-2024 12:00" = Some (GoTime.mkTime 2024 2 29 12 0 0).
Proof. reflexivity. Qed.

Example Parse_one_digit_hour :
  GoTime.Parse "01-09-2024 9:05" = Some (GoTime.mkTime 2024 9 1 9 5 0).
Proof. reflexivity. Qed.

Example Parse_trailing_seconds_rejected :
  GoTime.Parse "01-09-2024 23:59:00" = None.
Proof. reflexivity. Qed.

Example Unix_epoch : GoTime.Unix (GoTime.mkTime 1970 1 1 0 0 0) = 0%Z.
Proof. reflexivity. Qed.

Example Unix_spec_deadline :
  GoTime.Unix (GoTime.mkTime 2024 9 1 23 59 0) = 1725235140%Z.
Proof. reflexivity. Qed.

Example Format_example :
  GoTime.Format_02_Jan_15_04 (GoTime.mkTime 2021 3 7 9 5 0) = "07 Mar 09:05".
Proof. reflexivity. Qed.

Module GoTimeFacts.

Import GoTime.

Local Open Scope Z_scope.

Lemma digitVal_range c : isDigit c = true -> 0 <= digitVal c <= 9.
Proof.
  unfold isDigit, digitVal. intros H.
  apply andb_true_iff in H as [H1 H2].
  apply N.leb_le in H1. apply N.leb_le in H2. lia.
Qed.

Lemma getnum_range s fixed n rest :
  getnum s fixed = Some (n, rest) -> 0 <= n <= 99.
Proof.
  unfold getnum. destruct s as [| c0 s]; [discriminate |].
  destruct (isDigit c0) eqn:D0; [| discriminate].
  apply digitVal_range in D0.
  destruct s as [| c1 s].
  - destruct fixed; [discriminate |]. intros H. injection H as <- _. lia.
  - destruct (isDigit c1) eqn:D1.
    + apply digitVal_range in D1. intros H. injection H as <- _. lia.
    + destruct fixed; [discriminate |]. intros H. injection H as <- _. lia.
Qed.

Lemma getyear_range s y rest : getyear s = Some (y, rest) -> 0 <= y <= 9999.
Proof.
  unfold getyear.
  destruct s as [| a [| b [| c [| d s]]]]; try discriminate.
  destruct (isDigit a) eqn:Da; [| discriminate].
  destruct (isDigit b) eqn:Db; [| discriminate].
  destruct (isDigit c) eqn:Dc; [| discriminate].
  destruct (isDigit d) eqn:Dd; [| discriminate].
  simpl. apply digitVal_range in Da, Db, Dc, Dd.
  intros H. injection H as <- _. lia.
Qed.

(** A deadline that parses is a date of the calendar with a four-digit
    year and a time of day, on the minute. *)
Lemma Parse_range s t :
  Parse s = Some t ->
  0 <= year t <= 9999
  /\ 1 <= month t <= 12
  /\ 1 <= day t <= daysIn (month t) (year t)
  /\ 0 <= hour t < 24
  /\ 0 <= minute t < 60
  /\ second t = 0.
Proof.
  unfold Parse.
  destruct (getnum s true) as [[d v1] |] eqn:Hd; [| discriminate].
  destruct (skipChar "-" v1) as [v2 |]; [| discriminate].
  destruct (getnum v2 true) as [[mo v3] |] eqn:Hmo; [| discriminate].
  destruct ((mo <=? 0) || (12 <? mo)) eqn:Rmo; [discriminate |].
  destruct (skipChar "-" v3) as [v4 |]; [| discriminate].
  destruct (getyear v4) as [[y v5] |] eqn:Hy; [| discriminate].
  destruct (skipSpace v5) as [v6 |]; [| discriminate].
  destruct (getnum v6 false) as [[h v7] |] eqn:Hh; [| discriminate].
  destruct ((h <? 0) || (24 <=? h)) eqn:Rh; [discriminate |].
  destruct (skipChar ":" v7) as [v8 |]; [| discriminate].
  destruct (getnum v8 true) as [[mi v9] |] eqn:Hmi; [| discriminate].
  destruct ((mi <? 0) || (60 <=? mi)) eqn:Rmi; [discriminate |].
  destruct v9; [| discriminate].
  destruct ((d <? 1) || (daysIn mo y <? d)) eqn:Rd; [discriminate |].
  intros H. injection H as <-. simpl.
  apply getyear_range in Hy.
  apply orb_false_iff in Rmo as [R1 R2], Rh as [R3 R4], Rmi as [R5 R6],
    Rd as [R7 R8].
  lia.
Qed.

Lemma daysIn_le m y : daysIn m y <= 31.
Proof.
  unfold daysIn. destruct ((m =? 2) && isLeap y); [lia |].
  destruct m as [| p | p]; try lia.
  do 4 (destruct p as [p | p |]; try lia).
Qed.

Lemma doe_range yoe :
  0 <= yoe <= 399 ->
  0 <= yoe * 365 + yoe / 4 - yoe / 100 <= 145731
  /\ yoe * 365 + yoe / 4 - yoe / 100 <= 366 * yoe
  /\ 365 * yoe <= yoe * 365 + yoe / 4 - yoe / 100.
Proof. intros. Z.to_euclidean_division_equations. lia. Qed.

Lemma doy_range mp :
  0 <= mp <= 11 ->
  0 <= (153 * mp + 2) / 5 <= 337
  /\ (mp <= 9 -> (153 * mp + 2) / 5 <= 275)
  /\ (10 <= mp -> 306 <= (153 * mp + 2) / 5).
Proof. intros. Z.to_euclidean_division_equations. lia. Qed.

Lemma era_split y :
  0 <= y <= 9999 -> 0 <= y / 400 <= 24 /\ 0 <= y - y / 400 * 400 <= 399.
Proof. intros. Z.to_euclidean_division_equations. lia. Qed.

(** The days of the years 0001 to 9999 lie between 0001-01-01 and
    9999-12-31. *)
Lemma daysFromCivil_range y m d :
  1 <= y <= 9999 -> 1 <= m <= 12 -> 1 <= d <= 31 ->
  -719162 <= daysFromCivil y m d <= 2932896.
Proof.
  intros Hy Hm Hd. unfold daysFromCivil.
  destruct (Z.ltb_spec 2 m) as [Hlt | Hge];
    destruct (Z.leb_spec m 2) as [Hle | Hgt]; try lia.
  - pose proof (era_split y ltac:(lia)) as [Hera Hyoe].
    pose proof (doe_range _ Hyoe) as (Hd1 & Hd2 & Hd3).
    pose proof (doy_range (m - 3) ltac:(lia)) as (Hm0 & Hm1 & Hm2).
    specialize (Hm1 ltac:(lia)).
    set (era := y / 400) in *. set (yoe := y - era * 400) in *.
    set (doe := yoe * 365 + yoe / 4 - yoe / 100) in *.
    set (doy := (153 * (m - 3) + 2) / 5) in *.
    assert (y = era * 400 + yoe) by (subst yoe; lia).
    clearbody doy doe yoe era. lia.
  - pose proof (era_split (y - 1) ltac:(lia)) as [Hera Hyoe].
    pose proof (doe_range _ Hyoe) as (Hd1 & Hd2 & Hd3).
    pose proof (doy_range (m + 9) ltac:(lia)) as (Hm0 & Hm1 & Hm2).
    specialize (Hm2 ltac:(lia)).
    set (era := (y - 1) / 400) in *. set (yoe := y - 1 - era * 400) in *.
    set (doe := yoe * 365 + yoe / 4 - yoe / 100) in *.
    set (doy := (153 * (m + 9) + 2) / 5) in *.
    assert (y - 1 = era * 400 + yoe) by (subst yoe; lia).
    clearbody doy doe yoe era. lia.
Qed.

(** The days of the year 0000 come before 0001-01-01. *)
Lemma daysFromCivil_year0 m d :
  1 <= m <= 12 -> 1 <= d <= 31 -> daysFromCivil 0 m d < -719162.
Proof.
  intros Hm Hd. unfold daysFromCivil.
  destruct (Z.ltb_spec 2 m) as [Hlt | Hge];
    destruct (Z.leb_spec m 2) as [Hle | Hgt]; try lia.
  - change (0 / 400) with 0. Z.to_euclidean_division_equations. lia.
  - change ((0 - 1) / 400) with (-1). Z.to_euclidean_division_equations. lia.
Qed.

(** The layout ["02 Jan 15:04"] spelled out for a time of the calendar:
    two digits for the day, the month's three letters, and two digits
    each for the hour and the minute. *)
Lemma Format_02_Jan_15_04_spelled (t : GoTime.Time) :
  (1 <= GoTime.month t <= 12)%Z -> (1 <= GoTime.day t <= 31)%Z ->
  (0 <= GoTime.hour t <= 23)%Z -> (0 <= GoTime.minute t <= 59)%Z ->
  let two := fun n : Z =>
    String (ascii_of_N (48 + Z.to_N (n / 10)))
      (String (ascii_of_N (48 + Z.to_N (n mod 10))) EmptyString) in
  let months := ["Jan"; "Feb"; "Mar"; "Apr"; "May"; "Jun";
                 "Jul"; "Aug"; "Sep"; "Oct"; "Nov"; "Dec"] in
  GoTime.Format_02_Jan_15_04 t
  = (two (GoTime.day t) ++ " "
     ++ nth (Z.to_nat (GoTime.month t - 1)) months "" ++ " "
     ++ two (GoTime.hour t) ++ ":" ++ two (GoTime.minute t))%string.
Proof.
  intros Hm Hd Hh Hmi two months.
  assert (forall n : Z, (0 <= n <= 99)%Z -> GoTime.twoDigits n = two n) as Htwo.
  { intros n Hn. unfold GoTime.twoDigits, GoTime.digitChar, two.
    assert (0 <= n / 10 < 10)%Z as Hq
      by (Z.to_euclidean_division_equations; lia).
    assert (0 <= n mod 10 < 10)%Z as Hr
      by (Z.to_euclidean_division_equations; lia).
    rewrite (Z.mod_small (n / 10) 10) by exact Hq.
    rewrite !Z2N.inj_add by lia. reflexivity. }
  unfold GoTime.Format_02_Jan_15_04.
  rewrite !Htwo by lia. f_equal. f_equal. f_equal.
  assert (GoTime.month t = 1 \/ GoTime.month t = 2 \/ GoTime.month t = 3
          \/ GoTime.month t = 4 \/ GoTime.month t = 5 \/ GoTime.month t = 6
          \/ GoTime.month t = 7 \/ GoTime.month t = 8 \/ GoTime.month t = 9
          \/ GoTime.month t = 10 \/ GoTime.month t = 11
          \/ GoTime.month t = 12)%Z as Hcases by lia.
  repeat (destruct Hcases as [-> | Hcases]; [reflexivity |]).
  rewrite Hcases. reflexivity.
Qed.

End GoTimeFacts.

(* ===================================================================== *)
(** ** Properties of [ParseAssignments]                                   *)
(* ===================================================================== *)

Module ParserFacts.

Import Parser.

(** Induction on a tree, with the hypothesis for every entry of a
    directory. *)
Lemma node_forall_ind (P : node -> Prop) :
  (forall name content, P (File name content)) ->
  (forall name entries, Forall P entries -> P (Dir name entries)) ->
  (forall name entries, P (DirUnreadable name entries)) ->
  forall n, P n.
Proof.
  intros HF HD HU. fix IH 1.
  intros [name content | name entries | name entries].
  - apply HF.
  - apply HD. induction entries as [| e es IHes]; constructor.
    + apply IH.
    + exact IHes.
  - apply HU.
Qed.

(** What the walk reaches, the tree contains. *)
Lemma reaches_contains root n : reaches root n -> contains root n.
Proof.
  induction 1 as [n | name entries e n He _ IH].
  - apply contains_self.
  - eapply contains_entry; eassumption.
Qed.


(** A parsed deadline fits a protobuf timestamp unless its year is 0000. *)
Lemma TimestampProto_parsed s t :
  GoTime.Parse s = Some t ->
  TimestampProto t
  = if (GoTime.year t =? 0)%Z then None
    else Some (mkTimestamp (GoTime.Unix t) 0).
Proof.
  intros H. apply GoTimeFacts.Parse_range in H
    as (Hy & Hm & Hd & Hh & Hmi & Hs).
  pose proof (GoTimeFacts.daysIn_le (GoTime.month t) (GoTime.year t)) as Hle.
  unfold TimestampProto, minValidSeconds, maxValidSeconds, GoTime.Unix. simpl.
  rewrite Hs. destruct (Z.eqb_spec (GoTime.year t) 0) as [E | E].
  - rewrite E.
    pose proof (GoTimeFacts.daysFromCivil_year0 (GoTime.month t) (GoTime.day t)
                  Hm ltac:(lia)) as H0.
    destruct (Z.ltb_spec
                (GoTime.daysFromCivil 0 (GoTime.month t) (GoTime.day t) * 86400
                 + GoTime.hour t * 3600 + GoTime.minute t * 60 + 0)
                (-62135596800)) as [_ | Hge]; [reflexivity | lia].
  - pose proof (GoTimeFacts.daysFromCivil_range (GoTime.year t)
                  (GoTime.month t) (GoTime.day t) ltac:(lia) Hm ltac:(lia))
      as [H1 H2].
    destruct (Z.ltb_spec
                (GoTime.daysFromCivil (GoTime.year t) (GoTime.month t)
                   (GoTime.day t) * 86400
                 + GoTime.hour t * 3600 + GoTime.minute t * 60 + 0)
                (-62135596800)) as [Hlt | _]; [lia |].
    destruct (Z.leb_spec 253402300800
                (GoTime.daysFromCivil (GoTime.year t) (GoTime.month t)
                   (GoTime.day t) * 86400
                 + GoTime.hour t * 3600 + GoTime.minute t * 60 + 0))
      as [Hle' | _]; [lia | reflexivity].
Qed.

Example TimestampProto_year0 :
  GoTime.Parse "01-01-0000 00:00" = Some (GoTime.mkTime 0 1 1 0 0 0)
  /\ TimestampProto (GoTime.mkTime 0 1 1 0 0 0) = None.
Proof. split; reflexivity. Qed.

Section Facts.

Variable yaml_Unmarshal : string -> option assignmentData.
Variable unicode_ToLower : string -> string.

Abbreviation walkFn := (walkFn yaml_Unmarshal unicode_ToLower).
Abbreviation walk := (walk yaml_Unmarshal unicode_ToLower).
Abbreviation parseDescriptor := (parseDescriptor yaml_Unmarshal unicode_ToLower).
Abbreviation collect := (collect yaml_Unmarshal unicode_ToLower).
Abbreviation ParseAssignments := (ParseAssignments yaml_Unmarshal unicode_ToLower).
Abbreviation validDescriptor := (validDescriptor yaml_Unmarshal).
Abbreviation ToLower := (ToLower unicode_ToLower).

(** The function literal appends the assignment of a descriptor file and
    leaves every other file and every directory alone. *)
Lemma walkFn_descriptor courseID content acc :
  walkFn courseID target false content acc
  = match parseDescriptor courseID content with
    | inl e => inl e
    | inr a => inr (acc ++ [a])%list
    end.
Proof.
  unfold Parser.parseDescriptor, Parser.walkFn. simpl.
  destruct content as [source |]; [| reflexivity].
  destruct (yaml_Unmarshal source) as [d |]; [| reflexivity].
  destruct (GoTime.Parse (Deadline d)) as [t |]; [| reflexivity].
  destruct (TimestampProto t) as [ts |]; reflexivity.
Qed.

Lemma walkFn_other_file courseID name content acc :
  (name =? target)%string = false ->
  walkFn courseID name false content acc = inr acc.
Proof. intros H. unfold Parser.walkFn. simpl. rewrite H. reflexivity. Qed.

Lemma walkFn_dir courseID name content acc :
  walkFn courseID name true content acc = inr acc.
Proof. reflexivity. Qed.

Lemma collect_app courseID l1 l2 acc :
  collect courseID (l1 ++ l2) acc
  = match collect courseID l1 acc with
    | inl e => inl e
    | inr acc' => collect courseID l2 acc'
    end.
Proof.
  revert acc. induction l1 as [| c l1 IH]; intros acc; simpl.
  - reflexivity.
  - destruct (parseDescriptor courseID c) as [e | a]; [reflexivity | apply IH].
Qed.

(** The walk collects the descriptor files of the tree, in order. *)
Lemma walk_collect courseID n :
  forall acc, walk courseID n acc = collect courseID (descriptors n) acc.
Proof.
  induction n as [name content | name entries IH | name entries]
    using node_forall_ind; intros acc.
  - simpl. destruct (name =? target)%string eqn:E.
    + apply String.eqb_eq in E. subst name. simpl.
      rewrite walkFn_descriptor.
      destruct (parseDescriptor courseID content); reflexivity.
    + simpl. apply walkFn_other_file. exact E.
  - simpl. revert acc.
    induction IH as [| e es He Hes IHes]; intros acc; simpl.
    + reflexivity.
    + rewrite He, collect_app.
      destruct (collect courseID (descriptors e) acc) as [err | acc'].
      * reflexivity.
      * apply IHes.
  - reflexivity.
Qed.

(** A descriptor file is valid exactly when the function literal yields an
    assignment for it. *)
Lemma validDescriptor_parse courseID c :
  validDescriptor c <-> exists a, parseDescriptor courseID c = inr a.
Proof.
  unfold Parser.validDescriptor, Parser.parseDescriptor, Parser.walkFn.
  simpl. split.
  - intros (source & d & t & ts & -> & Hy & Ht & Hts).
    rewrite Hy, Ht, Hts. simpl. eauto.
  - intros [a H]. destruct c as [source |]; [| discriminate].
    destruct (yaml_Unmarshal source) as [d |] eqn:Hy; [| discriminate].
    destruct (GoTime.Parse (Deadline d)) as [t |] eqn:Ht; [| discriminate].
    destruct (TimestampProto t) as [ts |] eqn:Hts; [| discriminate].
    exists source, d, t, ts. auto.
Qed.

(** The fields of the assignment made from a valid descriptor. *)
Lemma parseDescriptor_fields courseID source d a :
  yaml_Unmarshal source = Some d ->
  parseDescriptor courseID (Some source) = inr a ->
  exists t,
    GoTime.Parse (Deadline d) = Some t
    /\ TimestampProto t = Some (pb_Deadline a)
    /\ pb_ID a = uint64 (AssignmentID d)
    /\ pb_Course_ID a = courseID
    /\ pb_Language a = ToLower (Language d)
    /\ pb_Name a = Name d
    /\ pb_Order a = uint32 (AssignmentID d)
    /\ pb_AutoApprove a = AutoApprove d
    /\ pb_IsGroupLab a = IsGroupLab d.
Proof.
  intros Hy. unfold Parser.parseDescriptor, Parser.walkFn. simpl. rewrite Hy.
  destruct (GoTime.Parse (Deadline d)) as [t |]; [| discriminate].
  destruct (TimestampProto t) as [ts |] eqn:Hts; [| discriminate].
  simpl. intros H. injection H as <-. exists t. simpl.
  split; [reflexivity |]. split; [exact Hts |].
  repeat (split; [reflexivity |]). reflexivity.
Qed.

(** The successful runs of [collect]. *)
Lemma collect_ok courseID l :
  forall acc r,
    collect courseID l acc = inr r ->
    exists l',
      r = (acc ++ l')%list
      /\ Forall2 (fun c a => parseDescriptor courseID c = inr a) l l'.
Proof.
  induction l as [| c l IH]; intros acc r; simpl.
  - intros H. injection H as <-. exists []. rewrite app_nil_r. auto.
  - destruct (parseDescriptor courseID c) as [e | a] eqn:E; [discriminate |].
    intros H. apply IH in H as (l' & -> & HF).
    exists (a :: l'). rewrite <- app_assoc. simpl. auto.
Qed.

Lemma collect_valid courseID l :
  Forall validDescriptor l ->
  forall acc, exists r, collect courseID l acc = inr r.
Proof.
  induction 1 as [| c l Hc _ IH]; intros acc; simpl.
  - eauto.
  - apply (validDescriptor_parse courseID) in Hc as [a ->]. apply IH.
Qed.


Lemma mapBytes_lower_no_upper s :
  forallb (fun c => negb (isUpperByte c))
    (list_ascii_of_string (mapBytes lowerByte s)) = true.
Proof.
  induction s as [| c s IH]; simpl; [reflexivity |].
  rewrite IH, andb_true_r. unfold lowerByte.
  destruct (isUpperByte c) eqn:E.
  - unfold isUpperByte in *. apply andb_true_iff in E as [E1 E2].
    apply N.leb_le in E1. apply N.leb_le in E2.
    rewrite N_ascii_embedding by lia.
    apply negb_true_iff, andb_false_iff. right. apply N.leb_gt. lia.
  - rewrite E. reflexivity.
Qed.

(** [ParseAssignments] below a root that [os.Stat] finds: the descriptor
    files of the walk are collected, and the first error drops them. *)
Lemma ParseAssignments_found fs dir courseID root :
  fs dir = inr root ->
  ParseAssignments fs dir courseID
  = match collect courseID (descriptors root) [] with
    | inl e => Returns ([], Some e)
    | inr l => Returns (l, None)
    end.
Proof.
  intros Hroot. unfold Parser.ParseAssignments, Parser.Walk.
  rewrite Hroot, walk_collect. reflexivity.
Qed.


(** C4 (amended).  For an existing tree whose descriptor files are all
    valid, [ParseAssignments] succeeds with one assignment per descriptor
    file, in the order of the walk; the [Order] of each is the descriptor's
    assignment id reduced modulo 2^32 (the id itself when it is below
    2^32), and its [Language] is [strings.ToLower] of the descriptor's
    language, which for an ASCII language has no upper-case letter. *)
Theorem ParseAssignments_valid_tree fs dir courseID root :
  fs dir = inr root ->
  Forall validDescriptor (descriptors root) ->
  exists l,
    ParseAssignments fs dir courseID = Returns (l, None)
    /\ List.length l = List.length (descriptors root)
    /\ Forall2 (fun c a =>
         exists source d,
           c = Some source /\ yaml_Unmarshal source = Some d
           /\ pb_Order a = (AssignmentID d mod 2 ^ 32)%N
           /\ ((AssignmentID d < 2 ^ 32)%N -> pb_Order a = AssignmentID d)
           /\ pb_Language a = ToLower (Language d)
           /\ (isASCII (Language d) = true ->
               forallb (fun b => negb (isUpperByte b))
                 (list_ascii_of_string (pb_Language a)) = true))
         (descriptors root) l.
Proof.
  intros Hroot Hvalid. rewrite (ParseAssignments_found _ _ _ _ Hroot).
  destruct (collect_valid courseID _ Hvalid []) as [r Hr]. rewrite Hr.
  apply collect_ok in Hr as (l & -> & HF). simpl.
  exists l. split; [reflexivity |]. split.
  - symmetry. eapply Forall2_length. exact HF.
  - clear Hroot. induction HF as [| c a cs l' Hca HF IH]; constructor.
    + apply Forall_inv in Hvalid.
      destruct Hvalid as (source & d & t & ts & -> & Hy & _).
      destruct (parseDescriptor_fields _ _ _ _ Hy Hca)
        as (_ & _ & _ & _ & _ & HL & _ & HO & _).
      exists source, d. repeat split; try assumption.
      * intros Hlt. rewrite HO. unfold uint32. apply N.mod_small. exact Hlt.
      * intros Hascii. rewrite HL. unfold Parser.ToLower. rewrite Hascii.
        apply mapBytes_lower_no_upper.
    + apply IH. eapply Forall_inv_tail. exact Hvalid.
Qed.

(** C5.  A tree whose only descriptor file decodes to assignment id 1, name
    "Lab 1", language "go", deadline "01-09-2024 23:59", auto-approve set
    and group lab unset yields exactly one assignment with those values,
    [Order] 1 and the timestamp of 2024-09-01T23:59:00 UTC, which is
    1725235140 seconds after the epoch, with no nanoseconds. *)
Theorem ParseAssignments_lab1 fs dir courseID root source :
  fs dir = inr root ->
  descriptors root = [Some source] ->
  yaml_Unmarshal source
    = Some (mkAssignmentData 1 "Lab 1" "go" "01-09-2024 23:59" true false) ->
  ParseAssignments fs dir courseID
  = Returns ([ {| pb_ID := 1;
                  pb_Course_ID := courseID;
                  pb_Deadline := mkTimestamp 1725235140 0;
                  pb_Language := "go";
                  pb_Name := "Lab 1";
                  pb_Order := 1;
                  pb_AutoApprove := true;
                  pb_IsGroupLab := false |} ], None).
Proof.
  intros Hroot Hd Hy.
  rewrite (ParseAssignments_found _ _ _ _ Hroot), Hd. simpl.
  unfold Parser.parseDescriptor, Parser.walkFn. simpl. rewrite Hy.
  reflexivity.
Qed.


End Facts.

Import Fixtures.




Lemma lab12_valid :
  validDescriptor yaml (Some lab1_yml) /\ validDescriptor yaml (Some lab2_yml).
Proof.
  split.
  - exists lab1_yml, lab1_data. do 2 eexists.
    repeat split; reflexivity.
  - exists lab2_yml, lab2_data. do 2 eexists.
    repeat split; reflexivity.
Qed.

Lemma ParseAssignments_valid_tree_witness :
  exists l,
    ParseAssignments yaml unicodeLower (checkout "tests" tests_lab2)
      "tests" 7 = Returns (l, None)
    /\ List.length l = List.length (descriptors tests_lab2)
    /\ Forall2 (fun c a =>
         exists source d,
           c = Some source /\ yaml source = Some d
           /\ pb_Order a = (AssignmentID d mod 2 ^ 32)%N
           /\ ((AssignmentID d < 2 ^ 32)%N -> pb_Order a = AssignmentID d)
           /\ pb_Language a = ToLower unicodeLower (Language d)
           /\ (isASCII (Language d) = true ->
               forallb (fun b => negb (isUpperByte b))
                 (list_ascii_of_string (pb_Language a)) = true))
         (descriptors tests_lab2) l.
Proof.
  apply (ParseAssignments_valid_tree yaml unicodeLower
           (checkout "tests" tests_lab2) "tests" 7 tests_lab2).
  - reflexivity.
  - simpl. constructor; [apply lab12_valid | constructor].
Defined.

(** C4 as stated fails: the descriptor [lab2_yml] is valid and has
    assignment id 4294967297, and the one assignment [ParseAssignments]
    returns for it has [Order] 1. *)
Lemma ParseAssignments_order_truncated :
  Forall (validDescriptor yaml) (descriptors tests_lab2)
  /\ yaml lab2_yml = Some lab2_data
  /\ AssignmentID lab2_data = 4294967297%N
  /\ ParseAssignments yaml unicodeLower (checkout "tests" tests_lab2)
       "tests" 7
     = Returns ([ {| pb_ID := 4294967297;
                     pb_Course_ID := 7;
                     pb_Deadline := mkTimestamp 1728993600 0;
                     pb_Language := "java";
                     pb_Name := "Lab 2";
                     pb_Order := 1;
                     pb_AutoApprove := false;
                     pb_IsGroupLab := true |} ], None)
  /\ ~ (forall l e a,
          ParseAssignments yaml unicodeLower
            (checkout "tests" tests_lab2) "tests" 7 = Returns (l, e) ->
          In a l -> pb_Order a = AssignmentID lab2_data).
Proof.
  split; [simpl; constructor; [apply lab12_valid | constructor] |].
  split; [reflexivity |]. split; [reflexivity |]. split; [reflexivity |].
  intros H. specialize (H _ _ _ eq_refl (or_introl eq_refl)). discriminate H.
Qed.

Lemma ParseAssignments_lab1_witness :
  ParseAssignments yaml unicodeLower (checkout "tests" tests_lab1) "tests" 7
  = Returns ([ {| pb_ID := 1;
                  pb_Course_ID := 7;
                  pb_Deadline := mkTimestamp 1725235140 0;
                  pb_Language := "go";
                  pb_Name := "Lab 1";
                  pb_Order := 1;
                  pb_AutoApprove := true;
                  pb_IsGroupLab := false |} ], None).
Proof.
  apply (ParseAssignments_lab1 yaml unicodeLower
           (checkout "tests" tests_lab1) "tests" 7 tests_lab1 lab1_yml).
  - reflexivity.
  - reflexivity.
  - reflexivity.
Defined.


(** The second descriptor of [tests_lab13] is the malformed one: the first
    is parsed before the walk stops, and is not returned. *)
Example ParseAssignments_no_partial_result :
  ParseAssignments yaml unicodeLower (checkout "tests" tests_lab13) "tests" 7
  = Returns ([], Some ErrTimeParse).
Proof. reflexivity. Qed.

(** A directory that cannot be listed is passed over without an error. *)
Example ParseAssignments_skips_unlistable_directory :
  ParseAssignments yaml unicodeLower
    (checkout "tests" tests_lab1_private) "tests" 7
  = ParseAssignments yaml unicodeLower (checkout "tests" tests_lab1) "tests" 7.
Proof. reflexivity. Qed.

(** A descriptor file that cannot be read stops the walk. *)
Example ParseAssignments_unreadable_descriptor :
  ParseAssignments yaml unicodeLower
    (checkout "tests" (Dir "tests" [ File "assignment.yml" None ])) "tests" 7
  = Returns ([], Some ErrReadFile).
Proof. reflexivity. Qed.

(** A root below a regular file: [os.Stat] fails with ENOTDIR, which
    [os.IsNotExist] does not accept, and the walk panics. *)
Example ParseAssignments_not_a_directory :
  ParseAssignments yaml unicodeLower
    (fun p => if (p =? "tests/README.md/labs")%string then inl ErrNotDir
              else checkout "tests" tests_lab1 p)
    "tests/README.md/labs" 7
  = Panics.
Proof. reflexivity. Qed.

End ParserFacts.

(* ===================================================================== *)
(** ** Properties of [GitlabSCM.CreateDirectory]                          *)
(* ===================================================================== *)

Module ScmFacts.

Import Scm.

Lemma getVisibilityLevel_false :
  getVisibilityLevel false = Some PublicVisibility.
Proof. reflexivity. Qed.

(** C9.  Whatever the GitLab client and the options, [CreateDirectory]
    sends exactly one group-creation request, for the given name and path,
    and the visibility it asks for is public, never private. *)
Theorem CreateDirectory_requests_public
    (remote provider_error : Type)
    (client : CreateGroupOptions -> remote -> (provider_error + Group) * remote)
    (opt : CreateDirectoryOptions) (r : remote)
    (log : list CreateGroupOptions) :
  exists o,
    snd (snd (CreateDirectory _ _ (recording _ _ client) opt (r, log)))
    = (log ++ [o])%list
    /\ cg_VisibilityLevel o = Some PublicVisibility
    /\ cg_VisibilityLevel o <> Some PrivateVisibility
    /\ cg_Name o = Some (cd_Name opt)
    /\ cg_Path o = Some (cd_Path opt).
Proof.
  exists (createGroupRequest opt).
  unfold CreateDirectory, recording. simpl.
  destruct (client (createGroupRequest opt) r) as [[e | g] r']; simpl;
    repeat split; discriminate.
Qed.

(** On the server model, the only group [CreateDirectory] can add is a
    public one. *)
Lemma CreateDirectory_server_public opt s g :
  In g (snd (CreateDirectory _ _ server_CreateGroup opt s)) ->
  In g s \/ sg_Visibility g = Some PublicVisibility.
Proof.
  unfold CreateDirectory, server_CreateGroup. simpl.
  destruct (existsb _ s); simpl; [auto |].
  intros H. apply in_app_or in H as [H | [<- | []]]; auto.
Qed.

Example CreateDirectory_server_example :
  CreateDirectory _ _ server_CreateGroup
    (mkCreateDirectoryOptions "DAT320" "dat320") []
  = (inr (mkDirectory 1 "dat320" ""),
     [mkServerGroup 1 "dat320" (Some PublicVisibility)]).
Proof. reflexivity. Qed.

End ScmFacts.

(* ===================================================================== *)
(** ** Properties of the service facade                                   *)
(* ===================================================================== *)

Module FacadeFacts.

Import Facade.

(** [CreateGroup] and [UpdateGroup] replace a failure that is not a status
    error by the generic internal error, and log the failure. *)
Lemma CreateGroup_maps_to_internal (User Group : Type)
    (RemoveRemoteIDs : Group -> Group) (usr : User)
    (createGroup : User -> error + Group) (e : error) :
  createGroup usr = inl e ->
  let out := CreateGroup User Group RemoveRemoteIDs (inr usr) createGroup in
  mapsToGenericInternal e (err out) /\ logged out = [e] /\ reply out = None.
Proof.
  intros H. unfold CreateGroup. rewrite H. simpl.
  unfold mapsToGenericInternal. repeat split. intros ->. reflexivity.
Qed.

Lemma UpdateGroup_maps_to_internal (Void : Type) (void : Void) (e : error) :
  let out := UpdateGroup Void void true (Some e) in
  mapsToGenericInternal e (err out) /\ logged out = [e].
Proof.
  unfold UpdateGroup, mapsToGenericInternal. simpl. split; [| reflexivity].
  intros ->. reflexivity.
Qed.

(** The text of a plain failure of [createGroup] does not reach the caller. *)
Lemma CreateGroup_hides_text (User Group : Type)
    (RemoveRemoteIDs : Group -> Group) (usr : User) (text : string) :
  err (CreateGroup User Group RemoveRemoteIDs (inr usr)
         (fun _ => inl (PlainError text)))
  = Some genericInternal.
Proof. reflexivity. Qed.

(** C7.  [CreateEnrollment], [GetAssignments] and
    [GetCoursesWithEnrollment] hand a failure of the function they delegate
    to back to the caller as it is: a plain error keeps its text, is not
    replaced by the generic internal error, and is not logged. *)
Theorem facade_returns_plain_error_unchanged (text : string) :
  let e := PlainError text in
  let enrol := CreateEnrollment unit tt (Some e) in
  let assignments := GetAssignments unit (None, Some e) in
  let courses := GetCoursesWithEnrollment unit (None, Some e) in
  status_FromError_ok e = false
  /\ err enrol = Some e /\ logged enrol = []
  /\ err assignments = Some e /\ logged assignments = []
  /\ err courses = Some e /\ logged courses = []
  /\ option_map errorText (err enrol) = Some text
  /\ ~ mapsToGenericInternal e (err enrol)
  /\ ~ mapsToGenericInternal e (err assignments)
  /\ ~ mapsToGenericInternal e (err courses).
Proof.
  simpl. unfold mapsToGenericInternal. simpl.
  repeat (split; [reflexivity |]).
  repeat split; intros H; specialize (H eq_refl); discriminate H.
Qed.

End FacadeFacts.

(* ===================================================================== *)
(** ** Properties of the assignment and review methods                    *)
(* ===================================================================== *)

Module WebFacts.

Import Web.

Local Open Scope N_scope.

(** A storage call that is not hit by a fault. *)
Lemma storage_ok {A} (f : DB -> error + A * DB) w a d :
  faults w (tick w) = false ->
  f (db w) = inr (a, d) ->
  storage f w
  = (inr a, mkWorld d (S (tick w)) (faults w) (stdout w) (clock w)).
Proof. intros Hf Hd. unfold storage. rewrite Hf, Hd. reflexivity. Qed.

Lemma storage_fault {A} (f : DB -> error + A * DB) w :
  faults w (tick w) = true ->
  storage f w
  = (inl ErrStorage,
     mkWorld (db w) (S (tick w)) (faults w) (stdout w) (clock w)).
Proof. intros Hf. unfold storage. rewrite Hf. reflexivity. Qed.

(** A storage call that only reads leaves the tables alone. *)
Lemma storage_read_db {A} (g : DB -> option A) w :
  db (snd (storage (fun d => match g d with
                             | Some a => inr (a, d)
                             | None => inl ErrRecordNotFound
                             end) w)) = db w.
Proof.
  unfold storage. destruct (faults w (tick w)); [reflexivity |].
  destruct (g (db w)); reflexivity.
Qed.

(** *** The upsert of the assignments table *)

Lemma sameKey_keyOf a b : sameKey a b = true <-> keyOf a = keyOf b.
Proof.
  unfold sameKey, keyOf. rewrite andb_true_iff, !N.eqb_eq.
  split; [intros [-> ->]; reflexivity | intros H; injection H; auto].
Qed.

Lemma sameKey_refl a : sameKey a a = true.
Proof. apply sameKey_keyOf. reflexivity. Qed.

Lemma sameKey_false a b : sameKey a b = false <-> keyOf a <> keyOf b.
Proof.
  rewrite <- sameKey_keyOf. destruct (sameKey a b); split; congruence.
Qed.

(** Decide every [sameKey] test in sight and compare the keys. *)
Ltac keys :=
  repeat match goal with
         | H : sameKey _ _ = true |- _ => apply sameKey_keyOf in H
         | H : sameKey _ _ = false |- _ => apply sameKey_false in H
         | |- sameKey _ _ = true => apply sameKey_keyOf
         | |- sameKey _ _ = false => apply sameKey_false
         end;
  congruence.

Lemma upsert_same a b rows :
  sameKey a b = true -> upsert a (upsert b rows) = upsert a rows.
Proof.
  intros Hab. induction rows as [| r rows IH]; simpl.
  - rewrite Hab. reflexivity.
  - destruct (sameKey b r) eqn:Hbr; simpl.
    + rewrite Hab. replace (sameKey a r) with true by (symmetry; keys).
      reflexivity.
    + replace (sameKey a r) with false by (symmetry; keys).
      rewrite IH. reflexivity.
Qed.

Lemma upsert_comm a b rows :
  sameKey a b = false -> hasKey b rows = true ->
  upsert a (upsert b rows) = upsert b (upsert a rows).
Proof.
  intros Hab. induction rows as [| r rows IH]; simpl; [discriminate |].
  intros Hb. destruct (sameKey b r) eqn:Hbr; simpl.
  - rewrite Hab. replace (sameKey a r) with false by (symmetry; keys).
    simpl. rewrite Hbr. reflexivity.
  - simpl in Hb. destruct (sameKey a r) eqn:Har; simpl.
    + replace (sameKey b a) with false by (symmetry; keys). reflexivity.
    + rewrite Hbr, IH by exact Hb. reflexivity.
Qed.

Lemma hasKey_upsert b a rows :
  hasKey b (upsert a rows) = hasKey b rows || sameKey b a.
Proof.
  unfold hasKey. induction rows as [| r rows IH]; simpl.
  - rewrite orb_false_r. reflexivity.
  - destruct (sameKey a r) eqn:Har; simpl.
    + destruct (sameKey b r) eqn:Hbr, (sameKey b a) eqn:Hba; simpl;
        try reflexivity; try (exfalso; keys).
      destruct (existsb (sameKey b) rows); reflexivity.
    + rewrite IH, orb_assoc. reflexivity.
Qed.

Lemma hasKey_upsertAll l : forall rows b,
  hasKey b rows = true \/ In b l -> hasKey b (upsertAll l rows) = true.
Proof.
  unfold upsertAll.
  induction l as [| a l IH]; intros rows b [H | H]; simpl.
  - exact H.
  - destruct H.
  - apply IH. left. rewrite hasKey_upsert, H. reflexivity.
  - destruct H as [-> | H].
    + apply IH. left. rewrite hasKey_upsert, sameKey_refl, orb_true_r.
      reflexivity.
    + apply IH. right. exact H.
Qed.

(** An upsert that comes before the upserts of [l], whose keys are all in
    the table already, is overwritten by [l] or can be done last. *)
Lemma upsertAll_upsert l : forall rows a,
  (forall b, In b l -> hasKey b rows = true) ->
  upsertAll l (upsert a rows)
  = if existsb (sameKey a) l then upsertAll l rows
    else upsert a (upsertAll l rows).
Proof.
  unfold upsertAll.
  induction l as [| b l IH]; intros rows a Hkeys; simpl; [reflexivity |].
  destruct (sameKey a b) eqn:Hab; simpl.
  - rewrite upsert_same by keys. reflexivity.
  - rewrite <- upsert_comm.
    + apply IH. intros b' Hb'. rewrite hasKey_upsert, Hkeys by (right; exact Hb').
      reflexivity.
    + exact Hab.
    + apply Hkeys. left. reflexivity.
Qed.

Lemma upsertAll_app l1 l2 rows :
  upsertAll (l1 ++ l2) rows = upsertAll l2 (upsertAll l1 rows).
Proof. unfold upsertAll. apply fold_left_app. Qed.

(** Upserting the same list again changes nothing. *)
Lemma upsertAll_idempotent l : forall rows,
  upsertAll l (upsertAll l rows) = upsertAll l rows.
Proof.
  induction l as [| a l IH] using rev_ind; intros rows; [reflexivity |].
  rewrite !upsertAll_app. simpl.
  change (fold_left (fun acc x => upsert x acc) [a] ?t) with (upsert a t).
  unfold upsertAll at 1 3. simpl. fold (upsertAll l rows).
  set (t := upsertAll l rows).
  change (fold_left (fun acc x => upsert x acc) l (upsert a t))
    with (upsertAll l (upsert a t)).
  rewrite upsertAll_upsert.
  - subst t. rewrite IH. destruct (existsb (sameKey a) l); [reflexivity |].
    apply upsert_same, sameKey_refl.
  - intros b Hb. subst t. apply hasKey_upsertAll. right. exact Hb.
Qed.

(** The rows keep their keys and their places; new keys go to the end. *)
Lemma upsert_keys a rows :
  map keyOf (upsert a rows)
  = (map keyOf rows ++ (if hasKey a rows then [] else [keyOf a]))%list.
Proof.
  unfold hasKey. induction rows as [| r rows IH]; simpl; [reflexivity |].
  destruct (sameKey a r) eqn:Har; simpl.
  - rewrite app_nil_r. f_equal. keys.
  - rewrite IH. reflexivity.
Qed.

Lemma hasKey_In a rows : hasKey a rows = true <-> In (keyOf a) (map keyOf rows).
Proof.
  unfold hasKey. rewrite existsb_exists, in_map_iff. split.
  - intros (r & Hr & Hk). exists r. split; [symmetry; keys | exact Hr].
  - intros (r & Hk & Hr). exists r. split; [exact Hr | keys].
Qed.

Lemma upsert_NoDup a rows :
  NoDup (map keyOf rows) -> NoDup (map keyOf (upsert a rows)).
Proof.
  intros H. rewrite upsert_keys. destruct (hasKey a rows) eqn:E.
  - rewrite app_nil_r. exact H.
  - apply NoDup_app; [exact H | repeat constructor; intros [] |].
    intros k Hk [<- | []]. apply hasKey_In in Hk. congruence.
Qed.

Lemma upsertAll_NoDup l : forall rows,
  NoDup (map keyOf rows) -> NoDup (map keyOf (upsertAll l rows)).
Proof.
  unfold upsertAll. induction l as [| a l IH]; intros rows H; simpl.
  - exact H.
  - apply IH, upsert_NoDup, H.
Qed.

Lemma upsertAll_keys l : forall rows,
  exists extra,
    map keyOf (upsertAll l rows) = (map keyOf rows ++ extra)%list.
Proof.
  unfold upsertAll. induction l as [| a l IH]; intros rows; simpl.
  - exists []. rewrite app_nil_r. reflexivity.
  - destruct (IH (upsert a rows)) as [extra ->]. rewrite upsert_keys.
    rewrite <- app_assoc. eauto.
Qed.

(** Rows whose key is not among the upserted ones stay in the table. *)
Lemma upsert_keeps r a rows :
  In r rows -> sameKey a r = false -> In r (upsert a rows).
Proof.
  intros Hin Hne. induction rows as [| r' rows IH]; [destruct Hin |].
  simpl. destruct (sameKey a r') eqn:E.
  - destruct Hin as [-> | Hin]; [congruence | right; exact Hin].
  - destruct Hin as [-> | Hin]; [left; reflexivity | right; apply IH, Hin].
Qed.

Lemma upsertAll_keeps r l : forall rows,
  In r rows -> (forall a, In a l -> sameKey a r = false) ->
  In r (upsertAll l rows).
Proof.
  unfold upsertAll. induction l as [| a l IH]; intros rows Hin Hne; simpl.
  - exact Hin.
  - apply IH.
    + apply upsert_keeps; [exact Hin | apply Hne; left; reflexivity].
    + intros b Hb. apply Hne. right. exact Hb.
Qed.

(** *** The loops of [removeOldCriteriaAndReviews] and [loadCriteria] *)

(** Split the conjunctions of the goal, and nothing under an implication. *)
Ltac conjs :=
  repeat match goal with |- _ /\ _ => split end; try reflexivity.

Lemma filter_filter {A} (p q : A -> bool) (l : list A) :
  filter q (filter p l) = filter (fun x => p x && q x) l.
Proof.
  induction l as [| x l IH]; simpl; [reflexivity |].
  destruct (p x); simpl; [destruct (q x) |]; rewrite IH; reflexivity.
Qed.

Lemma filter_notIn_nil {A} (key : A -> N) (l : list A) :
  filter (fun r => notIn [] (key r)) l = l.
Proof.
  induction l as [| x l IH]; simpl; [reflexivity | rewrite IH; reflexivity].
Qed.

Lemma filter_notIn_cons {A} (key : A -> N) (i : N) (ids : list N) (l : list A) :
  filter (fun r => notIn ids (key r)) (filter (fun r => negb (key r =? i)) l)
  = filter (fun r => notIn (i :: ids) (key r)) l.
Proof.
  rewrite filter_filter. apply filter_ext. intros r. unfold notIn. simpl.
  rewrite negb_orb. reflexivity.
Qed.

Lemma filter_notIn_app {A} (key : A -> N) (ids1 ids2 : list N) (l : list A) :
  filter (fun r => notIn ids2 (key r)) (filter (fun r => notIn ids1 (key r)) l)
  = filter (fun r => notIn (ids1 ++ ids2) (key r)) l.
Proof.
  rewrite filter_filter. apply filter_ext. intros r. unfold notIn.
  rewrite existsb_app, negb_orb. reflexivity.
Qed.

(** The inner loop of [removeOldCriteriaAndReviews]: it never fails; it
    prints one line per failed deletion, and when it prints nothing the
    criteria it went through are gone. *)
Lemma deleteCriteria_run cs : forall w,
  exists w' extra C,
    forEach cs (fun c =>
      orPrint (GormDB.DeleteCriterion c) (FailedToDeleteCriteria c)) w
    = (inr tt, w')
    /\ stdout w' = (stdout w ++ extra)%list
    /\ faults w' = faults w /\ clock w' = clock w
    /\ db w' = set_criteria (db w) C
    /\ (extra = [] ->
        C = filter (fun r => notIn (map gc_ID cs) (gc_ID r)) (criteria (db w))).
Proof.
  induction cs as [| c cs IH]; intros w; simpl.
  - exists w, [], (criteria (db w)). unfold ret. rewrite app_nil_r.
    conjs.
    + destruct (db w); reflexivity.
    + intros _. symmetry. apply filter_notIn_nil.
  - unfold bind at 1. unfold orPrint at 1, GormDB.DeleteCriterion at 1,
      storage at 1, Printf at 1.
    destruct (faults w (tick w)) eqn:F; simpl.
    + match goal with |- context [forEach cs ?body ?w1] =>
        destruct (IH w1) as (w' & extra & C & Hrun & Hout & Hf & Hc & Hdb & _)
      end.
      simpl in *. exists w', (FailedToDeleteCriteria c ErrStorage :: extra), C.
      rewrite Hrun, Hout, <- app_assoc. conjs; try assumption.
      discriminate.
    + match goal with |- context [forEach cs ?body ?w1] =>
        destruct (IH w1) as (w' & extra & C & Hrun & Hout & Hf & Hc & Hdb & HC)
      end.
      simpl in *. exists w', extra, C. rewrite Hrun.
      conjs; try assumption.
      intros He. rewrite (HC He). apply filter_notIn_cons.
Qed.

(** The outer loop. *)
Lemma deleteBenchmarks_run bms : forall w,
  exists w' extra B C,
    forEach bms (fun bm =>
      forEach (gb_Criteria bm) (fun c =>
        orPrint (GormDB.DeleteCriterion c) (FailedToDeleteCriteria c)) ;;;
      orPrint (GormDB.DeleteBenchmark bm) (FailedToDeleteBenchmark bm)) w
    = (inr tt, w')
    /\ stdout w' = (stdout w ++ extra)%list
    /\ faults w' = faults w /\ clock w' = clock w
    /\ db w' = set_criteria (set_benchmarks (db w) B) C
    /\ (extra = [] ->
        B = filter (fun r => notIn (map gb_ID bms) (gb_ID r))
              (benchmarks (db w))
        /\ C = filter (fun r =>
                 notIn (flat_map (fun bm => map gc_ID (gb_Criteria bm)) bms)
                   (gc_ID r))
               (criteria (db w))).
Proof.
  induction bms as [| bm bms IH]; intros w; simpl.
  - exists w, [], (benchmarks (db w)), (criteria (db w)). unfold ret.
    rewrite app_nil_r. conjs.
    + destruct (db w); reflexivity.
    + intros _. split; symmetry; apply filter_notIn_nil.
  - unfold bind at 1. unfold bind at 1.
    destruct (deleteCriteria_run (gb_Criteria bm) w)
      as (w1 & e1 & C1 & Hrun1 & Hout1 & Hf1 & Hc1 & Hdb1 & HC1).
    rewrite Hrun1.
    unfold orPrint at 1, GormDB.DeleteBenchmark at 1, storage at 1,
      Printf at 1.
    destruct (faults w1 (tick w1)) eqn:F; simpl.
    + match goal with |- context [forEach bms ?body ?w2] =>
        destruct (IH w2)
          as (w' & e2 & B & C & Hrun & Hout & Hf & Hc & Hdb & _)
      end.
      simpl in *.
      exists w', (e1 ++ FailedToDeleteBenchmark bm ErrStorage :: e2)%list, B, C.
      rewrite Hrun, Hout, Hout1, <- !app_assoc. simpl.
      conjs; try congruence.
      * rewrite Hdb, Hdb1. reflexivity.
      * intros He. apply app_eq_nil in He as [_ He]. discriminate.
    + match goal with |- context [forEach bms ?body ?w2] =>
        destruct (IH w2)
          as (w' & e2 & B & C & Hrun & Hout & Hf & Hc & Hdb & HBC)
      end.
      simpl in *. exists w', (e1 ++ e2)%list, B, C.
      rewrite Hrun, Hout, Hout1, <- !app_assoc.
      conjs; try congruence.
      * rewrite Hdb, Hdb1. reflexivity.
      * intros He. apply app_eq_nil in He as [He1 He2].
        destruct (HBC He2) as [-> ->]. rewrite Hdb1. simpl. split.
        -- apply filter_notIn_cons.
        -- rewrite (HC1 He1). apply filter_notIn_app.
Qed.

(** The loop over the submissions: it stops at the first failed deletion;
    when it comes to its end, the reviews of the submissions are gone. *)
Lemma deleteReviews_run subs : forall w w',
  forEach subs (fun submission =>
    GormDB.DeleteReview (mkReview 0 (sb_ID submission) "" "")) w
  = (inr tt, w') ->
  stdout w' = stdout w /\ faults w' = faults w /\ clock w' = clock w
  /\ db w' = set_reviews (db w)
               (filter (fun r => notIn (map sb_ID subs) (rv_SubmissionID r))
                  (reviews (db w))).
Proof.
  induction subs as [| s subs IH]; intros w w'; simpl.
  - unfold ret. intros H. injection H as <-. conjs.
    rewrite filter_notIn_nil. destruct (db w); reflexivity.
  - unfold bind at 1, GormDB.DeleteReview at 1, storage at 1.
    destruct (faults w (tick w)); simpl; [discriminate |].
    intros H. apply IH in H as (Hout & Hf & Hc & Hdb). simpl in *.
    conjs; try assumption.
    rewrite Hdb. unfold set_reviews. simpl. f_equal.
    apply (filter_notIn_cons rv_SubmissionID).
Qed.

(** The loop over the criteria of a new benchmark. *)
Lemma createCriteria_run bid cs : forall w cs' w',
  forEachUpdate cs (fun c =>
    GormDB.CreateCriterion (mkCriterion (gc_ID c) bid (gc_Description c))) w
  = (inr cs', w') ->
  stdout w' = stdout w /\ faults w' = faults w /\ clock w' = clock w
  /\ db w' = set_criteria (db w) (criteria (db w) ++ cs')%list
  /\ Forall2 (fun pc rc =>
       gc_Description rc = gc_Description pc /\ gc_BenchmarkID rc = bid)
       cs cs'.
Proof.
  induction cs as [| c cs IH]; intros w cs' w'; simpl.
  - unfold ret. intros H. injection H as <- <-. rewrite app_nil_r.
    conjs; [destruct (db w); reflexivity | constructor].
  - unfold bind at 1, GormDB.CreateCriterion at 1, storage at 1.
    destruct (faults w (tick w)); simpl; [discriminate |].
    unfold bind at 1.
    match goal with |- context [forEachUpdate cs ?body ?w1] =>
      destruct (forEachUpdate cs body w1) as [[e | l] w2] eqn:Hrun
    end; [discriminate |].
    unfold ret. intros H. injection H as <- <-.
    apply IH in Hrun as (Hout & Hf & Hc & Hdb & HF). simpl in *.
    conjs; try assumption.
    + rewrite Hdb. unfold set_criteria. simpl. rewrite <- app_assoc.
      reflexivity.
    + constructor; [split; reflexivity | exact HF].
Qed.

(** One round of the loop of [loadCriteria]. *)
Lemma createBenchmarkWithCriteria_run a bm w bm' w' :
  createBenchmarkWithCriteria a bm w = (inr bm', w') ->
  stdout w' = stdout w /\ faults w' = faults w /\ clock w' = clock w
  /\ db w' = set_criteria
               (set_benchmarks (db w)
                  (benchmarks (db w) ++ [benchmarkRow bm'])%list)
               (criteria (db w) ++ gb_Criteria bm')%list
  /\ persistedFrom (as_ID a) bm bm'.
Proof.
  unfold createBenchmarkWithCriteria.
  unfold bind at 1, GormDB.CreateBenchmark at 1, storage at 1.
  destruct (faults w (tick w)); simpl; [discriminate |].
  unfold bind at 1.
  match goal with |- context [forEachUpdate ?cs ?body ?w1] =>
    destruct (forEachUpdate cs body w1) as [[e | l] w2] eqn:Hrun
  end; [discriminate |].
  unfold ret. intros H. injection H as <- <-.
  apply createCriteria_run in Hrun as (Hout & Hf & Hc & Hdb & HF).
  simpl in *. conjs; try assumption.
  unfold persistedFrom. simpl. conjs. exact HF.
Qed.

(** The loop of [loadCriteria]. *)
Lemma createBenchmarks_run a bms : forall w result w',
  forEachUpdate bms (createBenchmarkWithCriteria a) w = (inr result, w') ->
  stdout w' = stdout w /\ faults w' = faults w /\ clock w' = clock w
  /\ db w' = set_criteria
               (set_benchmarks (db w)
                  (benchmarks (db w) ++ map benchmarkRow result)%list)
               (criteria (db w) ++ flat_map gb_Criteria result)%list
  /\ Forall2 (persistedFrom (as_ID a)) bms result.
Proof.
  induction bms as [| bm bms IH]; intros w result w'; simpl.
  - unfold ret. intros H. injection H as <- <-. simpl. rewrite !app_nil_r.
    conjs; [destruct (db w); reflexivity | constructor].
  - unfold bind at 1.
    destruct (createBenchmarkWithCriteria a bm w) as [[e | bm'] w1] eqn:H1;
      [discriminate |].
    unfold bind at 1.
    destruct (forEachUpdate bms (createBenchmarkWithCriteria a) w1)
      as [[e | l] w2] eqn:H2; [discriminate |].
    unfold ret. intros H. injection H as <- <-.
    apply createBenchmarkWithCriteria_run in H1 as (Ho1 & Hf1 & Hc1 & Hd1 & Hp1).
    apply IH in H2 as (Ho2 & Hf2 & Hc2 & Hd2 & Hp2).
    conjs; try congruence.
    + rewrite Hd2, Hd1. unfold set_criteria, set_benchmarks. simpl.
      rewrite <- !app_assoc. reflexivity.
    + constructor; assumption.
Qed.

(** [removeOldCriteriaAndReviews]: when it returns no error and has printed
    nothing, the rubric and the reviews are gone. *)
Lemma removeOldCriteriaAndReviews_run a w w' :
  removeOldCriteriaAndReviews a w = (inr tt, w') ->
  exists extra,
    stdout w' = (stdout w ++ extra)%list
    /\ faults w' = faults w /\ clock w' = clock w
    /\ (extra = [] -> db w' = withoutRubric (db w) a).
Proof.
  unfold removeOldCriteriaAndReviews. unfold bind at 1.
  destruct (deleteBenchmarks_run (as_GradingBenchmarks a) w)
    as (w1 & extra & B & C & Hrun & Hout & Hf & Hc & Hdb & HBC).
  rewrite Hrun.
  unfold bind at 1, GormDB.GetSubmissions at 1, storage at 1.
  destruct (faults w1 (tick w1)); simpl; [discriminate |].
  intros H. apply deleteReviews_run in H as (Hout' & Hf' & Hc' & Hdb').
  simpl in *. exists extra. conjs; try congruence.
  intros He. destruct (HBC He) as [-> ->]. rewrite Hdb', Hdb.
  unfold withoutRubric, submissionIDs, selectSubmissions. simpl.
  reflexivity.
Qed.

(** The rubric [GetAssignment] loads is the one the benchmarks table holds
    for the assignment. *)
Lemma lookupAssignment_benchmarks d q a :
  lookupAssignment d q = Some a ->
  as_GradingBenchmarks a
  = map (preloadBenchmark d)
      (filter (fun b => gb_AssignmentID b =? as_ID a) (benchmarks d)).
Proof.
  unfold lookupAssignment.
  destruct (find (matchesAssignment q) (assignments d)) as [row |];
    [| discriminate].
  simpl. intros H. injection H as <-. reflexivity.
Qed.

Lemma notIn_false ids id : In id ids -> notIn ids id = false.
Proof.
  intros H. unfold notIn. apply negb_false_iff, existsb_exists.
  exists id. split; [exact H | apply N.eqb_refl].
Qed.

Lemma notIn_true ids id : notIn ids id = true -> ~ In id ids.
Proof.
  intros H Hin. rewrite (notIn_false _ _ Hin) in H. discriminate.
Qed.

Lemma filter_none {A} (p : A -> bool) (l : list A) :
  (forall x, In x l -> p x = false) -> filter p l = [].
Proof.
  induction l as [| x l IH]; intros H; simpl; [reflexivity |].
  rewrite (H x (or_introl eq_refl)). apply IH.
  intros y Hy. apply H. right. exact Hy.
Qed.

Lemma filter_all {A} (p : A -> bool) (l : list A) :
  (forall x, In x l -> p x = true) -> filter p l = l.
Proof.
  induction l as [| x l IH]; intros H; simpl; [reflexivity |].
  rewrite (H x (or_introl eq_refl)). f_equal. apply IH.
  intros y Hy. apply H. right. exact Hy.
Qed.

(** Once the rubric of an assignment is deleted, the benchmarks table holds
    no row for the assignment. *)
Lemma withoutRubric_no_benchmark d q a :
  lookupAssignment d q = Some a ->
  filter (fun r => gb_AssignmentID r =? as_ID a)
    (benchmarks (withoutRubric d a)) = [].
Proof.
  intros Ha. unfold withoutRubric. simpl. rewrite filter_filter.
  apply filter_none. intros r Hr.
  destruct (gb_AssignmentID r =? as_ID a) eqn:E;
    [| apply andb_false_r].
  rewrite andb_true_r. apply notIn_false. unfold oldBenchmarkIDs.
  rewrite (lookupAssignment_benchmarks _ _ _ Ha), map_map. simpl.
  apply in_map_iff. exists r. split; [reflexivity |].
  apply filter_In. auto.
Qed.

Lemma persisted_benchmarks aid parsed result :
  Forall2 (persistedFrom aid) parsed result ->
  filter (fun r => gb_AssignmentID r =? aid) (map benchmarkRow result)
  = map benchmarkRow result.
Proof.
  intros HF. apply filter_all. intros r Hr.
  apply in_map_iff in Hr as (b & <- & Hb). simpl.
  apply N.eqb_eq.
  clear - HF Hb. induction HF as [| p b' ps bs Hp HF IH]; [destruct Hb |].
  destruct Hb as [-> | Hb]; [apply Hp | apply IH, Hb].
Qed.

(** *** Runs on a storage that never fails *)

Lemma storage_quietly {A} (f : DB -> A * DB) w :
  neverFails w -> quietly (storage (fun d => inr (f d))) w.
Proof.
  intros H. unfold quietly, storage. rewrite H.
  destruct (f (db w)) as [a d]. eauto.
Qed.

Lemma bind_quietly {A B} (m : M A) (k : A -> M B) w :
  neverFails w ->
  quietly m w ->
  (forall a w', neverFails w' -> quietly (k a) w') ->
  quietly (bind m k) w.
Proof.
  intros Hw (a & w1 & Hm & Ho & Hf) Hk. unfold quietly, bind. rewrite Hm.
  destruct (Hk a w1) as (b & w2 & Hk' & Ho' & Hf').
  - intros n. rewrite Hf. apply Hw.
  - exists b, w2. rewrite Hk'. conjs; congruence.
Qed.

Lemma ret_quietly {A} (a : A) w : quietly (ret a) w.
Proof. exists a, w. conjs. Qed.

Lemma orPrint_quietly (m : M unit) line w :
  quietly m w -> quietly (orPrint m line) w.
Proof.
  intros ([] & w' & Hm & Ho & Hf). unfold quietly, orPrint. rewrite Hm.
  exists tt, w'. conjs; assumption.
Qed.

Lemma forEach_quietly {A} (body : A -> M unit) l : forall w,
  neverFails w ->
  (forall x w', neverFails w' -> quietly (body x) w') ->
  quietly (forEach l body) w.
Proof.
  induction l as [| x l IH]; intros w Hw Hbody; simpl.
  - apply ret_quietly.
  - apply bind_quietly; [exact Hw | apply Hbody, Hw |].
    intros _ w' Hw'. apply IH; assumption.
Qed.

Lemma forEachUpdate_quietly {A} (body : A -> M A) l : forall w,
  neverFails w ->
  (forall x w', neverFails w' -> quietly (body x) w') ->
  quietly (forEachUpdate l body) w.
Proof.
  induction l as [| x l IH]; intros w Hw Hbody; simpl.
  - apply ret_quietly.
  - apply bind_quietly; [exact Hw | apply Hbody, Hw |].
    intros x' w' Hw'. apply bind_quietly; [exact Hw' | apply IH; assumption |].
    intros l' w'' _. apply ret_quietly.
Qed.

Lemma removeOldCriteriaAndReviews_quietly a w :
  neverFails w -> quietly (removeOldCriteriaAndReviews a) w.
Proof.
  intros Hw. unfold removeOldCriteriaAndReviews.
  apply bind_quietly; [exact Hw | |].
  - apply forEach_quietly; [exact Hw |]. intros bm w1 Hw1.
    apply bind_quietly; [exact Hw1 | |].
    + apply forEach_quietly; [exact Hw1 |]. intros c w2 Hw2.
      apply orPrint_quietly.
      apply (storage_quietly (fun d => (tt, _))). exact Hw2.
    + intros _ w2 Hw2. apply orPrint_quietly.
      apply (storage_quietly (fun d => (tt, _))). exact Hw2.
  - intros _ w1 Hw1. apply bind_quietly; [exact Hw1 | |].
    + apply (storage_quietly (fun d => (_, d))). exact Hw1.
    + intros subs w2 Hw2. apply forEach_quietly; [exact Hw2 |].
      intros s w3 Hw3. apply (storage_quietly (fun d => (tt, _))). exact Hw3.
Qed.

Lemma createBenchmarkWithCriteria_quietly a bm w :
  neverFails w -> quietly (createBenchmarkWithCriteria a bm) w.
Proof.
  intros Hw. unfold createBenchmarkWithCriteria.
  apply bind_quietly; [exact Hw | |].
  - apply (storage_quietly (fun d => (_, _))). exact Hw.
  - intros bm' w1 Hw1. apply bind_quietly; [exact Hw1 | |].
    + apply forEachUpdate_quietly; [exact Hw1 |]. intros c w2 Hw2.
      apply (storage_quietly (fun d => (_, _))). exact Hw2.
    + intros cs w2 _. apply ret_quietly.
Qed.

Section Facts.

Variable FixDeadline : string -> string.
Variable FetchAssignments : SCM -> Course -> error + list Assignment.
Variable json_Unmarshal : string -> option (list GradingBenchmark).
Variable filepath_Join : string -> string -> string.
Variable TestsRepo : string.

Abbreviation getAssignments := (getAssignments FixDeadline).
Abbreviation updateAssignments := (updateAssignments FetchAssignments).
Abbreviation loadCriteria :=
  (loadCriteria json_Unmarshal filepath_Join TestsRepo).

(** *** [getAssignments] *)

(** C8.  [getAssignments] leaves every table of the storage as it was; when
    the storage answers, the reply holds one assignment per persisted row
    of the course, in order, whose deadline is [FixDeadline] of the row's
    deadline; when the storage fails, its error is returned. *)
Theorem getAssignments_read_only_shim (courseID : N) (w : World) :
  let rows := filter (fun a => as_CourseID a =? courseID)
                (assignments (db w)) in
  let out := getAssignments courseID w in
  db (snd out) = db w
  /\ (faults w (tick w) = false ->
      exists l,
        fst out = inr l
        /\ Forall2 (fun row a =>
             as_Deadline a = FixDeadline (as_Deadline row)
             /\ as_ID a = as_ID row /\ as_CourseID a = as_CourseID row
             /\ as_Name a = as_Name row) rows l)
  /\ (faults w (tick w) = true -> fst out = inl ErrStorage).
Proof.
  unfold Web.getAssignments, GormDB.GetAssignmentsByCourse, bind, storage.
  simpl. destruct (faults w (tick w)); simpl.
  - split; [reflexivity |]. split; [discriminate | reflexivity].
  - split; [reflexivity |]. split; [| discriminate]. intros _.
    eexists. split; [reflexivity |].
    unfold selectAssignmentsByCourse.
    induction (filter (fun a => as_CourseID a =? courseID)
                 (assignments (db w))) as [| row rows IH]; simpl.
    + constructor.
    + constructor; [repeat split | exact IH].
Qed.

(** *** [createReview] *)

(** C10.  For a submission and its assignment as the storage finds them:
    when the submission has at least [Reviewers] reviews, [createReview]
    returns an error and the storage is left as it was; when it has fewer
    and the three storage calls go through, the review is persisted as a
    new row and returned, with [Edited] set to the current time in the
    layout ["02 Jan 15:04"]: the two digits of the day, a space, the three
    letters of the month, a space, the two digits of the hour, a colon
    and the two digits of the minute; when a storage call fails, its error
    is returned and nothing is persisted. *)
Theorem createReview_reviewer_cap (query : Review) (w : World)
    (s : Submission) (a : Assignment) :
  lookupSubmission (db w) (mkSubmission (rv_SubmissionID query) 0 []) = Some s ->
  lookupAssignment (db w) (mkAssignment (sb_AssignmentID s) 0 "" "" 0 [])
    = Some a ->
  let out := createReview query w in
  let now := clock w in
  let two := fun n : Z =>
    String (ascii_of_N (48 + Z.to_N (n / 10)))
      (String (ascii_of_N (48 + Z.to_N (n mod 10))) EmptyString) in
  let months := ["Jan"; "Feb"; "Mar"; "Apr"; "May"; "Jun";
                 "Jul"; "Aug"; "Sep"; "Oct"; "Nov"; "Dec"] in
  (as_Reviewers a <= N.of_nat (List.length (sb_Reviews s)) ->
   (exists e, fst out = inl e) /\ db (snd out) = db w)
  /\ (N.of_nat (List.length (sb_Reviews s)) < as_Reviewers a ->
      (noFault w 3 ->
       exists review,
         fst out = inr review
         /\ ((1 <= GoTime.month now <= 12)%Z -> (1 <= GoTime.day now <= 31)%Z ->
             (0 <= GoTime.hour now <= 23)%Z ->
             (0 <= GoTime.minute now <= 59)%Z ->
             rv_Edited review
             = (two (GoTime.day now) ++ " "
                ++ nth (Z.to_nat (GoTime.month now - 1)) months "" ++ " "
                ++ two (GoTime.hour now) ++ ":"
                ++ two (GoTime.minute now))%string)
         /\ rv_SubmissionID review = rv_SubmissionID query
         /\ rv_Feedback review = rv_Feedback query
         /\ db (snd out)
            = set_reviews (db w) (reviews (db w) ++ [review])%list)
      /\ (~ noFault w 3 ->
          fst out = inl ErrStorage /\ db (snd out) = db w)).
Proof.
  intros Hs Ha out now two months. subst out.
  unfold createReview, GormDB.GetSubmission, GormDB.GetAssignment,
    GormDB.CreateReview, time_Now, bind, storage, fail. simpl.
  destruct (faults w (tick w)) eqn:F0; simpl.
  { split.
    - intros _. split; [eauto | reflexivity].
    - intros _. split.
      + intros NF. specialize (NF 0%nat). rewrite Nat.add_0_r in NF.
        rewrite NF in F0 by lia. discriminate.
      + intros _. split; reflexivity. }
  rewrite Hs. simpl.
  destruct (faults w (S (tick w))) eqn:F1; simpl.
  { split.
    - intros _. split; [eauto | reflexivity].
    - intros _. split.
      + intros NF. specialize (NF 1%nat). rewrite Nat.add_1_r in NF.
        rewrite NF in F1 by lia. discriminate.
      + intros _. split; reflexivity. }
  rewrite Ha. simpl.
  destruct (Z.of_N (as_Reviewers a) <=? Z.of_nat (List.length (sb_Reviews s)))%Z
    eqn:Hcap; simpl.
  { apply Z.leb_le in Hcap. split.
    - intros _. split; [eauto | reflexivity].
    - intros Hlt. exfalso. lia. }
  apply Z.leb_gt in Hcap. split; [intros Hle; exfalso; lia |].
  intros _.
  destruct (faults w (S (S (tick w)))) eqn:F2; simpl.
  - split.
    + intros NF. specialize (NF 2%nat).
      replace (tick w + 2)%nat with (S (S (tick w))) in NF by lia.
      rewrite NF in F2 by lia. discriminate.
    + intros _. split; reflexivity.
  - split.
    + intros _. eexists. split; [reflexivity |]. simpl.
      split; [| repeat split].
      intros Hm Hd Hh Hmi.
      apply (GoTimeFacts.Format_02_Jan_15_04_spelled (clock w)); assumption.
    + intros NF. exfalso. apply NF. intros i Hi.
      destruct i as [| [| [| i]]]; try lia.
      * rewrite Nat.add_0_r. exact F0.
      * rewrite Nat.add_1_r. exact F1.
      * replace (tick w + 2)%nat with (S (S (tick w))) by lia. exact F2.
Qed.

(** *** [updateAssignments] *)

(** C2.  After a run of [updateAssignments] that returns no error, a second
    run against the same remote state leaves the storage exactly as the
    first run left it (also when the second run fails), and returns no
    error when its two storage calls go through.  The first run keeps the
    (CourseID, ID) keys of the rows free of duplicates, and keeps every
    existing row's key at its place, appending the new keys. *)
Theorem updateAssignments_idempotent (sc : SCM) (courseID : N) (w : World) :
  let run1 := updateAssignments sc courseID w in
  let run2 := updateAssignments sc courseID (snd run1) in
  fst run1 = inr tt ->
  db (snd run2) = db (snd run1)
  /\ (NoDup (map keyOf (assignments (db w))) ->
      NoDup (map keyOf (assignments (db (snd run1)))))
  /\ (exists extra,
        map keyOf (assignments (db (snd run1)))
        = (map keyOf (assignments (db w)) ++ extra)%list)
  /\ (noFault (snd run1) 2 -> fst run2 = inr tt).
Proof.
  unfold Web.updateAssignments, GormDB.GetCourse, GormDB.UpdateAssignments,
    bind, lift, storage. simpl.
  destruct (faults w (tick w)) eqn:F0; simpl; [discriminate |].
  destruct (lookupCourse (db w) courseID) as [course |] eqn:Hc; simpl;
    [| discriminate].
  destruct (FetchAssignments sc course) as [e | l] eqn:Hl; simpl;
    [discriminate |].
  destruct (faults w (S (tick w))) eqn:F1; simpl; [discriminate |].
  intros _.
  change (lookupCourse (set_assignments (db w)
            (upsertAll l (assignments (db w)))) courseID)
    with (lookupCourse (db w) courseID).
  rewrite Hc.
  split; [| split; [| split]].
  - destruct (faults w (S (S (tick w)))); simpl; [reflexivity |].
    rewrite Hl. simpl.
    destruct (faults w (S (S (S (tick w))))); simpl; [reflexivity |].
    unfold set_assignments. simpl. rewrite upsertAll_idempotent. reflexivity.
  - apply upsertAll_NoDup.
  - apply upsertAll_keys.
  - intros NF.
    pose proof (NF 0%nat ltac:(lia)) as N0.
    pose proof (NF 1%nat ltac:(lia)) as N1.
    unfold noFault in *. simpl in N0, N1.
    rewrite Nat.add_0_r in N0. rewrite Nat.add_1_r in N1.
    rewrite N0. simpl. rewrite Hl. simpl. rewrite N1. reflexivity.
Qed.

(** *** [loadCriteria] *)

(** The runs of [loadCriteria] in which no deletion fails.  For an
    assignment that has persisted benchmarks, a run that returns no error
    and prints no deletion failure replaces the rubric: first [removeOldCriteriaAndReviews] deletes the
    benchmarks and criteria loaded with the assignment and the reviews of
    its submissions, then the parsed benchmarks and their criteria are
    inserted with their foreign keys set; afterwards the benchmarks table
    holds, for the assignment, exactly the new rows, the kept criteria
    rows are none of the old rubric's, and no review of a submission of
    the assignment is left. *)
Lemma loadCriteria_replaces_rubric (sc : SCM) (request : LoadCriteriaRequest)
    (w : World) (a : Assignment) (result : list GradingBenchmark)
    (w' : World) :
  lookupAssignment (db w)
    (mkAssignment (lc_AssignmentID request) (lc_CourseID request) "" "" 0 [])
    = Some a ->
  as_GradingBenchmarks a <> [] ->
  loadCriteria sc request w = (inr result, w') ->
  stdout w' = stdout w ->
  exists course content parsed w0 w1,
    lookupCourse (db w) (as_CourseID a) = Some course
    /\ GetFileContent sc
         {| fo_Path := filepath_Join (as_Name a) criteriaFile;
            fo_Owner := co_OrganizationPath course;
            fo_Repository := TestsRepo |} = inr content
    /\ json_Unmarshal content = Some parsed
    /\ db w0 = db w
    /\ removeOldCriteriaAndReviews a w0 = (inr tt, w1)
    /\ db w1 = withoutRubric (db w) a
    /\ forEachUpdate parsed (createBenchmarkWithCriteria a) w1
       = (inr result, w')
    /\ db w' = withRubric (withoutRubric (db w) a) result
    /\ Forall2 (persistedFrom (as_ID a)) parsed result
    /\ filter (fun r => gb_AssignmentID r =? as_ID a) (benchmarks (db w'))
       = map benchmarkRow result
    /\ (forall c, In c (criteria (withoutRubric (db w) a)) ->
                  ~ In (gc_ID c) (oldCriterionIDs a))
    /\ (forall r s,
          In r (reviews (db w')) -> In s (submissions (db w)) ->
          sb_AssignmentID s = as_ID a -> rv_SubmissionID r <> sb_ID s).
Proof.
  intros Ha Hold Hrun Hout.
  unfold Web.loadCriteria in Hrun.
  unfold bind at 1, getAssignmentWithCourse in Hrun.
  unfold bind at 1, GormDB.GetAssignment at 1, storage at 1 in Hrun.
  destruct (faults w (tick w)); [discriminate |].
  rewrite Ha in Hrun.
  unfold bind at 1, GormDB.GetCourse at 1, storage at 1 in Hrun.
  simpl in Hrun.
  destruct (faults w (S (tick w))); [discriminate |].
  destruct (lookupCourse (db w) (as_CourseID a)) as [course |] eqn:Hco;
    [| discriminate].
  unfold ret at 1 in Hrun. simpl in Hrun.
  unfold bind at 1, lift at 1 in Hrun.
  match type of Hrun with context [GetFileContent sc ?o] =>
    destruct (GetFileContent sc o) as [e | content] eqn:Hfile
  end; [discriminate |].
  unfold bind at 1, lift at 1 in Hrun.
  destruct (json_Unmarshal content) as [parsed |] eqn:Hjson; [| discriminate].
  assert ((0 <? List.length (as_GradingBenchmarks a))%nat = true) as Hlen.
  { destruct (as_GradingBenchmarks a); [congruence | reflexivity]. }
  rewrite Hlen in Hrun.
  unfold bind at 1 in Hrun.
  set (w0 := mkWorld (db w) (S (S (tick w))) (faults w) (stdout w) (clock w))
    in Hrun.
  destruct (removeOldCriteriaAndReviews a w0) as [[e | []] w1] eqn:Hrem;
    [discriminate |].
  pose proof (removeOldCriteriaAndReviews_run _ _ _ Hrem)
    as (extra & Hout1 & _ & _ & Hdb1).
  pose proof (createBenchmarks_run _ _ _ _ _ Hrun)
    as (Hout2 & _ & _ & Hdb2 & HF).
  assert (extra = []) as He.
  { rewrite Hout2, Hout1 in Hout. simpl in Hout.
    apply (app_inv_head (stdout w)). rewrite app_nil_r. exact Hout. }
  specialize (Hdb1 He). simpl in Hdb1.
  assert (db w' = withRubric (withoutRubric (db w) a) result) as Hdb.
  { rewrite Hdb2, Hdb1. reflexivity. }
  exists course, content, parsed, w0, w1.
  conjs; try assumption.
  - rewrite Hdb. unfold withRubric. simpl.
    rewrite filter_app.
    pose proof (withoutRubric_no_benchmark _ _ _ Ha) as Hnone.
    simpl in Hnone. rewrite Hnone. simpl.
    eapply persisted_benchmarks. exact HF.
  - intros c Hc. simpl in Hc. apply filter_In in Hc as [_ Hc].
    apply notIn_true. exact Hc.
  - intros r s Hr Hs Hsa. rewrite Hdb in Hr.
    simpl in Hr.
    apply filter_In in Hr as [_ Hr]. apply notIn_true in Hr.
    intros Heq. apply Hr. rewrite Heq. unfold submissionIDs, selectSubmissions.
    rewrite map_map. simpl. apply in_map_iff. exists s.
    split; [reflexivity |]. apply filter_In. split; [exact Hs |].
    unfold matchesSubmission. simpl. rewrite Hsa, N.eqb_refl.
    apply orb_true_r.
Qed.

(** On a storage that never fails, [loadCriteria] returns the new rubric
    and prints nothing as soon as the assignment, its course and the
    criteria file are found and the file decodes. *)
Lemma loadCriteria_succeeds (sc : SCM) (request : LoadCriteriaRequest)
    (w : World) (a : Assignment) (course : Course) (content : string)
    (parsed : list GradingBenchmark) :
  neverFails w ->
  lookupAssignment (db w)
    (mkAssignment (lc_AssignmentID request) (lc_CourseID request) "" "" 0 [])
    = Some a ->
  lookupCourse (db w) (as_CourseID a) = Some course ->
  GetFileContent sc
    {| fo_Path := filepath_Join (as_Name a) criteriaFile;
       fo_Owner := co_OrganizationPath course;
       fo_Repository := TestsRepo |} = inr content ->
  json_Unmarshal content = Some parsed ->
  exists result w',
    loadCriteria sc request w = (inr result, w') /\ stdout w' = stdout w.
Proof.
  intros Hw Ha Hco Hfile Hjson.
  set (w0 := mkWorld (db w) (S (S (tick w))) (faults w) (stdout w) (clock w)).
  assert (loadCriteria sc request w
          = bind (if (0 <? List.length (as_GradingBenchmarks a))%nat
                  then removeOldCriteriaAndReviews a
                  else ret tt)
              (fun _ => forEachUpdate parsed (createBenchmarkWithCriteria a))
              w0) as Hstep.
  { unfold Web.loadCriteria, getAssignmentWithCourse.
    unfold bind at 1. unfold bind at 1.
    unfold GormDB.GetAssignment at 1, storage at 1. rewrite Hw, Ha.
    unfold bind at 1, GormDB.GetCourse at 1, storage at 1. simpl.
    rewrite Hw, Hco. unfold ret at 1. simpl.
    unfold bind at 1, lift at 1. rewrite Hfile.
    unfold bind at 1, lift at 1. rewrite Hjson. reflexivity. }
  rewrite Hstep.
  assert (neverFails w0) as Hw0 by exact Hw.
  match goal with |- context [bind ?m ?k w0] =>
    assert (quietly (bind m k) w0) as (result & w' & Hrun & Hout & _)
  end.
  { apply bind_quietly.
    - exact Hw0.
    - destruct (0 <? List.length (as_GradingBenchmarks a))%nat.
      + apply removeOldCriteriaAndReviews_quietly. exact Hw0.
      + apply ret_quietly.
    - intros _ w1 Hw1. apply forEachUpdate_quietly; [exact Hw1 |].
      intros bm w2 Hw2. apply createBenchmarkWithCriteria_quietly. exact Hw2. }
  exists result, w'. split; [exact Hrun | exact Hout].
Qed.

End Facts.

Import WebFixtures.

Example getAssignments_fixes_on_read :
  let out := Web.getAssignments fixDeadline 1 healthy in
  fst out
  = inr [ mkAssignment 1 1 "lab1" "2024-09-01T23:59:00" 1
            [mkBenchmark 1 1 "Old design" [mkCriterion 1 1 "Old criterion"]];
          mkAssignment 2 1 "lab2" "2024-10-01T00:00:00" 2
            [mkBenchmark 2 2 "Other" [mkCriterion 2 2 "Other"]] ]
  /\ assignments (db (snd out)) = [lab1; lab2]
  /\ as_Deadline lab2 = "1. Oct 2024".
Proof. repeat split. Qed.

Lemma updateAssignments_idempotent_witness :
  let run1 := Web.updateAssignments fetch provider 1 healthy in
  let run2 := Web.updateAssignments fetch provider 1 (snd run1) in
  fst run1 = inr tt
  /\ db (snd run2) = db (snd run1)
  /\ (NoDup (map keyOf (assignments (db healthy))) ->
      NoDup (map keyOf (assignments (db (snd run1)))))
  /\ (exists extra,
        map keyOf (assignments (db (snd run1)))
        = (map keyOf (assignments (db healthy)) ++ extra)%list)
  /\ (noFault (snd run1) 2 -> fst run2 = inr tt).
Proof.
  split; [reflexivity |].
  apply (updateAssignments_idempotent fetch provider 1 healthy).
  reflexivity.
Defined.

Example updateAssignments_upserts :
  assignments (db (snd (Web.updateAssignments fetch provider 1 healthy)))
  = [ mkAssignment 1 1 "lab1" "2024-09-08T23:59:00" 1 [];
      lab2;
      mkAssignment 3 1 "lab3" "2024-10-01T23:59:00" 1 [] ].
Proof. reflexivity. Qed.

Lemma createReview_reviewer_cap_witness :
  let query := mkReview 0 2 "good" "" in
  let out := createReview query healthy in
  lookupSubmission (db healthy) (mkSubmission 2 0 []) = Some submission2_loaded
  /\ lookupAssignment (db healthy) (mkAssignment 2 0 "" "" 0 [])
     = Some lab2_loaded
  /\ N.of_nat (List.length (sb_Reviews submission2_loaded))
       < as_Reviewers lab2_loaded
  /\ noFault healthy 3
  /\ clock healthy = GoTime.mkTime 2024 9 3 12 30 0
  /\ exists review,
       fst out = inr review
       /\ rv_Edited review = "03 Sep 12:30"
       /\ rv_SubmissionID review = 2
       /\ rv_Feedback review = "good"
       /\ db (snd out)
          = set_reviews (db healthy) (reviews (db healthy) ++ [review])%list.
Proof.
  intros query out.
  assert (noFault healthy 3) as NF by (intros i _; reflexivity).
  assert (N.of_nat (List.length (sb_Reviews submission2_loaded))
            < as_Reviewers lab2_loaded) as Hlt by reflexivity.
  split; [reflexivity |]. split; [reflexivity |].
  split; [exact Hlt |]. split; [exact NF |]. split; [reflexivity |].
  destruct (createReview_reviewer_cap query healthy
              submission2_loaded lab2_loaded eq_refl eq_refl)
    as [_ Hbelow].
  destruct (Hbelow Hlt) as [Hok _].
  destruct (Hok NF) as (review & H1 & H2 & H3 & H4 & H5).
  exists review. split; [exact H1 |]. split.
  - rewrite H2; [reflexivity | simpl; lia ..].
  - split; [exact H3 |]. split; [exact H4 | exact H5].
Defined.

Example createReview_below_cap :
  fst (createReview (mkReview 0 2 "good" "") healthy)
  = inr (mkReview 3 2 "good" "03 Sep 12:30").
Proof. reflexivity. Qed.

Example createReview_at_cap :
  createReview (mkReview 0 1 "good" "") healthy
  = (inl (ErrAllReviewsCreated 1 "lab1" 1),
     mkWorld store 2 (faults healthy) [] noon).
Proof. reflexivity. Qed.

Lemma loadCriteria_replaces_rubric_witness :
  let out := Web.loadCriteria json join "tests" provider request healthy in
  lookupAssignment (db healthy) (mkAssignment 1 1 "" "" 0 [])
    = Some lab1_loaded
  /\ as_GradingBenchmarks lab1_loaded <> []
  /\ out = (inr imported, snd out)
  /\ stdout (snd out) = stdout healthy
  /\ db (snd out) = withRubric (withoutRubric (db healthy) lab1_loaded) imported
  /\ filter (fun r => gb_AssignmentID r =? as_ID lab1_loaded)
       (benchmarks (db (snd out)))
     = map benchmarkRow imported
  /\ (forall r s,
        In r (reviews (db (snd out))) -> In s (submissions (db healthy)) ->
        sb_AssignmentID s = as_ID lab1_loaded ->
        rv_SubmissionID r <> sb_ID s).
Proof.
  intros out.
  assert (lookupAssignment (db healthy) (mkAssignment 1 1 "" "" 0 [])
          = Some lab1_loaded) as H1 by (vm_compute; reflexivity).
  assert (as_GradingBenchmarks lab1_loaded <> []) as H2 by discriminate.
  assert (out = (inr imported, snd out)) as H3
    by (subst out; vm_compute; reflexivity).
  assert (stdout (snd out) = stdout healthy) as H4
    by (subst out; vm_compute; reflexivity).
  destruct (loadCriteria_replaces_rubric json join "tests" provider request
              healthy lab1_loaded imported (snd out) H1 H2 H3 H4)
    as (course & content & parsed & w0 & w1 & _ & _ & _ & _ & _ & _ & _
        & Hdb & _ & Hb & _ & Hr).
  repeat (split; [assumption |]). exact Hr.
Defined.

(** On the world whose third and fourth storage calls fail (the
    deletions of the old criterion and of the old benchmark),
    [loadCriteria] prints the two failures, goes on and returns the new
    rubric without an error, and the old benchmark and the old criterion of
    assignment 1 are still persisted next to the new ones. *)
Lemma loadCriteria_keeps_old_rubric_on_failed_delete :
  let out := Web.loadCriteria json join "tests" provider request flaky in
  lookupAssignment (db flaky) (mkAssignment 1 1 "" "" 0 []) = Some lab1_loaded
  /\ as_GradingBenchmarks lab1_loaded
     = [mkBenchmark 1 1 "Old design" [mkCriterion 1 1 "Old criterion"]]
  /\ fst out = inr imported
  /\ In (mkCriterion 1 1 "Old criterion") (criteria (db (snd out)))
  /\ filter (fun r => gb_AssignmentID r =? 1) (benchmarks (db (snd out)))
     = mkBenchmark 1 1 "Old design" [] :: map benchmarkRow imported
  /\ filter (fun r => gb_AssignmentID r =? 1) (benchmarks (db (snd out)))
     <> map benchmarkRow imported
  /\ stdout (snd out)
     = [ FailedToDeleteCriteria (mkCriterion 1 1 "Old criterion") ErrStorage;
         FailedToDeleteBenchmark
           (mkBenchmark 1 1 "Old design" [mkCriterion 1 1 "Old criterion"])
           ErrStorage ].
Proof.
  vm_compute. repeat (split; [reflexivity |]).
  split; [left; reflexivity |].
  repeat (split; [reflexivity |]).
  split; [discriminate | reflexivity].
Qed.

End WebFacts.

(* ===================================================================== *)
(** ** More properties of [ParseAssignments]                              *)
(* ===================================================================== *)

Module ParserMore.

Import Parser ParserFacts.

Section Facts.

Variable yaml_Unmarshal : string -> option assignmentData.
Variable unicode_ToLower : string -> string.

Abbreviation parseDescriptor :=
  (parseDescriptor yaml_Unmarshal unicode_ToLower).
Abbreviation collect := (collect yaml_Unmarshal unicode_ToLower).
Abbreviation ParseAssignments :=
  (ParseAssignments yaml_Unmarshal unicode_ToLower).
Abbreviation validDescriptor := (validDescriptor yaml_Unmarshal).
Abbreviation ToLower := (ToLower unicode_ToLower).



(** X2.  The error returned is that of the first descriptor file, in the order
    of the walk, that is not valid. *)
Theorem ParseAssignments_first_error (fs : FileSystem) (dir : string)
    (courseID : N) (root : node) (before after : list (option string))
    (c : option string) (e : error) :
  fs dir = inr root ->
  descriptors root = (before ++ c :: after)%list ->
  Forall validDescriptor before ->
  parseDescriptor courseID c = inl e ->
  ParseAssignments fs dir courseID = Returns ([], Some e).
Proof.
  intros Hroot Hd Hvalid Hc.
  rewrite (ParseAssignments_found yaml_Unmarshal unicode_ToLower
             _ _ courseID _ Hroot), Hd, collect_app.
  destruct (collect_valid yaml_Unmarshal unicode_ToLower courseID _ Hvalid [])
    as [r ->].
  simpl. rewrite Hc. reflexivity.
Qed.

(** X3.  The result depends on the tree only through the descriptor files the
    walk meets and their order: files of other names, directories of any
    name and directories that cannot be listed do not matter. *)
Theorem ParseAssignments_descriptors_only (fs1 fs2 : FileSystem)
    (dir1 dir2 : string) (courseID : N) (root1 root2 : node) :
  fs1 dir1 = inr root1 ->
  fs2 dir2 = inr root2 ->
  descriptors root1 = descriptors root2 ->
  ParseAssignments fs1 dir1 courseID = ParseAssignments fs2 dir2 courseID.
Proof.
  intros H1 H2 Hd.
  rewrite (ParseAssignments_found yaml_Unmarshal unicode_ToLower
             _ _ courseID _ H1),
          (ParseAssignments_found yaml_Unmarshal unicode_ToLower
             _ _ courseID _ H2), Hd.
  reflexivity.
Qed.

Lemma collect_In courseID l : forall acc r a,
  collect courseID l acc = inr r -> In a r ->
  In a acc \/ exists c, In c l /\ parseDescriptor courseID c = inr a.
Proof.
  intros acc r a H Hin. apply collect_ok in H as (l' & -> & HF).
  apply in_app_or in Hin as [Hin | Hin]; [left; exact Hin | right].
  induction HF as [| c a' cs l'' Hca _ IH]; [destruct Hin |].
  destruct Hin as [<- | Hin].
  - exists c. split; [left; reflexivity | exact Hca].
  - destruct (IH Hin) as (c' & Hc' & Hp). exists c'. split; [right |]; assumption.
Qed.

Lemma uint32_of_uint64 n : uint32 (uint64 n) = uint32 n.
Proof.
  unfold uint32, uint64.
  change (2 ^ 64)%N with (2 ^ 32 * 2 ^ 32)%N.
  rewrite N.Div0.mod_mul_r, N.mul_comm, N.Div0.mod_add.
  apply N.Div0.mod_mod.
Qed.

(** X4.  Every assignment returned belongs to the given course, has an [ID]
    below 2^64 and an [Order] that is its [ID] modulo 2^32, and has as its
    deadline a whole minute between 0001-01-01 and 9999-12-31, without
    nanoseconds. *)
Theorem ParseAssignments_fields (fs : FileSystem) (dir : string)
    (courseID : N) (l : list Assignment) (e : option error)
    (a : Assignment) :
  ParseAssignments fs dir courseID = Returns (l, e) ->
  In a l ->
  pb_Course_ID a = courseID
  /\ (pb_ID a < 2 ^ 64)%N
  /\ pb_Order a = (pb_ID a mod 2 ^ 32)%N
  /\ Nanos (pb_Deadline a) = 0%Z
  /\ (minValidSeconds <= Seconds (pb_Deadline a) < maxValidSeconds)%Z
  /\ (Seconds (pb_Deadline a) mod 60 = 0)%Z.
Proof.
  destruct (fs dir) as [err | root] eqn:Hroot.
  { unfold Parser.ParseAssignments, Parser.Walk. rewrite Hroot.
    destruct (os_IsNotExist err); [| discriminate].
    intros H. injection H as <- _. intros []. }
  rewrite (ParseAssignments_found yaml_Unmarshal unicode_ToLower
             _ _ courseID _ Hroot).
  destruct (collect courseID (descriptors root) []) as [e' | l'] eqn:Hc;
    intros H; injection H as <- _; [intros [] |].
  intros Hin.
  destruct (collect_In _ _ _ _ _ Hc Hin) as [[] | (c & _ & Hp)].
  destruct c as [source |]; [| discriminate].
  destruct (yaml_Unmarshal source) as [d |] eqn:Hy.
  2:{ unfold Parser.parseDescriptor, Parser.walkFn in Hp. simpl in Hp.
      rewrite Hy in Hp. discriminate. }
  destruct (parseDescriptor_fields yaml_Unmarshal unicode_ToLower _ _ _ _ Hy Hp)
    as (t & Ht & Hts & HID & HC & _ & _ & HO & _).
  rewrite (TimestampProto_parsed _ _ Ht) in Hts.
  destruct (GoTime.year t =? 0)%Z eqn:Hy0; [discriminate |].
  injection Hts as Hts.
  apply GoTimeFacts.Parse_range in Ht as (Hyr & Hm & Hd & Hh & Hmi & Hs).
  pose proof (GoTimeFacts.daysIn_le (GoTime.month t) (GoTime.year t)) as Hle.
  apply Z.eqb_neq in Hy0.
  pose proof (GoTimeFacts.daysFromCivil_range (GoTime.year t)
                (GoTime.month t) (GoTime.day t) ltac:(lia) Hm ltac:(lia))
    as [Hlo Hhi].
  rewrite <- Hts. simpl. unfold GoTime.Unix, minValidSeconds, maxValidSeconds.
  rewrite Hs.
  split; [exact HC |]. split.
  { rewrite HID. unfold uint64. apply N.mod_lt. discriminate. }
  split.
  { rewrite HO, HID. symmetry. apply uint32_of_uint64. }
  split; [reflexivity |]. split; [lia |].
  set (days := GoTime.daysFromCivil _ _ _).
  replace (days * 86400 + GoTime.hour t * 3600 + GoTime.minute t * 60 + 0)%Z
    with ((days * 1440 + GoTime.hour t * 60 + GoTime.minute t) * 60)%Z by lia.
  apply Z.mod_mul. discriminate.
Qed.

(** X5.  A descriptor whose deadline [time.Parse] accepts is turned into an
    assignment unless the year of the deadline is 0000, which
    [TimestampProto] rejects. *)
Theorem parseDescriptor_year_0000 (courseID : N) (source : string)
    (d : assignmentData) (t : GoTime.Time) :
  yaml_Unmarshal source = Some d ->
  GoTime.Parse (Deadline d) = Some t ->
  parseDescriptor courseID (Some source)
  = if (GoTime.year t =? 0)%Z then inl ErrTimestamp
    else inr {| pb_ID := uint64 (AssignmentID d);
                pb_Course_ID := courseID;
                pb_Deadline := mkTimestamp (GoTime.Unix t) 0;
                pb_Language := ToLower (Language d);
                pb_Name := Name d;
                pb_Order := uint32 (AssignmentID d);
                pb_AutoApprove := AutoApprove d;
                pb_IsGroupLab := IsGroupLab d |}.
Proof.
  intros Hy Ht. unfold Parser.parseDescriptor, Parser.walkFn. simpl.
  rewrite Hy, Ht, (TimestampProto_parsed _ _ Ht).
  destruct (GoTime.year t =? 0)%Z; reflexivity.
Qed.

End Facts.

Import Fixtures MoreFixtures.

Lemma ParseAssignments_first_error_witness :
  descriptors tests_lab13 = ([Some lab1_yml] ++ Some lab3_yml :: [])%list
  /\ Parser.parseDescriptor yaml unicodeLower 7 (Some lab3_yml)
     = inl ErrTimeParse
  /\ Parser.ParseAssignments yaml unicodeLower (checkout "tests" tests_lab13)
       "tests" 7 = Returns ([], Some ErrTimeParse).
Proof.
  split; [reflexivity |]. split; [reflexivity |].
  apply (ParseAssignments_first_error yaml unicodeLower
           (checkout "tests" tests_lab13) "tests" 7 tests_lab13
           [Some lab1_yml] [] (Some lab3_yml) ErrTimeParse).
  - reflexivity.
  - reflexivity.
  - constructor; [apply lab12_valid | constructor].
  - reflexivity.
Defined.

Lemma ParseAssignments_descriptors_only_witness :
  descriptors tests_lab1 = descriptors tests_lab1_busy
  /\ Parser.ParseAssignments yaml unicodeLower (checkout "tests" tests_lab1)
       "tests" 7
     = Parser.ParseAssignments yaml unicodeLower
         (checkout "checkout" tests_lab1_busy) "checkout" 7.
Proof.
  split; [reflexivity |].
  apply (ParseAssignments_descriptors_only yaml unicodeLower
           (checkout "tests" tests_lab1) (checkout "checkout" tests_lab1_busy)
           "tests" "checkout" 7 tests_lab1 tests_lab1_busy);
    reflexivity.
Defined.

Lemma ParseAssignments_fields_witness :
  let a := {| pb_ID := 4294967297; pb_Course_ID := 7;
              pb_Deadline := mkTimestamp 1728993600 0;
              pb_Language := "java"; pb_Name := "Lab 2"; pb_Order := 1;
              pb_AutoApprove := false; pb_IsGroupLab := true |} in
  Parser.ParseAssignments yaml unicodeLower
    (checkout "tests" tests_lab2) "tests" 7 = Returns ([a], None)
  /\ pb_Course_ID a = 7%N
  /\ (pb_ID a < 2 ^ 64)%N
  /\ pb_Order a = (pb_ID a mod 2 ^ 32)%N
  /\ Nanos (pb_Deadline a) = 0%Z
  /\ (minValidSeconds <= Seconds (pb_Deadline a) < maxValidSeconds)%Z
  /\ (Seconds (pb_Deadline a) mod 60 = 0)%Z.
Proof.
  intros a.
  assert (Parser.ParseAssignments yaml unicodeLower
            (checkout "tests" tests_lab2) "tests" 7 = Returns ([a], None))
    as Hrun by reflexivity.
  split; [exact Hrun |].
  exact (ParseAssignments_fields yaml unicodeLower
           (checkout "tests" tests_lab2) "tests" 7 [a] None a Hrun
           (or_introl eq_refl)).
Defined.

Lemma parseDescriptor_year_0000_witness :
  yaml4 lab0_yml = Some lab0_data
  /\ GoTime.Parse (Deadline lab0_data) = Some (GoTime.mkTime 0 12 24 18 0 0)
  /\ Parser.parseDescriptor yaml4 unicodeLower 7 (Some lab0_yml)
     = inl ErrTimestamp.
Proof.
  split; [reflexivity |]. split; [reflexivity |].
  apply (parseDescriptor_year_0000 yaml4 unicodeLower 7 lab0_yml lab0_data
           (GoTime.mkTime 0 12 24 18 0 0)); reflexivity.
Defined.

End ParserMore.

(* ===================================================================== *)
(** ** More properties of the GitLab client                               *)
(* ===================================================================== *)

Module ScmMoreFacts.

Import Scm ScmMore.

Local Open Scope Z_scope.

(** Reading a group id as [uint64] and back as [int] gives the id. *)
Lemma int_of_uint64_of_int (z : Z) :
  - 2 ^ 63 <= z < 2 ^ 63 -> int_of_uint64 (uint64_of_int z) = z.
Proof.
  intros Hz. unfold int_of_uint64, uint64_of_int.
  rewrite Z2N.id by (apply Z.mod_pos_bound; reflexivity).
  rewrite Z.mod_mod by discriminate.
  change (2 ^ 64) with 18446744073709551616 in *.
  change (2 ^ 63) with 9223372036854775808 in *.
  destruct (Z.ltb_spec (z mod 18446744073709551616) 9223372036854775808)
    as [H | H]; Z.to_euclidean_division_equations; lia.
Qed.

Lemma uint64_of_int_small (z : Z) :
  0 <= z < 2 ^ 64 -> Z.of_N (uint64_of_int z) = z.
Proof.
  intros Hz. unfold uint64_of_int. rewrite Z.mod_small by exact Hz.
  apply Z2N.id. lia.
Qed.

(** X6.  The directory [CreateDirectory] returns can be handed to
    [CreateRepository]: the project is then requested in the namespace
    whose id the server gave to the group, under the given path. *)
Theorem CreateRepository_in_created_directory
    (remote provider_error : Type)
    (groups : CreateGroupOptions -> remote -> (provider_error + Group) * remote)
    (projects :
       CreateProjectOptions -> remote -> (provider_error + Project) * remote)
    (opt : CreateDirectoryOptions) (path : string) (r r' : remote)
    (group : Group) (log : list CreateProjectOptions) :
  groups (createGroupRequest opt) r = (inr group, r') ->
  - 2 ^ 63 <= g_ID group < 2 ^ 63 ->
  exists dir,
    CreateDirectory _ _ groups opt r = (inr dir, r')
    /\ snd (snd (CreateRepository _ _ (recordingProjects _ _ projects)
                   (mkCreateRepositoryOptions path dir) (r', log)))
       = (log ++ [mkCreateProjectOptions (Some path) (Some (g_ID group))])%list.
Proof.
  intros Hg Hid. exists (directoryOfGroup group). split.
  - unfold CreateDirectory. rewrite Hg. reflexivity.
  - unfold CreateRepository, recordingProjects, createProjectRequest. simpl.
    rewrite (int_of_uint64_of_int _ Hid).
    destruct (projects _ r') as [[e | p] r'']; reflexivity.
Qed.

Lemma appendDirectories_map groups : forall acc,
  appendDirectories groups acc = (acc ++ map directoryOfGroup groups)%list.
Proof.
  induction groups as [| g groups IH]; intros acc; simpl.
  - rewrite app_nil_r. reflexivity.
  - rewrite IH, <- app_assoc. reflexivity.
Qed.

Lemma appendRepositories_map id repos : forall acc,
  appendRepositories id repos acc
  = (acc ++ map (repositoryOfProject id) repos)%list.
Proof.
  induction repos as [| p repos IH]; intros acc; simpl.
  - rewrite app_nil_r. reflexivity.
  - rewrite IH, <- app_assoc. reflexivity.
Qed.

(** X7.  [GetRepositories] returns the provider's error and no list, or one
    repository per project of the server's answer, in the same order and
    with the same paths, each attributed to the directory that was asked
    for. *)
Theorem GetRepositories_follows_server
    (remote provider_error : Type)
    (client : N -> remote -> (provider_error + list Project) * remote)
    (directory : Directory) (r : remote) :
  match client (d_ID directory) r with
  | (inl e, r') => GetRepositories _ _ client directory r = (inl e, r')
  | (inr repos, r') =>
      exists l,
        GetRepositories _ _ client directory r = (inr l, r')
        /\ List.length l = List.length repos
        /\ map r_Path l = map p_Path repos
        /\ Forall (fun x => r_DirectoryID x = d_ID directory) l
  end.
Proof.
  unfold GetRepositories.
  destruct (client (d_ID directory) r) as [[e | repos] r']; [reflexivity |].
  exists (map (repositoryOfProject (d_ID directory)) repos).
  rewrite appendRepositories_map. simpl.
  split; [reflexivity |]. split; [apply length_map |].
  split; [rewrite map_map; reflexivity |].
  apply Forall_forall. intros x Hx.
  apply in_map_iff in Hx as (p & <- & _). reflexivity.
Qed.

(** X8.  [ListDirectories] returns the provider's error and no list, or one
    directory per group of the server's answer, in the same order, with the
    group's path and avatar and, for a group id that is not negative, the
    group's id. *)
Theorem ListDirectories_follows_server
    (remote provider_error : Type)
    (client : remote -> (provider_error + list Group) * remote) (r : remote) :
  match client r with
  | (inl e, r') => ListDirectories _ _ client r = (inl e, r')
  | (inr groups, r') =>
      exists l,
        ListDirectories _ _ client r = (inr l, r')
        /\ map d_Path l = map g_Path groups
        /\ map d_Avatar l = map g_AvatarURL groups
        /\ Forall2 (fun g d =>
             0 <= g_ID g < 2 ^ 64 -> Z.of_N (d_ID d) = g_ID g) groups l
  end.
Proof.
  unfold ListDirectories.
  destruct (client r) as [[e | groups] r']; [reflexivity |].
  exists (map directoryOfGroup groups).
  rewrite appendDirectories_map. simpl.
  split; [reflexivity |]. split; [rewrite map_map; reflexivity |].
  split; [rewrite map_map; reflexivity |].
  induction groups as [| g groups IH]; cbn [map]; constructor; [| exact IH].
  intros Hg. apply uint64_of_int_small. exact Hg.
Qed.

Lemma CreateRepository_in_created_directory_witness :
  let opt := mkCreateDirectoryOptions "DAT320" "dat320" in
  let projects :=
    fun (o : CreateProjectOptions) (s : Server) =>
      (@inl ServerError Project PathTaken, s) in
  server_CreateGroup (createGroupRequest opt) []
  = (inr (mkGroup 1 "dat320" ""),
     [mkServerGroup 1 "dat320" (Some PublicVisibility)])
  /\ exists dir,
       CreateDirectory _ _ server_CreateGroup opt [] =
         (inr dir, [mkServerGroup 1 "dat320" (Some PublicVisibility)])
       /\ snd (snd (CreateRepository _ _ (recordingProjects _ _ projects)
                      (mkCreateRepositoryOptions "tests" dir)
                      ([mkServerGroup 1 "dat320" (Some PublicVisibility)], [])))
          = ([] ++ [mkCreateProjectOptions (Some "tests") (Some 1)])%list.
Proof.
  intros opt projects. split; [reflexivity |].
  apply (CreateRepository_in_created_directory Server ServerError
           server_CreateGroup projects opt "tests" []
           [mkServerGroup 1 "dat320" (Some PublicVisibility)]
           (mkGroup 1 "dat320" "") []).
  - reflexivity.
  - simpl. lia.
Defined.

End ScmMoreFacts.

(* ===================================================================== *)
(** ** More properties of the service facade                              *)
(* ===================================================================== *)

Module FacadeMoreFacts.

Import Facade FacadeMore.

Section Facts.

Variables (User Users Group Groups Course Submissions URLResponse Provider
           Void SCM : Type).
Variable RemoveRemoteID : User -> User.
Variable RemoveRemoteIDs_users : Users -> Users.
Variable RemoveRemoteIDs_group : Group -> Group.
Variable RemoveRemoteIDs_groups : Groups -> Groups.
Variable void : Void.
Variable ErrAlreadyExists_text : string.
Variable fmt_Sprintf : string -> string.

Abbreviation GetUser := (GetUser User RemoveRemoteID).
Abbreviation GetUsers := (GetUsers Users RemoveRemoteIDs_users).
Abbreviation UpdateUser := (UpdateUser User RemoveRemoteID).
Abbreviation GetGroup := (GetGroup User Group RemoveRemoteIDs_group).
Abbreviation GetGroups := (GetGroups Groups RemoveRemoteIDs_groups).
Abbreviation GetGroupByUserAndCourse :=
  (GetGroupByUserAndCourse Group RemoveRemoteIDs_group).
Abbreviation GetSubmissions := (GetSubmissions Submissions).
Abbreviation GetRepositoryURL := (GetRepositoryURL User URLResponse).
Abbreviation CreateCourse :=
  (CreateCourse User Course SCM ErrAlreadyExists_text fmt_Sprintf).
Abbreviation DeleteGroup := (DeleteGroup Void void).

Ltac hidden := unfold hides; simpl; repeat split; eauto.

(** X9.  When the function a method delegates to fails, [GetUser], [GetUsers],
    [UpdateUser], [GetGroups], [GetGroupByUserAndCourse],
    [GetSubmissions], [GetRepositoryURL], [GetGroup] and [GetCourse] log
    the failure and answer with no reply and a status error that is the
    same whatever the failure was.  [CreateCourse] does so for a failure of
    [NewCourse] other than the already-exists sentinel; a failure of
    [getUserAndSCM] it returns as it is, and does not log it. *)
Theorem facade_hides_failures (e e' : error) (usr : User) (group : Group)
    (isTeacher : User -> Group -> bool) (hasAccessG : Group -> bool)
    (other : error + User) (scm : SCM)
    (newCourse : User -> SCM -> NewCourseOutcome Course) :
  (hides e (GetUser true (inl e))
   /\ err (GetUser true (inl e)) = err (GetUser true (inl e')))
  /\ (hides e (GetUsers true (inl e))
      /\ err (GetUsers true (inl e)) = err (GetUsers true (inl e')))
  /\ (hides e (UpdateUser true (inl e))
      /\ err (UpdateUser true (inl e)) = err (UpdateUser true (inl e')))
  /\ (hides e (GetGroups true (inl e))
      /\ err (GetGroups true (inl e)) = err (GetGroups true (inl e')))
  /\ (hides e (GetGroupByUserAndCourse true (inl e))
      /\ err (GetGroupByUserAndCourse true (inl e))
         = err (GetGroupByUserAndCourse true (inl e')))
  /\ (hides e (GetSubmissions true (inl e))
      /\ err (GetSubmissions true (inl e))
         = err (GetSubmissions true (inl e')))
  /\ (hides e (GetRepositoryURL (inl e) (fun _ => inl e'))
      /\ hides e (GetRepositoryURL (inr usr) (fun _ => inl e))
      /\ err (GetRepositoryURL (inr usr) (fun _ => inl e))
         = err (GetRepositoryURL (inr usr) (fun _ => inl e')))
  /\ (hides e (GetGroup (inl e) other isTeacher hasAccessG)
      /\ hides e (GetGroup (inr group) (inl e) isTeacher hasAccessG)
      /\ err (GetGroup (inl e) other isTeacher hasAccessG)
         = err (GetGroup (inl e') other isTeacher hasAccessG))
  /\ (hides e (Facade.GetCourse Course (inl e))
      /\ err (Facade.GetCourse Course (inl e))
         = err (Facade.GetCourse Course (inl e')))
  /\ (hides e (CreateCourse (inr (usr, scm)) (fun _ _ => CourseFailed e))
      /\ err (CreateCourse (inr (usr, scm)) (fun _ _ => CourseFailed e))
         = err (CreateCourse (inr (usr, scm)) (fun _ _ => CourseFailed e'))
      /\ CreateCourse (inl e) newCourse = mkOutcome None (Some e) []).
Proof. repeat split; hidden. Qed.

(** X10.  When the access check of [GetUser], [GetUsers], [UpdateUser],
    [GetGroups], [GetGroupByUserAndCourse] or [GetSubmissions] fails, or
    the id given to [DeleteGroup] is 0, the answer is the permission-denied
    (invalid-argument) status whatever the delegated function would have
    returned, and nothing is logged. *)
Theorem facade_checks_first
    (user : error + User) (users : error + Users) (groups : error + Groups)
    (group : error + Group) (submissions : error + Submissions)
    (deleted : option error) :
  GetUser false user = denied "only admin can access another user"
  /\ GetUsers false users = denied "only admin can access other users"
  /\ UpdateUser false user = denied "only admin can access another user"
  /\ GetGroups false groups = denied "only admin can access other groups"
  /\ GetGroupByUserAndCourse false group
     = denied "only admin can access another group"
  /\ GetSubmissions false submissions
     = denied "only members, teachers or admin can access submissions"
  /\ DeleteGroup 0 deleted
     = mkOutcome None (Some (StatusError InvalidArgument "invalid payload")) []
  /\ (forall id, id <> 0%N ->
        DeleteGroup id deleted = mkOutcome (Some void) deleted []).
Proof.
  repeat split. intros id Hid. unfold FacadeMore.DeleteGroup.
  destruct (N.ltb_spec id 1) as [H | H]; [lia | reflexivity].
Qed.

(** X11.  [GetGroup] looks the group up before it checks the caller: a caller
    who is neither a teacher of the course nor a member is told
    not-found for a group that does not exist and permission-denied for
    one that does. *)
Theorem GetGroup_reveals_existence (e : error) (usr : User) (group : Group)
    (isTeacher : User -> Group -> bool) (hasAccessG : Group -> bool) :
  isTeacher usr group = false ->
  hasAccessG group = false ->
  err (GetGroup (inl e) (inr usr) isTeacher hasAccessG)
    = Some (StatusError NotFound "failed to get group")
  /\ err (GetGroup (inr group) (inr usr) isTeacher hasAccessG)
     = Some (StatusError PermissionDenied
               "only members, teachers or admin can access a group")
  /\ reply (GetGroup (inr group) (inr usr) isTeacher hasAccessG) = None.
Proof.
  intros Ht Ha. unfold FacadeMore.GetGroup, hiding. rewrite Ht, Ha.
  repeat split.
Qed.

(** X12.  The methods that return data return a reply or an error, never both
    and never neither. *)
Theorem facade_reply_xor_error
    (b : bool) (user : error + User) (users : error + Users)
    (groups : error + Groups) (group : error + Group)
    (submissions : error + Submissions)
    (url : User -> error + URLResponse) (course : error + Course)
    (userAndSCM : error + User * SCM)
    (newCourse : User -> SCM -> NewCourseOutcome Course)
    (providers : list Provider)
    (isTeacher : User -> Group -> bool) (hasAccessG : Group -> bool)
    (createGroup : User -> error + Group) :
  replyXorError (GetUser b user)
  /\ replyXorError (GetUsers b users)
  /\ replyXorError (UpdateUser b user)
  /\ replyXorError (GetGroups b groups)
  /\ replyXorError (GetGroupByUserAndCourse b group)
  /\ replyXorError (GetSubmissions b submissions)
  /\ replyXorError (GetRepositoryURL user url)
  /\ replyXorError (GetGroup group user isTeacher hasAccessG)
  /\ replyXorError (Facade.GetCourse Course course)
  /\ replyXorError (CreateCourse userAndSCM newCourse)
  /\ replyXorError (FacadeMore.GetProviders Provider providers)
  /\ replyXorError (Facade.CreateGroup User Group RemoveRemoteIDs_group
                      user createGroup).
Proof.
  repeat split;
    unfold replyXorError, FacadeMore.GetUser, FacadeMore.GetUsers,
      FacadeMore.UpdateUser, FacadeMore.GetGroups,
      FacadeMore.GetGroupByUserAndCourse, FacadeMore.GetSubmissions,
      FacadeMore.GetRepositoryURL, FacadeMore.GetGroup, Facade.GetCourse,
      FacadeMore.CreateCourse, FacadeMore.GetProviders, Facade.CreateGroup,
      hiding, denied;
    repeat match goal with
           | |- context [negb ?x] => destruct x; simpl
           | |- context [match ?x with _ => _ end] => destruct x; simpl
           | |- context [if ?x then _ else _] => destruct x; simpl
           end;
    try discriminate; try congruence;
    intros H; exfalso; apply H; reflexivity.
Qed.

End Facts.

Lemma GetGroup_reveals_existence_witness :
  let isTeacher := fun (_ : nat) (_ : string) => false in
  let hasAccessG := fun (_ : string) => false in
  err (FacadeMore.GetGroup nat string (fun g => g)
         (inl (PlainError "record not found")) (inr 7) isTeacher hasAccessG)
    = Some (StatusError NotFound "failed to get group")
  /\ err (FacadeMore.GetGroup nat string (fun g => g)
            (inr "group 1") (inr 7) isTeacher hasAccessG)
     = Some (StatusError PermissionDenied
               "only members, teachers or admin can access a group")
  /\ reply (FacadeMore.GetGroup nat string (fun g => g)
              (inr "group 1") (inr 7) isTeacher hasAccessG) = None.
Proof.
  intros isTeacher hasAccessG.
  apply (GetGroup_reveals_existence nat string (fun g => g)
           (PlainError "record not found") 7 "group 1" isTeacher hasAccessG);
    reflexivity.
Defined.

End FacadeMoreFacts.

(* ===================================================================== *)
(** ** More properties of the assignment, rubric and review methods       *)
(* ===================================================================== *)

Module WebMoreFacts.

Import Web WebFacts WebMore.

Local Open Scope N_scope.

(** *** Generated keys *)

Lemma le_fold_max ids id : In id ids -> id <= fold_right N.max 0 ids.
Proof.
  induction ids as [| x ids IH]; intros H; [destruct H |]. simpl.
  destruct H as [-> | H]; [lia | specialize (IH H); lia].
Qed.

Lemma freshID_fresh ids : ~ In (freshID ids) ids.
Proof.
  intros H. apply le_fold_max in H. unfold freshID in H. lia.
Qed.

(** *** [createBenchmark] *)

(** X13.  [createBenchmark] persists nothing for an assignment the storage does
    not find: it returns an error and leaves every table as it was. *)
Theorem createBenchmark_unknown_assignment (query : GradingBenchmark)
    (w : World) :
  lookupAssignment (db w)
    (mkAssignment (gb_AssignmentID query) 0 "" "" 0 []) = None ->
  let out := createBenchmark query w in
  (exists e, fst out = inl e) /\ db (snd out) = db w.
Proof.
  intros Hnone out. subst out.
  unfold createBenchmark, GormDB.GetAssignment, GormDB.CreateBenchmark,
    bind, storage. simpl. rewrite Hnone.
  destruct (faults w (tick w)); simpl; split; eauto.
Qed.

(** X14.  For an assignment the storage finds by a non-zero id, when the two
    storage calls go through, [createBenchmark] persists the benchmark
    under a key no benchmark had, and loading the assignment again returns
    its earlier benchmarks followed by the new one. *)
Theorem createBenchmark_then_loaded (query : GradingBenchmark) (w : World)
    (a : Assignment) :
  let q := mkAssignment (gb_AssignmentID query) 0 "" "" 0 [] in
  let out := createBenchmark query w in
  lookupAssignment (db w) q = Some a ->
  gb_AssignmentID query <> 0 ->
  noFault w 2 ->
  exists bm,
    fst out = inr bm
    /\ gb_AssignmentID bm = gb_AssignmentID query
    /\ gb_Heading bm = gb_Heading query
    /\ ~ In (gb_ID bm) (map gb_ID (benchmarks (db w)))
    /\ benchmarks (db (snd out))
       = (benchmarks (db w) ++ [benchmarkRow bm])%list
    /\ exists a',
         lookupAssignment (db (snd out)) q = Some a'
         /\ as_GradingBenchmarks a'
            = (as_GradingBenchmarks a
               ++ [preloadBenchmark (db w) (benchmarkRow bm)])%list.
Proof.
  intros q out Ha Hid NF. subst out.
  unfold createBenchmark, GormDB.GetAssignment, GormDB.CreateBenchmark,
    bind, storage. simpl.
  pose proof (NF 0%nat ltac:(lia)) as N0.
  pose proof (NF 1%nat ltac:(lia)) as N1.
  rewrite Nat.add_0_r in N0. rewrite Nat.add_1_r in N1.
  rewrite N0. fold q. rewrite Ha. simpl. rewrite N1. simpl.
  eexists. split; [reflexivity |]. simpl.
  split; [reflexivity |]. split; [reflexivity |].
  split; [apply freshID_fresh |]. split; [reflexivity |].
  unfold lookupAssignment in *. simpl.
  destruct (find (matchesAssignment q) (assignments (db w))) as [row |] eqn:Hf;
    [| discriminate].
  simpl in Ha. injection Ha as <-. eexists. split; [reflexivity |].
  unfold preloadAssignment. simpl.
  apply find_some in Hf as [_ Hm]. unfold matchesAssignment in Hm. simpl in Hm.
  apply andb_true_iff in Hm as [Hm _].
  apply orb_true_iff in Hm as [Hm | Hm];
    [apply N.eqb_eq in Hm; congruence |].
  apply N.eqb_eq in Hm.
  rewrite filter_app, map_app. simpl. rewrite Hm, N.eqb_refl. simpl.
  reflexivity.
Qed.

(** *** [createReview] *)

(** A lookup by a more specific example finds the row a lookup by a less
    specific one found, when that row fits it. *)
Lemma find_narrower {A} (p q : A -> bool) (l : list A) (x : A) :
  (forall z, q z = true -> p z = true) ->
  find p l = Some x -> q x = true -> find q l = Some x.
Proof.
  intros Hqp. induction l as [| h l IH]; simpl; [discriminate |].
  destruct (p h) eqn:Hp.
  - intros H Hq. injection H as ->. rewrite Hq. reflexivity.
  - intros H Hq. destruct (q h) eqn:Hqh.
    + rewrite (Hqp h Hqh) in Hp. discriminate.
    + apply IH; assumption.
Qed.

(** The runs of [createReview]: an error and the storage as it was, or a
    new last row in the reviews after the cap has been checked. *)
Lemma createReview_run (query : Review) (w : World) :
  let out := createReview query w in
  db (snd out) = db w
  \/ exists s a r,
       lookupSubmission (db w) (mkSubmission (rv_SubmissionID query) 0 [])
         = Some s
       /\ lookupAssignment (db w)
            (mkAssignment (sb_AssignmentID s) 0 "" "" 0 []) = Some a
       /\ N.of_nat (List.length (sb_Reviews s)) < as_Reviewers a
       /\ rv_SubmissionID r = rv_SubmissionID query
       /\ db (snd out) = set_reviews (db w) (reviews (db w) ++ [r])%list.
Proof.
  intros out. subst out.
  unfold createReview, GormDB.GetSubmission, GormDB.GetAssignment,
    GormDB.CreateReview, time_Now, bind, storage, fail. simpl.
  destruct (faults w (tick w)); simpl; [left; reflexivity |].
  destruct (lookupSubmission (db w) _) as [s |] eqn:Hs; simpl;
    [| left; reflexivity].
  destruct (faults w (S (tick w))); simpl; [left; reflexivity |].
  destruct (lookupAssignment (db w) _) as [a |] eqn:Ha; simpl;
    [| left; reflexivity].
  destruct (Z.of_N (as_Reviewers a) <=? Z.of_nat (List.length (sb_Reviews s)))%Z
    eqn:Hcap; simpl; [left; reflexivity |].
  destruct (faults w (S (S (tick w)))); simpl; [left; reflexivity |].
  right. apply Z.leb_gt in Hcap. exists s, a. eexists.
  split; [reflexivity |]. split; [exact Ha |]. split; [lia |].
  split; [| reflexivity]. reflexivity.
Qed.

(** X15.  [createReview] keeps the reviewer cap: if no submission has more
    reviews than its assignment allows, that is still so after any call,
    whatever its outcome. *)
Theorem createReview_keeps_cap (query : Review) (w : World) :
  withinCap (db w) -> withinCap (db (snd (createReview query w))).
Proof.
  intros Hinv.
  destruct (createReview_run query w)
    as [-> | (s0 & a0 & r & Hs0 & Ha0 & Hlt & Hr & ->)]; [exact Hinv |].
  intros id s a Hs Ha.
  unfold lookupSubmission in Hs, Hs0. simpl in Hs.
  destruct (find (matchesSubmission (mkSubmission id 0 []))
              (submissions (db w))) as [row |] eqn:Hrow; [| discriminate].
  simpl in Hs. injection Hs as <-.
  change (lookupAssignment (db w)
            (mkAssignment (sb_AssignmentID row) 0 "" "" 0 []) = Some a) in Ha.
  simpl. rewrite filter_app, length_app. simpl.
  destruct (rv_SubmissionID r =? sb_ID row) eqn:E; simpl.
  - apply N.eqb_eq in E. rewrite Hr in E.
    assert (find (matchesSubmission (mkSubmission (rv_SubmissionID query) 0 []))
              (submissions (db w)) = Some row) as Hsame.
    { apply (find_narrower (matchesSubmission (mkSubmission id 0 []))).
      - intros z Hz. apply find_some in Hrow as [_ Hm].
        unfold matchesSubmission in *. simpl in *.
        rewrite andb_true_r in *.
        apply orb_true_iff in Hm as [Hm | Hm].
        + rewrite Hm. reflexivity.
        + apply N.eqb_eq in Hm. rewrite Hm, <- E. exact Hz.
      - exact Hrow.
      - unfold matchesSubmission. simpl. rewrite E, N.eqb_refl.
        rewrite orb_true_r. reflexivity. }
    rewrite Hsame in Hs0. simpl in Hs0. injection Hs0 as <-.
    simpl in Ha0, Hlt. rewrite Ha in Ha0. injection Ha0 as <-.
    lia.
  - rewrite Nat.add_0_r.
    apply (Hinv id (preloadSubmission (db w) row) a).
    + unfold lookupSubmission. rewrite Hrow. reflexivity.
    + exact Ha.
Qed.

(** *** [updateAssignments] *)

Section Facts.

Variable FixDeadline : string -> string.
Variable FetchAssignments : SCM -> Course -> error + list Assignment.
Variable json_Unmarshal : string -> option (list GradingBenchmark).
Variable filepath_Join : string -> string -> string.
Variable TestsRepo : string.

Abbreviation updateAssignments := (updateAssignments FetchAssignments).
Abbreviation loadCriteria :=
  (loadCriteria json_Unmarshal filepath_Join TestsRepo).

(** X16.  [updateAssignments] writes the assignments table only, and only when
    it returns no error.  A run that returns an error (no course, a failed
    fetch, a storage failure) leaves every table as it was; a run that
    returns none has found the course, has fetched its assignments and has
    left the table as the upsert of what was fetched. *)
Theorem updateAssignments_outcome (sc : SCM) (courseID : N) (w : World) :
  let out := updateAssignments sc courseID w in
  (exists rows, db (snd out) = set_assignments (db w) rows)
  /\ match fst out with
     | inl _ => db (snd out) = db w
     | inr _ =>
         exists course fetched,
           lookupCourse (db w) courseID = Some course
           /\ FetchAssignments sc course = inr fetched
           /\ assignments (db (snd out))
              = upsertAll fetched (assignments (db w))
     end.
Proof.
  intros out. subst out.
  unfold Web.updateAssignments, GormDB.GetCourse, GormDB.UpdateAssignments,
    bind, lift, storage. simpl.
  assert (db w = set_assignments (db w) (assignments (db w))) as Hsame
    by (destruct (db w); reflexivity).
  destruct (faults w (tick w)); simpl; [eauto |].
  destruct (lookupCourse (db w) courseID) as [course |]; simpl; [| eauto].
  destruct (FetchAssignments sc course) as [e | l] eqn:Hl; simpl; [eauto |].
  destruct (faults w (S (tick w))); simpl; [eauto |].
  split; [eauto |]. exists course, l. conjs. exact Hl.
Qed.

(** *** [loadCriteria] *)

(** *** Relations every step keeps *)

Section Keeps.

Variable R : DB -> DB -> Prop.
Hypothesis R_refl : forall d, R d d.
Hypothesis R_trans : forall d1 d2 d3, R d1 d2 -> R d2 d3 -> R d1 d3.

Lemma keeps_ret {A} (a : A) : keeps R (ret a).
Proof. intros w. apply R_refl. Qed.

Lemma keeps_lift {A} (r : error + A) : keeps R (lift r).
Proof. intros w. apply R_refl. Qed.

Lemma keeps_bind {A B} (m : M A) (k : A -> M B) :
  keeps R m -> (forall a, keeps R (k a)) -> keeps R (bind m k).
Proof.
  intros Hm Hk w. unfold bind. specialize (Hm w).
  destruct (m w) as [[e | a] w1]; simpl in *; [exact Hm |].
  eapply R_trans; [exact Hm | apply Hk].
Qed.

Lemma keeps_storage {A} (f : DB -> error + A * DB) :
  (forall d a d', f d = inr (a, d') -> R d d') -> keeps R (storage f).
Proof.
  intros Hf w. unfold storage.
  destruct (faults w (tick w)); simpl; [apply R_refl |].
  destruct (f (db w)) as [e | [a d']] eqn:E; simpl; [apply R_refl |].
  apply (Hf _ _ _ E).
Qed.

Lemma keeps_read {A} (g : DB -> error + A) :
  keeps R (storage (fun d => match g d with
                             | inl e => inl e
                             | inr a => inr (a, d)
                             end)).
Proof.
  apply keeps_storage. intros d a d' H.
  destruct (g d); [discriminate |]. injection H as _ <-. apply R_refl.
Qed.

Lemma keeps_orPrint (m : M unit) line : keeps R m -> keeps R (orPrint m line).
Proof.
  intros Hm w. unfold orPrint, Printf. specialize (Hm w).
  destruct (m w) as [[e | []] w1]; simpl in *; exact Hm.
Qed.

Lemma keeps_forEach {A} (body : A -> M unit) (l : list A) :
  (forall x, In x l -> keeps R (body x)) -> keeps R (forEach l body).
Proof.
  induction l as [| x l IH]; intros Hbody; simpl.
  - apply keeps_ret.
  - apply keeps_bind; [apply Hbody; left; reflexivity | intros _].
    apply IH. intros y Hy. apply Hbody. right. exact Hy.
Qed.

Lemma keeps_forEachUpdate {A} (body : A -> M A) (l : list A) :
  (forall x, keeps R (body x)) -> keeps R (forEachUpdate l body).
Proof.
  intros Hbody. induction l as [| x l IH]; simpl.
  - apply keeps_ret.
  - apply keeps_bind; [apply Hbody | intros x'].
    apply keeps_bind; [exact IH | intros l'; apply keeps_ret].
Qed.

End Keeps.

Lemma spares_refl d : spares d d.
Proof. unfold spares. conjs. apply incl_refl. Qed.

Lemma spares_trans d1 d2 d3 : spares d1 d2 -> spares d2 d3 -> spares d1 d3.
Proof.
  intros (A1 & B1 & C1 & D1) (A2 & B2 & C2 & D2).
  unfold spares. conjs; try congruence. eapply incl_tran; eassumption.
Qed.

(** The submissions [GetSubmissions] finds for an assignment depend on
    the submissions table only. *)
Lemma submissionIDs_filter d a :
  submissionIDs d a
  = map sb_ID (filter (matchesSubmission (mkSubmission 0 (as_ID a) []))
                 (submissions d)).
Proof.
  unfold submissionIDs, selectSubmissions. rewrite map_map. reflexivity.
Qed.

Lemma submissionIDs_same d d' a :
  submissions d' = submissions d -> submissionIDs d' a = submissionIDs d a.
Proof. intros H. rewrite !submissionIDs_filter, H. reflexivity. Qed.

Lemma confined_refl a d : confined a d d.
Proof.
  unfold confined. conjs; try apply incl_refl; intros; assumption.
Qed.

Lemma confined_trans a d1 d2 d3 :
  confined a d1 d2 -> confined a d2 d3 -> confined a d1 d3.
Proof.
  intros (A1 & B1 & C1 & D1 & E1 & F1 & G1 & H1 & I1)
         (A2 & B2 & C2 & D2 & E2 & F2 & G2 & H2 & I2).
  unfold confined. conjs; try congruence;
    try (eapply incl_tran; eassumption).
  - intros b Hb Hn. apply G2; [apply G1 |]; assumption.
  - intros c Hc Hn. apply H2; [apply H1 |]; assumption.
  - intros r Hr Hn. apply I2; [apply I1; assumption |].
    rewrite (submissionIDs_same _ _ a C1). exact Hn.
Qed.

Lemma In_filter_neq {A} (key : A -> N) (id : N) (x : A) (l : list A) :
  In x l -> key x <> id -> In x (filter (fun r => negb (key r =? id)) l).
Proof.
  intros Hx Hne. apply filter_In. split; [exact Hx |].
  apply negb_true_iff, N.eqb_neq. exact Hne.
Qed.

Lemma incl_filter {A} (p : A -> bool) (l : list A) : incl (filter p l) l.
Proof. intros x Hx. apply filter_In in Hx. apply Hx. Qed.

(** The three deletions, for a row of the loaded rubric and a submission
    of the assignment. *)
Lemma confined_DeleteCriterion a bm c :
  In bm (as_GradingBenchmarks a) -> In c (gb_Criteria bm) ->
  keeps (confined a) (GormDB.DeleteCriterion c).
Proof.
  intros Hbm Hc. apply keeps_storage; [apply confined_refl |].
  intros d x d' H. injection H as _ <-. unfold confined. simpl.
  conjs; try apply incl_refl; try (intros; assumption).
  - apply incl_filter.
  - intros c0 Hc0 Hn. apply (In_filter_neq gc_ID); [exact Hc0 |].
    intros E. apply Hn. unfold oldCriterionIDs. apply in_flat_map.
    exists bm. split; [exact Hbm |]. rewrite E. apply in_map. exact Hc.
Qed.

Lemma confined_DeleteBenchmark a bm :
  In bm (as_GradingBenchmarks a) ->
  keeps (confined a) (GormDB.DeleteBenchmark bm).
Proof.
  intros Hbm. apply keeps_storage; [apply confined_refl |].
  intros d x d' H. injection H as _ <-. unfold confined. simpl.
  conjs; try apply incl_refl; try (intros; assumption).
  - apply incl_filter.
  - intros b Hb Hn. apply (In_filter_neq gb_ID); [exact Hb |].
    intros E. apply Hn. unfold oldBenchmarkIDs. rewrite E.
    apply in_map. exact Hbm.
Qed.

Lemma confined_DeleteReview a id d :
  In id (submissionIDs d a) ->
  confined a d
    (set_reviews d
       (filter (fun r => negb (rv_SubmissionID r =? id)) (reviews d))).
Proof.
  intros Hid. unfold confined. simpl.
  conjs; try apply incl_refl; try (intros; assumption).
  - apply incl_filter.
  - intros r Hr Hn. apply (In_filter_neq rv_SubmissionID); [exact Hr |].
    intros E. apply Hn. rewrite E. exact Hid.
Qed.

(** The loop over the submissions, for submissions of the assignment. *)
Lemma confined_deleteReviews a subs : forall w,
  (forall s, In s subs -> In (sb_ID s) (submissionIDs (db w) a)) ->
  confined a (db w)
    (db (snd (forEach subs (fun submission =>
                GormDB.DeleteReview (mkReview 0 (sb_ID submission) "" "")) w))).
Proof.
  induction subs as [| s subs IH]; intros w Hsubs; simpl.
  - apply confined_refl.
  - unfold bind at 1, GormDB.DeleteReview at 1, storage at 1.
    destruct (faults w (tick w)); simpl; [apply confined_refl |].
    eapply confined_trans.
    + apply (confined_DeleteReview a (sb_ID s) (db w)).
      apply Hsubs. left. reflexivity.
    + match goal with |- confined a ?d (db (snd (forEach _ _ ?w1))) =>
        change d with (db w1)
      end.
      apply IH. intros s' Hs'. simpl.
      rewrite (submissionIDs_same (db w) _ a) by reflexivity.
      apply Hsubs. right. exact Hs'.
Qed.

(** X20.  On every run, also one that fails half way, [removeOldCriteriaAndReviews]
    adds nothing and deletes nothing but benchmarks and criteria of the
    rubric loaded with the assignment and reviews of the submissions of the
    assignment; courses, assignments and submissions stay as they were. *)
Theorem removeOldCriteriaAndReviews_confined (a : Assignment) (w : World) :
  confined a (db w) (db (snd (removeOldCriteriaAndReviews a w))).
Proof.
  unfold removeOldCriteriaAndReviews. unfold bind at 1.
  match goal with |- context [forEach (as_GradingBenchmarks a) ?body w] =>
    assert (keeps (confined a) (forEach (as_GradingBenchmarks a) body)) as H1
  end.
  { apply keeps_forEach;
      [apply confined_refl | apply confined_trans |].
    intros bm Hbm.
    apply keeps_bind; [apply confined_trans | |].
    - apply keeps_forEach; [apply confined_refl | apply confined_trans |].
      intros c Hc. apply keeps_orPrint.
      apply (confined_DeleteCriterion a bm c Hbm Hc).
    - intros _. apply keeps_orPrint.
      apply (confined_DeleteBenchmark a bm Hbm). }
  specialize (H1 w).
  match goal with |- context [forEach (as_GradingBenchmarks a) ?body w] =>
    destruct (forEach (as_GradingBenchmarks a) body w) as [[e | []] w1]
  end; simpl in *; [exact H1 |].
  eapply confined_trans; [exact H1 |].
  unfold bind at 1, GormDB.GetSubmissions at 1, storage at 1.
  destruct (faults w1 (tick w1)); simpl; [apply confined_refl |].
  match goal with |- confined a ?d (db (snd (forEach _ _ ?w2))) =>
    change d with (db w2)
  end.
  apply confined_deleteReviews. intros s Hs. simpl.
  unfold submissionIDs. apply in_map. exact Hs.
Qed.

(** The calls of [loadCriteria] spare the other tables. *)
Ltac spared :=
  apply keeps_storage; [apply spares_refl |]; intros d ? d' H;
  repeat match type of H with
         | context [match ?x with _ => _ end] => destruct x
         end;
  try discriminate; injection H as <- <-; unfold spares; simpl;
  conjs; try apply incl_refl.

Lemma spares_removeOld a : keeps spares (removeOldCriteriaAndReviews a).
Proof.
  unfold removeOldCriteriaAndReviews.
  apply keeps_bind; [apply spares_trans | |].
  - apply keeps_forEach; [apply spares_refl | apply spares_trans |].
    intros bm _.
    apply keeps_bind; [apply spares_trans | |].
    + apply keeps_forEach; [apply spares_refl | apply spares_trans |].
      intros c _. apply keeps_orPrint.
      unfold GormDB.DeleteCriterion. spared.
    + intros _. apply keeps_orPrint. unfold GormDB.DeleteBenchmark. spared.
  - intros _.
    apply keeps_bind; [apply spares_trans | |].
    + unfold GormDB.GetSubmissions. spared.
    + intros subs.
      apply keeps_forEach; [apply spares_refl | apply spares_trans |].
      intros s _. unfold GormDB.DeleteReview.
      apply keeps_storage; [apply spares_refl |].
      intros d ? d' H. injection H as <- <-. unfold spares. simpl.
      conjs. apply incl_filter.
Qed.

Lemma spares_createBenchmarkWithCriteria a bm :
  keeps spares (createBenchmarkWithCriteria a bm).
Proof.
  unfold createBenchmarkWithCriteria.
  apply keeps_bind; [apply spares_trans | |].
  - unfold GormDB.CreateBenchmark. spared.
  - intros bm'.
    apply keeps_bind; [apply spares_trans | |].
    + apply keeps_forEachUpdate; [apply spares_refl | apply spares_trans |].
      intros c. unfold GormDB.CreateCriterion. spared.
    + intros cs. apply keeps_ret. apply spares_refl.
Qed.

(** A failed step ends a sequence; a step that went through hands its
    result on. *)
Lemma bind_inl {A B} (m : M A) (k : A -> M B) w e :
  fst (m w) = inl e -> bind m k w = (inl e, snd (m w)).
Proof.
  unfold bind. destruct (m w) as [[e' | a] w1]; simpl; congruence.
Qed.

Lemma bind_inr {A B} (m : M A) (k : A -> M B) w a :
  fst (m w) = inr a -> bind m k w = k a (snd (m w)).
Proof.
  unfold bind. destruct (m w) as [[e' | a'] w1]; simpl; congruence.
Qed.

(** [getAssignmentWithCourse] only reads: it fails, or returns the
    assignment the storage finds for the query and the course of that
    assignment. *)
Lemma getAssignmentWithCourse_run (query : Assignment) (b : bool) (w : World) :
  let out := getAssignmentWithCourse query b w in
  db (snd out) = db w
  /\ stdout (snd out) = stdout w
  /\ ((exists e, fst out = inl e)
      \/ exists a c,
           fst out = inr (a, c)
           /\ lookupAssignment (db w) query = Some a
           /\ lookupCourse (db w) (as_CourseID a) = Some c).
Proof.
  intros out. subst out.
  unfold getAssignmentWithCourse, GormDB.GetAssignment, GormDB.GetCourse,
    bind, storage, ret. simpl.
  destruct (faults w (tick w)); simpl; [eauto |].
  destruct (lookupAssignment (db w) query) as [a |]; simpl; [| eauto].
  destruct (faults w (S (tick w))); simpl; [eauto |].
  destruct (lookupCourse (db w) (as_CourseID a)) as [c |] eqn:Hc; simpl;
    [| eauto].
  split; [reflexivity |]. split; [reflexivity |]. right.
  exists a, c. split; [reflexivity |]. split; [reflexivity | exact Hc].
Qed.

(** X17.  Whatever its outcome, [loadCriteria] leaves the courses, the
    assignments and the submissions as they were and creates no review:
    every review left was there before. *)
Theorem loadCriteria_spares_other_tables (sc : SCM)
    (request : LoadCriteriaRequest) (w : World) :
  spares (db w) (db (snd (loadCriteria sc request w))).
Proof.
  revert w. change (keeps spares (loadCriteria sc request)).
  unfold Web.loadCriteria, getAssignmentWithCourse.
  apply keeps_bind; [apply spares_trans | |].
  - apply keeps_bind; [apply spares_trans | |].
    + unfold GormDB.GetAssignment. spared.
    + intros a.
      apply keeps_bind; [apply spares_trans | |].
      * unfold GormDB.GetCourse. spared.
      * intros c. apply keeps_ret. apply spares_refl.
  - intros ac.
    apply keeps_bind; [apply spares_trans | |];
      [apply keeps_lift; apply spares_refl |].
    intros content.
    apply keeps_bind; [apply spares_trans | |];
      [apply keeps_lift; apply spares_refl |].
    intros parsed.
    apply keeps_bind; [apply spares_trans | |].
    + destruct (0 <? List.length (as_GradingBenchmarks (fst ac)))%nat.
      * apply spares_removeOld.
      * apply keeps_ret. apply spares_refl.
    + intros _.
      apply keeps_forEachUpdate; [apply spares_refl | apply spares_trans |].
      intros bm. apply spares_createBenchmarkWithCriteria.
Qed.

(** X18.  Unless the assignment, its course and the criteria file are found and
    the file decodes, [loadCriteria] returns an error without having
    deleted, written or printed anything: the old rubric is only removed
    once the new one has been decoded. *)
Theorem loadCriteria_decodes_before_deleting (sc : SCM)
    (request : LoadCriteriaRequest) (w : World) :
  (forall a course content,
     lookupAssignment (db w)
       (mkAssignment (lc_AssignmentID request) (lc_CourseID request)
          "" "" 0 []) = Some a ->
     lookupCourse (db w) (as_CourseID a) = Some course ->
     GetFileContent sc
       {| fo_Path := filepath_Join (as_Name a) criteriaFile;
          fo_Owner := co_OrganizationPath course;
          fo_Repository := TestsRepo |} = inr content ->
     json_Unmarshal content = None) ->
  let out := loadCriteria sc request w in
  db (snd out) = db w
  /\ stdout (snd out) = stdout w
  /\ exists e, fst out = inl e.
Proof.
  intros Hbad out. subst out. unfold Web.loadCriteria.
  destruct (getAssignmentWithCourse_run
              (mkAssignment (lc_AssignmentID request) (lc_CourseID request)
                 "" "" 0 []) false w)
    as (Hdb & Hout & [[e He] | (a & c & Hac & Ha & Hc)]).
  - match goal with |- context [bind ?m ?k w] =>
      rewrite (bind_inl m k w e He)
    end.
    cbn [fst snd]. rewrite Hdb, Hout. conjs. eauto.
  - match goal with |- context [bind ?m ?k w] =>
      rewrite (bind_inr m k w (a, c) Hac)
    end.
    cbn [fst snd].
    set (w1 := snd (getAssignmentWithCourse _ false w)) in *.
    match goal with |- context [GetFileContent sc ?o] =>
      destruct (GetFileContent sc o) as [e | content] eqn:Hfile
    end.
    + match goal with |- context [bind ?m ?k w1] =>
        rewrite (bind_inl m k w1 e eq_refl)
      end.
      cbn [fst snd lift]. conjs; eauto.
    + match goal with |- context [bind ?m ?k w1] =>
        rewrite (bind_inr m k w1 content eq_refl)
      end.
      rewrite (Hbad a c content Ha Hc Hfile).
      match goal with |- context [bind ?m ?k ?w2] =>
        rewrite (bind_inl m k w2 ErrJSON eq_refl)
      end.
      cbn [fst snd lift]. conjs; eauto.
Qed.

(** X19.  For an assignment without persisted benchmarks, a run of
    [loadCriteria] that returns no error deletes nothing, the reviews of
    the assignment's submissions included: it appends the new benchmarks
    and criteria and prints nothing. *)
Theorem loadCriteria_first_import (sc : SCM) (request : LoadCriteriaRequest)
    (w : World) (a : Assignment) (result : list GradingBenchmark)
    (w' : World) :
  lookupAssignment (db w)
    (mkAssignment (lc_AssignmentID request) (lc_CourseID request) "" "" 0 [])
    = Some a ->
  as_GradingBenchmarks a = [] ->
  loadCriteria sc request w = (inr result, w') ->
  db w' = withRubric (db w) result
  /\ reviews (db w') = reviews (db w)
  /\ stdout w' = stdout w
  /\ Forall (fun r => gb_AssignmentID r = as_ID a) result.
Proof.
  intros Ha Hnone Hrun.
  unfold Web.loadCriteria in Hrun.
  unfold bind at 1, getAssignmentWithCourse in Hrun.
  unfold bind at 1, GormDB.GetAssignment at 1, storage at 1 in Hrun.
  destruct (faults w (tick w)); [discriminate |].
  rewrite Ha in Hrun.
  unfold bind at 1, GormDB.GetCourse at 1, storage at 1 in Hrun.
  simpl in Hrun.
  destruct (faults w (S (tick w))); [discriminate |].
  destruct (lookupCourse (db w) (as_CourseID a)) as [course |];
    [| discriminate].
  unfold ret at 1 in Hrun. simpl in Hrun.
  unfold bind at 1, lift at 1 in Hrun.
  match type of Hrun with context [GetFileContent sc ?o] =>
    destruct (GetFileContent sc o) as [e | content]
  end; [discriminate |].
  unfold bind at 1, lift at 1 in Hrun.
  destruct (json_Unmarshal content) as [parsed |]; [| discriminate].
  rewrite Hnone in Hrun. simpl in Hrun.
  unfold bind at 1, ret at 1 in Hrun.
  apply createBenchmarks_run in Hrun as (Hout & _ & _ & Hdb & HF).
  simpl in Hout, Hdb.
  assert (db w' = withRubric (db w) result) as Hdb' by (rewrite Hdb; reflexivity).
  split; [exact Hdb' |]. split; [rewrite Hdb'; reflexivity |].
  split; [exact Hout |].
  clear - HF. induction HF as [| p r ps rs Hp _ IH]; constructor;
    [apply Hp | exact IH].
Qed.

End Facts.

Import WebFixtures MoreWebFixtures.

Lemma createBenchmark_unknown_assignment_witness :
  let out := createBenchmark (mkBenchmark 0 7 "Tests" []) healthy in
  (exists e, fst out = inl e) /\ db (snd out) = db healthy.
Proof.
  apply (createBenchmark_unknown_assignment (mkBenchmark 0 7 "Tests" [])
           healthy).
  reflexivity.
Defined.

Lemma createBenchmark_then_loaded_witness :
  let query := mkBenchmark 0 1 "Tests" [] in
  let q := mkAssignment 1 0 "" "" 0 [] in
  let out := createBenchmark query healthy in
  exists bm,
    fst out = inr bm
    /\ gb_AssignmentID bm = 1
    /\ gb_Heading bm = "Tests"
    /\ ~ In (gb_ID bm) (map gb_ID (benchmarks (db healthy)))
    /\ benchmarks (db (snd out))
       = (benchmarks (db healthy) ++ [benchmarkRow bm])%list
    /\ exists a',
         lookupAssignment (db (snd out)) q = Some a'
         /\ as_GradingBenchmarks a'
            = (as_GradingBenchmarks lab1_loaded
               ++ [preloadBenchmark (db healthy) (benchmarkRow bm)])%list.
Proof.
  apply (createBenchmark_then_loaded (mkBenchmark 0 1 "Tests" []) healthy
           lab1_loaded).
  - reflexivity.
  - discriminate.
  - intros i _. reflexivity.
Defined.

Example createBenchmark_lab1 :
  fst (createBenchmark (mkBenchmark 0 1 "Tests" []) healthy)
  = inr (mkBenchmark 3 1 "Tests" []).
Proof. reflexivity. Qed.

(** The fixture store is within the cap: its two submissions have one
    review each. *)
Lemma healthy_withinCap : withinCap (db healthy).
Proof.
  intros id s a Hs Ha.
  assert (id = 0 \/ id = 1 \/ id = 2 \/ (2 < id)) as Hid by lia.
  destruct Hid as [-> | [-> | [-> | Hid]]].
  - vm_compute in Hs. injection Hs as <-.
    vm_compute in Ha. injection Ha as <-. vm_compute. discriminate.
  - vm_compute in Hs. injection Hs as <-.
    vm_compute in Ha. injection Ha as <-. vm_compute. discriminate.
  - vm_compute in Hs. injection Hs as <-.
    vm_compute in Ha. injection Ha as <-. vm_compute. discriminate.
  - unfold lookupSubmission, matchesSubmission in Hs. simpl in Hs.
    destruct (id =? 0) eqn:E0; [apply N.eqb_eq in E0; lia |].
    destruct (id =? 1) eqn:E1; [apply N.eqb_eq in E1; lia |].
    destruct (id =? 2) eqn:E2; [apply N.eqb_eq in E2; lia |].
    simpl in Hs. discriminate.
Qed.

Lemma createReview_keeps_cap_witness :
  withinCap (db healthy)
  /\ withinCap (db (snd (createReview (mkReview 0 2 "good" "") healthy))).
Proof.
  split; [exact healthy_withinCap |].
  apply (createReview_keeps_cap (mkReview 0 2 "good" "") healthy).
  exact healthy_withinCap.
Defined.

Lemma loadCriteria_decodes_before_deleting_witness :
  let out := Web.loadCriteria json join "tests" garbled request healthy in
  db (snd out) = db healthy
  /\ stdout (snd out) = stdout healthy
  /\ exists e, fst out = inl e.
Proof.
  apply (loadCriteria_decodes_before_deleting json join "tests" garbled
           request healthy).
  intros a course content _ _ Hfile.
  injection Hfile as <-. reflexivity.
Defined.

Example loadCriteria_garbled :
  fst (Web.loadCriteria json join "tests" garbled request healthy)
  = inl ErrJSON.
Proof. reflexivity. Qed.

Lemma loadCriteria_first_import_witness :
  let out := Web.loadCriteria json join "tests" provider request unmarked in
  lookupAssignment (db unmarked) (mkAssignment 1 1 "" "" 0 []) = Some lab1
  /\ out = (inr imported, snd out)
  /\ db (snd out) = withRubric (db unmarked) imported
  /\ reviews (db (snd out)) = reviews (db unmarked)
  /\ stdout (snd out) = stdout unmarked
  /\ Forall (fun r => gb_AssignmentID r = as_ID lab1) imported.
Proof.
  intros out.
  assert (lookupAssignment (db unmarked) (mkAssignment 1 1 "" "" 0 [])
          = Some lab1) as H1 by (vm_compute; reflexivity).
  assert (out = (inr imported, snd out)) as H2
    by (subst out; vm_compute; reflexivity).
  split; [exact H1 |]. split; [exact H2 |].
  apply (loadCriteria_first_import json join "tests" provider request
           unmarked lab1 imported (snd out) H1 eq_refl H2).
Defined.

End WebMoreFacts.

(* ===================================================================== *)
(** ** Properties of the web client's gRPC manager                         *)
(* ===================================================================== *)

Module GrpcManagerFacts.

Import GrpcManager.

Local Open Scope N_scope.

(** X21.  [updateUser] can grant the admin role but not take it away: the request
    marks the user as admin when the user is one already or when the
    caller passes [true]; passing [false] is the same as passing nothing.
    The identifying fields are sent as they are. *)
Theorem updateUser_only_promotes (user : User) (isadmin : option bool) :
  u_Isadmin (updateUser user isadmin)
  = (u_Isadmin user || match isadmin with Some b => b | None => false end)%bool
  /\ updateUser user (Some false) = updateUser user None
  /\ u_Id (updateUser user isadmin) = u_Id user
  /\ u_Avatarurl (updateUser user isadmin) = u_Avatarurl user
  /\ u_Email (updateUser user isadmin) = u_Email user
  /\ u_Name (updateUser user isadmin) = u_Name user
  /\ u_Studentid (updateUser user isadmin) = u_Studentid user.
Proof.
  destruct isadmin as [[|] |]; destruct user as [i a e n s [|]];
    repeat split.
Qed.

Example updateUser_demotion_ignored :
  u_Isadmin (updateUser (mkUser 7 "" "a@uis.no" "Ada" "123" true) (Some false))
  = true.
Proof. reflexivity. Qed.

Section Send.

Variable Number_toString : N -> string.

(** X22.  The promise of [grpcSend] stays pending exactly when the call is
    answered with an error whose code is OK, and then nothing is logged.
    Otherwise it is fulfilled: without an error, with the response as data
    and the status 0 ["OK"], nothing logged; with an error, with the
    error's (non-zero) code and message as status, no data, and one line
    added to the console, which names the method, the code as
    [toString] prints it and the message. *)
Theorem grpcSend_settles {Req T : Type} (method : Method Req T)
    (request : Req) (currentUser : option User) (log : list string) :
  let answer :=
    m_call method request (metadata Number_toString currentUser) in
  let b := grpcSend Number_toString method request currentUser log in
  match promise b with
  | Pending =>
      console b = log
      /\ exists e, fst answer = Some e /\ err_code e = 0
  | Fulfilled r =>
      match fst answer with
      | None =>
          r = mkResponse (mkStatus 0 "OK") (snd answer) /\ console b = log
      | Some e =>
          err_code e <> 0
          /\ r = mkResponse (mkStatus (err_code e) (err_message e)) None
          /\ console b
             = (log ++ [("GRPC " ++ m_name method ++ " failed with code "
                         ++ Number_toString (err_code e) ++ ": "
                         ++ err_message e)%string])%list
      end
  end.
Proof.
  intros answer b. subst b. unfold grpcSend. fold answer.
  destruct (fst answer) as [e |]; unfold callback, StatusCode_OK.
  - destruct (err_code e =? 0) eqn:E.
    + apply N.eqb_eq in E. simpl. split; [reflexivity |]. eauto.
    + apply N.eqb_neq in E as E'. unfold logErr. simpl. rewrite E. simpl.
      split; [exact E' |]. split; reflexivity.
  - simpl. split; reflexivity.
Qed.

End Send.

Example grpcSend_logs_failure :
  grpcSend GrpcFixtures.decimal
    (mkMethod "getCourse"
       (fun (_ : N) _ => (Some (mkError 5 "not found"), @None unit)))
    3 None []
  = mkBrowser (Fulfilled (mkResponse (mkStatus 5 "not found") None))
      ["GRPC getCourse failed with code 5: not found"%string].
Proof. reflexivity. Qed.

End GrpcManagerFacts.

(* ===================================================================== *)
(** ** A failed deletion during a rubric import                           *)
(* ===================================================================== *)

Module RubricFacts.

Import Web WebFacts WebMore WebMoreFacts.

Local Open Scope N_scope.

Lemma bind_assoc {A B C} (m : M A) (k1 : A -> M B) (k2 : B -> M C) w :
  bind (bind m k1) k2 w = bind m (fun a => bind (k1 a) k2) w.
Proof. unfold bind. destruct (m w) as [[e | a] w1]; reflexivity. Qed.

Lemma bind_run {A B} (m : M A) (k : A -> M B) w a w1 :
  m w = (inr a, w1) -> bind m k w = k a w1.
Proof. intros H. unfold bind. rewrite H. reflexivity. Qed.

Lemma retains_refl c d : retains c d d.
Proof. intros H. exact H. Qed.

Lemma retains_trans c d1 d2 d3 :
  retains c d1 d2 -> retains c d2 d3 -> retains c d1 d3.
Proof. intros H1 H2 H. apply H2, H1, H. Qed.

(** The deletion of a criterion with another key, and the deletions of
    the rubric of benchmarks whose criteria have other keys. *)
Lemma retains_deleteCriteria c cs :
  (forall c', In c' cs -> gc_ID c' <> gc_ID c) ->
  keeps (retains c)
    (forEach cs (fun c' =>
       orPrint (GormDB.DeleteCriterion c') (FailedToDeleteCriteria c'))).
Proof.
  intros Hids.
  apply keeps_forEach; [apply retains_refl | apply retains_trans |].
  intros c' Hc'. apply keeps_orPrint.
  apply keeps_storage; [apply retains_refl |].
  intros d x d' H. injection H as _ <-. intros Hin. simpl.
  apply (In_filter_neq gc_ID); [exact Hin |].
  intros E. apply (Hids c' Hc'). symmetry. exact E.
Qed.

Lemma retains_DeleteBenchmark c bm :
  keeps (retains c)
    (orPrint (GormDB.DeleteBenchmark bm) (FailedToDeleteBenchmark bm)).
Proof.
  apply keeps_orPrint. apply keeps_storage; [apply retains_refl |].
  intros d x d' H. injection H as _ <-. intros Hin. exact Hin.
Qed.

Lemma retains_deleteBenchmarks c bms :
  (forall c', In c' (flat_map gb_Criteria bms) -> gc_ID c' <> gc_ID c) ->
  keeps (retains c)
    (forEach bms (fun bm =>
       forEach (gb_Criteria bm) (fun c' =>
         orPrint (GormDB.DeleteCriterion c') (FailedToDeleteCriteria c')) ;;;
       orPrint (GormDB.DeleteBenchmark bm) (FailedToDeleteBenchmark bm))).
Proof.
  intros Hids.
  apply keeps_forEach; [apply retains_refl | apply retains_trans |].
  intros bm Hbm. apply keeps_bind; [apply retains_trans | |].
  - apply retains_deleteCriteria. intros c' Hc'. apply Hids.
    apply in_flat_map. exists bm. split; assumption.
  - intros _. apply retains_DeleteBenchmark.
Qed.

(** [removeOldCriteriaAndReviews] when the deletion of the first criterion
    of the rubric fails: the failure is printed and the function goes on;
    if it then returns no error, the criterion is still persisted, and the
    reviews of the submissions of the assignment are deleted all the
    same. *)
Lemma removeOld_after_failed_deletion a bm rest c cs w w3 :
  as_GradingBenchmarks a = bm :: rest ->
  gb_Criteria bm = c :: cs ->
  (forall c', In c' (cs ++ flat_map gb_Criteria rest) -> gc_ID c' <> gc_ID c) ->
  faults w (tick w) = true ->
  removeOldCriteriaAndReviews a w = (inr tt, w3) ->
  retains c (db w) (db w3)
  /\ (exists lines,
        stdout w3
        = (stdout w ++ FailedToDeleteCriteria c ErrStorage :: lines)%list)
  /\ reviews (db w3)
     = filter (fun r => notIn (submissionIDs (db w) a) (rv_SubmissionID r))
         (reviews (db w)).
Proof.
  intros Hbms Hcs Hids Hfault. unfold removeOldCriteriaAndReviews.
  rewrite Hbms. cbn [forEach]. rewrite Hcs. cbn [forEach].
  rewrite !bind_assoc.
  rewrite (bind_run _ _ w tt
             (mkWorld (db w) (S (tick w)) (faults w)
                (stdout w ++ [FailedToDeleteCriteria c ErrStorage])%list
                (clock w))).
  2:{ unfold orPrint, GormDB.DeleteCriterion, storage, Printf.
      rewrite Hfault. reflexivity. }
  set (w0 := mkWorld _ _ _ _ _).
  (* the other criteria of the first benchmark *)
  destruct (deleteCriteria_run cs w0) as (w1 & e1 & C1 & Hr1 & Ho1 & _ & _ & Hd1 & _).
  pose proof (retains_deleteCriteria c cs
                (fun c' H => Hids c' (in_or_app _ _ _ (or_introl H))) w0) as K1.
  rewrite Hr1 in K1. simpl in K1.
  rewrite (bind_run _ _ w0 tt w1 Hr1).
  (* the first benchmark *)
  pose proof (retains_DeleteBenchmark c bm w1) as K2.
  destruct (orPrint (GormDB.DeleteBenchmark bm) (FailedToDeleteBenchmark bm) w1)
    as [[e | []] w2] eqn:Hr2.
  { unfold orPrint, GormDB.DeleteBenchmark, storage, Printf in Hr2.
    destruct (faults w1 (tick w1)); discriminate Hr2. }
  assert (exists e2, stdout w2 = (stdout w1 ++ e2)%list
                     /\ reviews (db w2) = reviews (db w1)
                     /\ submissions (db w2) = submissions (db w1)) as (e2 & Ho2 & Hrv2 & Hsb2).
  { unfold orPrint, GormDB.DeleteBenchmark, storage, Printf in Hr2.
    destruct (faults w1 (tick w1)); injection Hr2 as <-; simpl.
    - eexists. conjs.
    - exists []. rewrite app_nil_r. conjs. }
  simpl in K2.
  rewrite (bind_run _ _ w1 tt w2 Hr2).
  (* the other benchmarks *)
  destruct (deleteBenchmarks_run rest w2)
    as (w2' & e3 & B3 & C3 & Hr3 & Ho3 & _ & _ & Hd3 & _).
  pose proof (retains_deleteBenchmarks c rest
                (fun c' H => Hids c' (in_or_app _ _ _ (or_intror H))) w2) as K3.
  rewrite Hr3 in K3. simpl in K3.
  rewrite (bind_run _ _ w2 tt w2' Hr3).
  (* the reviews *)
  unfold bind at 1, GormDB.GetSubmissions at 1, storage at 1.
  destruct (faults w2' (tick w2')); simpl; [discriminate |].
  intros Hr4. apply deleteReviews_run in Hr4 as (Ho4 & _ & _ & Hd4).
  simpl in Ho4, Hd4.
  split; [| split].
  - intros Hin. rewrite Hd4. simpl. apply K3, K2, K1. exact Hin.
  - exists (e1 ++ e2 ++ e3)%list.
    rewrite Ho4, Ho3, Ho2, Ho1. subst w0. simpl.
    rewrite <- !app_assoc. reflexivity.
  - assert (submissionIDs (db w2') a = submissionIDs (db w) a) as Hsame.
    { apply submissionIDs_same. rewrite Hd3. simpl. rewrite Hsb2, Hd1.
      reflexivity. }
    unfold submissionIDs in Hsame. rewrite Hd4. simpl. rewrite Hsame.
    rewrite Hd3. simpl. rewrite Hrv2, Hd1. reflexivity.
Qed.

(** The rubric loaded with an assignment comes from the tables. *)
Lemma loaded_criterion d q a bm rest c cs :
  lookupAssignment d q = Some a ->
  as_GradingBenchmarks a = bm :: rest ->
  gb_Criteria bm = c :: cs ->
  In c (criteria d) /\ gc_BenchmarkID c = gb_ID bm
  /\ gb_AssignmentID bm = as_ID a.
Proof.
  intros Ha Hbms Hcs. apply lookupAssignment_benchmarks in Ha.
  rewrite Hbms in Ha.
  destruct (filter (fun b => gb_AssignmentID b =? as_ID a) (benchmarks d))
    as [| row rows] eqn:Hrows; [discriminate |].
  simpl in Ha. injection Ha as Hbm _.
  assert (In row (filter (fun b => gb_AssignmentID b =? as_ID a) (benchmarks d)))
    as Hrow by (rewrite Hrows; left; reflexivity).
  apply filter_In in Hrow as [_ Hrow]. apply N.eqb_eq in Hrow.
  assert (In c (gb_Criteria bm)) as Hc by (rewrite Hcs; left; reflexivity).
  rewrite Hbm in Hc. simpl in Hc. apply filter_In in Hc as [Hc1 Hc2].
  apply N.eqb_eq in Hc2. rewrite Hbm. simpl. auto.
Qed.

Section Facts.

Variable json_Unmarshal : string -> option (list GradingBenchmark).
Variable filepath_Join : string -> string -> string.
Variable TestsRepo : string.

Abbreviation loadCriteria :=
  (loadCriteria json_Unmarshal filepath_Join TestsRepo).

(** C1.  The import does not replace the rubric as a whole.  For an
    assignment with a persisted rubric, when the storage call that deletes
    the first old criterion fails (the third storage call of the import),
    [removeOldCriteriaAndReviews] only prints the failure, and an import
    that goes on to return no error has deleted the reviews of the
    submissions of the assignment and appended the new benchmarks and
    criteria, while that criterion of the old rubric is still persisted
    for the assignment (its key being no other old criterion's). *)
Theorem loadCriteria_partial_replacement (sc : SCM)
    (request : LoadCriteriaRequest) (w : World) (a : Assignment)
    (bm : GradingBenchmark) (rest : list GradingBenchmark)
    (c : GradingCriterion) (cs : list GradingCriterion)
    (result : list GradingBenchmark) (w' : World) :
  lookupAssignment (db w)
    (mkAssignment (lc_AssignmentID request) (lc_CourseID request) "" "" 0 [])
    = Some a ->
  as_GradingBenchmarks a = bm :: rest ->
  gb_Criteria bm = c :: cs ->
  (forall c', In c' (cs ++ flat_map gb_Criteria rest) -> gc_ID c' <> gc_ID c) ->
  faults w (tick w + 2) = true ->
  loadCriteria sc request w = (inr result, w') ->
  (In c (criteria (db w'))
   /\ gc_BenchmarkID c = gb_ID bm /\ gb_AssignmentID bm = as_ID a)
  /\ (exists lines,
        stdout w'
        = (stdout w ++ FailedToDeleteCriteria c ErrStorage :: lines)%list)
  /\ reviews (db w')
     = filter (fun r => notIn (submissionIDs (db w) a) (rv_SubmissionID r))
         (reviews (db w))
  /\ (exists B C,
        benchmarks (db w') = (B ++ map benchmarkRow result)%list
        /\ criteria (db w') = (C ++ flat_map gb_Criteria result)%list
        /\ In c C)
  /\ Forall (fun r => gb_AssignmentID r = as_ID a) result.
Proof.
  intros Ha Hbms Hcs Hids Hfault Hrun.
  destruct (loaded_criterion _ _ _ _ _ _ _ Ha Hbms Hcs) as (Hin & Hkey & Hbm).
  unfold Web.loadCriteria in Hrun.
  unfold bind at 1, getAssignmentWithCourse in Hrun.
  unfold bind at 1, GormDB.GetAssignment at 1, storage at 1 in Hrun.
  destruct (faults w (tick w)); [discriminate |].
  rewrite Ha in Hrun.
  unfold bind at 1, GormDB.GetCourse at 1, storage at 1 in Hrun.
  simpl in Hrun.
  destruct (faults w (S (tick w))); [discriminate |].
  destruct (lookupCourse (db w) (as_CourseID a)) as [course |];
    [| discriminate].
  unfold ret at 1 in Hrun. simpl in Hrun.
  unfold bind at 1, lift at 1 in Hrun.
  match type of Hrun with context [GetFileContent sc ?o] =>
    destruct (GetFileContent sc o) as [e | content]
  end; [discriminate |].
  unfold bind at 1, lift at 1 in Hrun.
  destruct (json_Unmarshal content) as [parsed |]; [| discriminate].
  rewrite Hbms in Hrun at 1.
  change (0 <? List.length (bm :: rest))%nat with true in Hrun.
  cbv iota in Hrun. unfold bind at 1 in Hrun.
  match type of Hrun with context [removeOldCriteriaAndReviews a ?x] =>
    set (w2 := x) in *
  end.
  destruct (removeOldCriteriaAndReviews a w2) as [[e | []] w3] eqn:Hrem;
    [discriminate |].
  assert (faults w2 (tick w2) = true) as Hfault2.
  { subst w2. simpl. rewrite <- Hfault. f_equal. lia. }
  destruct (removeOld_after_failed_deletion a bm rest c cs w2 w3
              Hbms Hcs Hids Hfault2 Hrem) as (Hkeep & [lines Hout] & Hrev).
  apply createBenchmarks_run in Hrun as (Hout' & _ & _ & Hdb & HF).
  assert (In c (criteria (db w3))) as Hin3 by (apply Hkeep; exact Hin).
  split; [| split; [| split; [| split]]].
  - split; [| split; assumption]. rewrite Hdb. simpl.
    apply in_or_app. left. exact Hin3.
  - exists lines. rewrite Hout', Hout. reflexivity.
  - rewrite Hdb. simpl. exact Hrev.
  - exists (benchmarks (db w3)), (criteria (db w3)). rewrite Hdb. simpl.
    split; [reflexivity |]. split; [reflexivity | exact Hin3].
  - clear - HF. induction HF as [| p r ps rs Hp _ IH]; constructor;
      [apply Hp | exact IH].
Qed.

End Facts.

Import WebFixtures.

Lemma loadCriteria_partial_replacement_witness :
  let out := Web.loadCriteria json join "tests" provider request flaky in
  let old := mkCriterion 1 1 "Old criterion" in
  lookupAssignment (db flaky) (mkAssignment 1 1 "" "" 0 []) = Some lab1_loaded
  /\ as_GradingBenchmarks lab1_loaded = [mkBenchmark 1 1 "Old design" [old]]
  /\ faults flaky (tick flaky + 2) = true
  /\ out = (inr imported, snd out)
  /\ In old (criteria (db (snd out)))
  /\ (exists lines,
        stdout (snd out)
        = (stdout flaky ++ FailedToDeleteCriteria old ErrStorage :: lines)%list)
  /\ reviews (db (snd out)) = [mkReview 2 2 "keep" "02 Sep 10:00"]
  /\ (exists B C,
        benchmarks (db (snd out)) = (B ++ map benchmarkRow imported)%list
        /\ criteria (db (snd out)) = (C ++ flat_map gb_Criteria imported)%list
        /\ In old C).
Proof.
  intros out old.
  assert (lookupAssignment (db flaky) (mkAssignment 1 1 "" "" 0 [])
          = Some lab1_loaded) as H1 by (vm_compute; reflexivity).
  assert (out = (inr imported, snd out)) as H2
    by (subst out; vm_compute; reflexivity).
  destruct (loadCriteria_partial_replacement json join "tests" provider
              request flaky lab1_loaded
              (mkBenchmark 1 1 "Old design" [old]) [] old [] imported
              (snd out) H1 eq_refl eq_refl
              (fun c' (H : In c' ([] ++ flat_map gb_Criteria [])) =>
                 match H with end)
              eq_refl H2)
    as ((Hin & _ & _) & Hout & Hrev & Hnew & _).
  split; [exact H1 |]. split; [reflexivity |]. split; [reflexivity |].
  split; [exact H2 |]. split; [exact Hin |]. split; [exact Hout |].
  split; [rewrite Hrev; vm_compute; reflexivity | exact Hnew].
Defined.

End RubricFacts.
